(** * CanvasSaver: the export pipeline of [server.js]

    A shallow embedding of the server of CanvasSaver (link-header
    pagination, catalog build, progress channel and download handler) and of
    the download guard of the browser client, with the properties its
    specification states about them. *)

From Stdlib Require Import ZArith Lia Ascii String Sorted.
From stdpp Require Import base option list strings gmap sorting pretty.

Open Scope string_scope.
Open Scope list_scope.

(** ** JavaScript string primitives *)

Module Js.

(** The double quote, which a string literal cannot hold directly. *)
Definition dquote : ascii := "034"%char.

(** White space and line terminators of the ASCII range, as removed by
    [String.prototype.trim]. The white space that JavaScript knows beyond
    that range (U+00A0, U+FEFF and others) is not covered: [trim] below is
    [String.prototype.trim] on strings of ASCII characters. *)
Definition is_space (a : ascii) : bool :=
  match nat_of_ascii a with
  | 9 | 10 | 11 | 12 | 13 | 32 => true
  | _ => false
  end.

Fixpoint trimStart (s : string) : string :=
  match s with
  | EmptyString => EmptyString
  | String a t => if is_space a then trimStart t else s
  end.

Fixpoint trimEnd (s : string) : string :=
  match s with
  | EmptyString => EmptyString
  | String a t =>
      match trimEnd t with
      | EmptyString => if is_space a then EmptyString else String a EmptyString
      | t' => String a t'
      end
  end.

Definition trim (s : string) : string := trimEnd (trimStart s).

(** [s.split(c)] for a one-character separator: never the empty list. *)
Fixpoint split (c : ascii) (s : string) : list string :=
  match s with
  | EmptyString => [EmptyString]
  | String a t =>
      if Ascii.eqb a c then EmptyString :: split c t
      else match split c t with
           | [] => [String a EmptyString]
           | p :: ps => String a p :: ps
           end
  end.

(** [/pat/.test(s)] for a pattern made of literal characters only: [pat]
    occurs somewhere in [s]. *)
Fixpoint test (pat s : string) : bool :=
  String.prefix pat s ||
  match s with
  | EmptyString => false
  | String _ t => test pat t
  end.

(** [s.slice(b, e)], negative indices counting from the end. *)
Definition slice (b e : Z) (s : string) : string :=
  let len := Z.of_nat (String.length s) in
  let clamp i := if (i <? 0)%Z then Z.max (len + i) 0 else Z.min i len in
  let from := clamp b in
  let to := clamp e in
  substring (Z.to_nat from) (Z.to_nat (to - from)) s.

(** [String(v)] of a value that is a string or [undefined]. *)
Definition to_string (v : option string) : string :=
  match v with
  | Some s => s
  | None => "undefined"
  end.

(** Truthiness of a value that is a string or [null]. *)
Definition truthy (v : option string) : bool :=
  match v with
  | Some (String _ _) => true
  | _ => false
  end.

End Js.

(** ** Link-header pagination parser *)

(** The literal pattern of the regular expression [/rel="next"/]. *)
Definition rel_next : string :=
  "rel=" +:+ String Js.dquote ("next" +:+ String Js.dquote EmptyString).

(** The body of the [for (const part of linkHeader.split(","))] loop. *)
Fixpoint scan_parts (parts : list string) : option string :=
  match parts with
  | [] => None
  | part :: rest =>
      let pieces := Js.split ";" (Js.trim part) in
      let urlPart := hd EmptyString pieces in
      let relPart := pieces !! 1 in
      if Js.test rel_next (Js.to_string relPart)
      then Some (Js.slice 1 (-1) (Js.trim urlPart))
      else scan_parts rest
  end.

Definition getNextPage (linkHeader : option string) : option string :=
  if negb (Js.truthy linkHeader) then None
  else scan_parts (Js.split "," (Js.to_string linkHeader)).


(** ** Upstream replies *)

(** What the source raises: the two [Error]s of [fetchAllCourses], and any
    failure of an upstream call itself (a rejected [fetch], a body that
    [json()] cannot parse, or a parsed body of the wrong shape, which raises
    a [TypeError] as soon as it is iterated or dereferenced). *)
Inductive error : Type :=
| EnrollmentFetchFailed (status : Z)
| CourseMetadataFailed (id status : Z)
| UpstreamFailure (what : string).

Inductive reply (A : Type) : Type :=
| Return (a : A)
| Throw (e : error).
Arguments Return {A} a.
Arguments Throw {A} e.

(** A [node-fetch] response: status line, parsed JSON body and the [Link]
    header ([null] when absent). *)
Record response (A : Type) : Type := Response {
  status : Z;
  json : reply A;
  link : option string }.
Arguments Response {A} status json link.
Arguments status {A} r.
Arguments json {A} r.
Arguments link {A} r.

(** [resp.ok]: the status is in the range 200-299. *)
Definition ok {A} (r : response A) : bool :=
  (200 <=? status r)%Z && (status r <=? 299)%Z.

(** ** Course catalog *)

Record enrollment : Type := Enrollment { course_id : Z }.

Record term : Type := Term {
  term_name : option string;
  start_at : option string;
  end_at : option string }.

(** The empty object of [c.term || {}]. *)
Definition no_term : term := Term None None None.

(** A course as the upstream API sends it. *)
Record course_json : Type := CourseJson {
  j_id : Z;
  j_name : string;
  j_course_code : string;
  j_term : option term;
  j_published : bool }.

(** A course as [fetchAllCourses] returns it. *)
Record course : Type := Course {
  id : Z;
  name : string;
  course_code : string;
  course_term : term;
  published : bool }.

Definition course_of (c : course_json) : course :=
  {| id := j_id c;
     name := j_name c;
     course_code := j_course_code c;
     course_term := default no_term (j_term c);
     published := j_published c |}.

(** The insertion of one value into a JavaScript [Set], which keeps the
    order of first insertion. *)
Definition set_add (seen : list Z) (x : Z) : list Z :=
  if bool_decide (x ∈ seen) then seen else seen ++ [x].

(** [[...new Set(enrollments.map((e) => e.course_id))]] *)
Definition uniqueIds (enrollments : list enrollment) : list Z :=
  fold_left set_add (map course_id enrollments) [].

(** What a run of [fetchAllCourses] leaves behind: the courses pushed, the
    ids whose metadata was requested and the errors passed to
    [console.warn], each in order. *)
Record catalog : Type := Catalog {
  courses : list course;
  fetched : list Z;
  warnings : list error }.

Definition push_course (c : course) (st : catalog) : catalog :=
  {| courses := courses st ++ [c]; fetched := fetched st; warnings := warnings st |}.
Definition note_fetch (i : Z) (st : catalog) : catalog :=
  {| courses := courses st; fetched := fetched st ++ [i]; warnings := warnings st |}.
Definition warn (e : error) (st : catalog) : catalog :=
  {| courses := courses st; fetched := fetched st; warnings := warnings st ++ [e] |}.

Section Catalog.

(** The upstream API: the enrollment listing by URL and the course
    metadata by course id. *)
Variable CANVAS_URL : string.
Variable enrollments_at : string -> reply (response (list enrollment)).
Variable course_at : Z -> reply (response course_json).

(** [enrollUrl.toString()] *)
Definition enrollUrl : string :=
  CANVAS_URL +:+
  "/api/v1/users/self/enrollments?per_page=100&state%5B%5D=active&state%5B%5D=completed&state%5B%5D=inactive&type%5B%5D=StudentEnrollment".

(** The [while (next)] loop: the URLs requested so far and the records
    accumulated so far are threaded through; [None] when the fuel runs
    out before the loop ends. *)
Fixpoint enrollment_pages (fuel : nat) (next : option string)
    (asked : list string) (enrollments : list enrollment)
    : option (reply (list enrollment) * list string) :=
  if negb (Js.truthy next) then Some (Return enrollments, asked)
  else
    match fuel with
    | O => None
    | S fuel' =>
        let url := Js.to_string next in
        let asked := asked ++ [url] in
        match enrollments_at url with
        | Throw e => Some (Throw e, asked)
        | Return resp =>
            if negb (ok resp)
            then Some (Throw (EnrollmentFetchFailed (status resp)), asked)
            else
              match json resp with
              | Throw e => Some (Throw e, asked)
              | Return batch =>
                  enrollment_pages fuel' (getNextPage (link resp)) asked
                    (enrollments ++ batch)
              end
        end
    end.

(** One iteration of [for (const id of uniqueIds)], with its [try] and
    [catch]. *)
Definition metadata_step (st : catalog) (i : Z) : catalog :=
  let st := note_fetch i st in
  match course_at i with
  | Throw e => warn e st
  | Return cr =>
      if negb (ok cr) then
        if (status cr =? 403)%Z || (status cr =? 404)%Z then st
        else warn (CourseMetadataFailed i (status cr)) st
      else
        match json cr with
        | Throw e => warn e st
        | Return c => push_course (course_of c) st
        end
  end.

Definition fetch_metadata (ids : list Z) : catalog :=
  fold_left metadata_step ids (Catalog [] [] []).

Definition fetchAllCourses (fuel : nat) : option (reply catalog) :=
  match enrollment_pages fuel (Some enrollUrl) [] [] with
  | None => None
  | Some (Throw e, _) => Some (Throw e)
  | Some (Return enrollments, _) =>
      Some (Return (fetch_metadata (uniqueIds enrollments)))
  end.

(** [app.get("/api/courses")]: the status code and, on success, the courses
    sent. *)
Definition api_courses (fuel : nat) : option (Z * reply (list course)) :=
  match fetchAllCourses fuel with
  | None => None
  | Some (Return st) => Some (200%Z, Return (courses st))
  | Some (Throw e) => Some (500%Z, Throw e)
  end.

End Catalog.

(** ** Progress channel and archive: the observable world *)

(** An SSE response object held in [sseClients]. *)
Definition handle : Type := nat.

(** The content of an upstream byte stream. *)
Definition stream : Type := string.

(** The chunks written to an SSE response. *)
Inductive frame : Type :=
| Preamble
| ProgressHead
| ProgressData (done total : nat) (message : string)
| DoneFrame.

(** The upstream calls of the download handler. *)
Inductive request : Type :=
| GetModules (courseId : string)
| GetFile (content_id : Z)
| GetBytes (url : string)
| GetSyllabusAttachments (courseId : string)
| GetPages (courseId : string)
| GetPageAttachments (courseId page_url : string)
| GetAssignments (courseId : string)
| GetSubmissions (courseId : string) (assignment_id : Z).

(** Everything the server does that can be seen from outside, in order. *)
Inductive obs : Type :=
| Fetch (r : request)
| Write (h : handle) (f : frame)
| End (h : handle)
| Piped
| Append (entry_name : string) (content : stream)
| Finalize
| Aborted.

(** What the clients do while the handler is suspended: open an events
    connection, close one, or abort the download connection. *)
Inductive env_event : Type :=
| EvOpen (downloadId : option string) (h : handle)
| EvClose (downloadId : string)
| EvAbort.

(** The process state: the [sseClients] map, the trace of what happened,
    and the client events still to come, one batch per suspension point of
    the handler. *)
Record world : Type := World {
  sseClients : gmap string handle;
  trace : list obs;
  schedule : list (list env_event) }.

Definition log (o : obs) (w : world) : world :=
  {| sseClients := sseClients w; trace := trace w ++ [o]; schedule := schedule w |}.
Definition set_clients (m : gmap string handle) (w : world) : world :=
  {| sseClients := m; trace := trace w; schedule := schedule w |}.
Definition set_schedule (s : list (list env_event)) (w : world) : world :=
  {| sseClients := sseClients w; trace := trace w; schedule := s |}.

(** [app.get("/download/events")] *)
Definition events_open (downloadId : option string) (h : handle) (w : world) : world :=
  if negb (Js.truthy downloadId) then w
  else
    let w := log (Write h Preamble) w in
    set_clients (<[Js.to_string downloadId := h]> (sseClients w)) w.

(** The [close] listener of an events connection. *)
Definition events_close (downloadId : string) (w : world) : world :=
  set_clients (delete downloadId (sseClients w)) w.

Definition apply_event (w : world) (e : env_event) : world :=
  match e with
  | EvOpen downloadId h => events_open downloadId h w
  | EvClose downloadId => events_close downloadId w
  | EvAbort => log Aborted w
  end.

Definition sendProgress (i : string) (done total : nat) (message : string)
    (w : world) : world :=
  match sseClients w !! i with
  | None => w
  | Some client =>
      log (Write client (ProgressData done total message))
        (log (Write client ProgressHead) w)
  end.

(** ** The handler monad: state and exceptions *)

Definition M (A : Type) : Type := world -> reply A * world.

#[global] Instance M_ret : MRet M := fun A a w => (Return a, w).
#[global] Instance M_bind : MBind M := fun A B f m w =>
  match m w with
  | (Return a, w') => f a w'
  | (Throw e, w') => (Throw e, w')
  end.

Definition act (f : world -> world) : M unit := fun w => (Return tt, f w).

(** The client events of the next suspension point are delivered. *)
Definition deliver (w : world) : world :=
  match schedule w with
  | [] => w
  | batch :: later => fold_left apply_event batch (set_schedule later w)
  end.

(** [await fetch(...)] with the parsing of its result: the request goes
    out, the handler is suspended, and the upstream answer [res] comes
    back or raises. *)
Definition fetch {A} (r : request) (res : reply A) : M A :=
  fun w => (res, deliver (log (Fetch r) w)).

(** [for (const x of l) body] *)
Fixpoint for_of {A} (l : list A) (body : A -> M unit) : M unit :=
  match l with
  | [] => mret tt
  | x :: rest => body x ;; for_of rest body
  end.

(** ** Upstream data of the download handler *)

Record item : Type := Item { item_type : string; item_content_id : option Z }.
Record module : Type := Module_ { module_name : string; module_items : list item }.
Record file_meta : Type := FileMeta { file_url : string; display_name : string }.
Record attachment : Type := Attachment { att_url : string; filename : string }.
Record page : Type := Page { title : string; page_url : string }.
Record assignment : Type := Assignment { assignment_id : Z; assignment_name : string }.
Record submission : Type := Submission { attachments : option (list attachment) }.

(** The answers of the upstream API, one function per endpoint shape.
    The handler reads no status: [Return] is the parsed body of the
    response, and for [bytes_of] its body stream, whatever the status;
    [Throw] is a request that is rejected, a body that is not JSON, or a
    parsed body that the loop cannot iterate or dereference. For
    [submissions_of], which the handler reads as [subs[0]?.attachments],
    [Return subs] lists the indexed elements of the body: a body without
    element 0, such as an error object, is [Return []]. *)
Record canvas : Type := Canvas {
  modules_of : string -> reply (list module);
  file_of : Z -> reply file_meta;
  bytes_of : string -> reply stream;
  syllabus_of : string -> reply (list attachment);
  pages_of : string -> reply (list page);
  page_attachments_of : string -> string -> reply (list attachment);
  assignments_of : string -> reply (list assignment);
  submissions_of : string -> Z -> reply (list submission) }.

Record selections : Type := Selections {
  sel_modules : list string;
  sel_syllabus : list string;
  sel_pages : list string;
  sel_submissions : list string }.

(** [s.replace(/[\/\\]/g, "_")] *)
Fixpoint replace_separators (s : string) : string :=
  match s with
  | EmptyString => EmptyString
  | String a t =>
      String (if Ascii.eqb a "/" || Ascii.eqb a "\" then "_"%char else a)
        (replace_separators t)
  end.

(** Truthiness of [item.content_id]: present and not zero. *)
Definition truthy_id (i : option Z) : bool :=
  match i with
  | Some n => negb (n =? 0)%Z
  | None => false
  end.

Definition append (content : stream) (entry_name : string) : M unit :=
  act (log (Append entry_name content)).

(** ** The download handler *)

Inductive outcome : Type :=
| BadRequest (code : Z) (message : string)
| Finished (done : nat)
| Crashed (e : error).

Section Download.

Variable cv : canvas.

(** The body of [for (const courseId of selections.modules)] up to the
    counter update. *)
Definition modules_unit (courseId : string) : M unit :=
  modules ← fetch (GetModules courseId) (modules_of cv courseId);
  for_of modules (fun m =>
    let safeMod := replace_separators (module_name m) in
    for_of (module_items m) (fun item =>
      if String.eqb (item_type item) "File" && truthy_id (item_content_id item)
      then
        let content_id := default 0%Z (item_content_id item) in
        meta ← fetch (GetFile content_id) (file_of cv content_id);
        stream ← fetch (GetBytes (file_url meta)) (bytes_of cv (file_url meta));
        append stream
          (courseId +:+ "/Modules/" +:+ safeMod +:+ "/" +:+ display_name meta)
      else mret tt)).

Definition syllabus_unit (courseId : string) : M unit :=
  atts ← fetch (GetSyllabusAttachments courseId) (syllabus_of cv courseId);
  for_of atts (fun a =>
    st ← fetch (GetBytes (att_url a)) (bytes_of cv (att_url a));
    append st (courseId +:+ "/Syllabus/" +:+ filename a)).

Definition pages_unit (courseId : string) : M unit :=
  pages ← fetch (GetPages courseId) (pages_of cv courseId);
  for_of pages (fun p =>
    let safeTitle := replace_separators (title p) in
    atts ← fetch (GetPageAttachments courseId (page_url p))
             (page_attachments_of cv courseId (page_url p));
    for_of atts (fun a =>
      st ← fetch (GetBytes (att_url a)) (bytes_of cv (att_url a));
      append st
        (courseId +:+ "/Pages/" +:+ safeTitle +:+ "/" +:+ filename a))).

Definition submissions_unit (courseId : string) : M unit :=
  asgs ← fetch (GetAssignments courseId) (assignments_of cv courseId);
  for_of asgs (fun a =>
    subs ← fetch (GetSubmissions courseId (assignment_id a))
             (submissions_of cv courseId (assignment_id a));
    match head subs ≫= attachments with
    | Some atts =>
        for_of atts (fun att =>
          st ← fetch (GetBytes (att_url att)) (bytes_of cv (att_url att));
          append st
            (courseId +:+ "/Submissions/" +:+ assignment_name a +:+ "/"
               +:+ filename att))
    | None => mret tt
    end).

(** One of the four [for (const courseId of selections.<category>)] loops:
    the unit's fetches, then [done++] and [sendProgress]. The counter is
    passed in and handed back. *)
Fixpoint each_course (unit_body : string -> M unit) (label : string -> string)
    (downloadId : string) (total : nat) (ids : list string) (done : nat)
    : M nat :=
  match ids with
  | [] => mret done
  | courseId :: rest =>
      unit_body courseId ;;
      let done := S done in
      act (sendProgress downloadId done total (label courseId)) ;;
      each_course unit_body label downloadId total rest done
  end.

Definition total_of (sel : selections) : nat :=
  length (sel_modules sel) + length (sel_syllabus sel)
  + length (sel_pages sel) + length (sel_submissions sel).

(** The handler after its validation, up to and including
    [archive.finalize()]; it hands back the last value of [done]. *)
Definition download_body (downloadId : string) (sel : selections) : M nat :=
  act (log Piped) ;;
  let total := total_of sel in
  done ← each_course modules_unit (fun c => "Modules for " +:+ c)
           downloadId total (sel_modules sel) 0;
  done ← each_course syllabus_unit (fun c => "Syllabus for " +:+ c)
           downloadId total (sel_syllabus sel) done;
  done ← each_course pages_unit (fun c => "Pages for " +:+ c)
           downloadId total (sel_pages sel) done;
  done ← each_course submissions_unit (fun c => "Submissions for " +:+ c)
           downloadId total (sel_submissions sel) done;
  act (log Finalize) ;;
  mret done.

(** [app.post("/download")] *)
Definition download (downloadId : option string) (sel : selections)
    (w : world) : outcome * world :=
  if negb (Js.truthy downloadId)
     || negb (bool_decide (is_Some (sseClients w !! Js.to_string downloadId)))
  then (BadRequest 400 "Invalid downloadId", w)
  else
    match download_body (Js.to_string downloadId) sel w with
    | (Return done, w') => (Finished done, w')
    | (Throw e, w') => (Crashed e, w')
    end.

(** The listener of the archive's [end] event. *)
Definition archive_end (downloadId : string) (w : world) : world :=
  match sseClients w !! downloadId with
  | Some client =>
      set_clients (delete downloadId (sseClients w))
        (log (End client) (log (Write client DoneFrame) w))
  | None => w
  end.

(** All the client events still scheduled are delivered. *)
Definition drain (w : world) : world :=
  fold_left (fun w batch => fold_left apply_event batch w) (schedule w)
    (set_schedule [] w).

(** A whole job: the handler runs, the remaining client events arrive,
    and, when the handler has finalized the archive and the archive stream
    is consumed to its end ([ends]), the [end] listener runs. *)
Definition job (downloadId : option string) (sel : selections) (ends : bool)
    (w : world) : outcome * world :=
  let '(o, w1) := download downloadId sel w in
  let w2 := drain w1 in
  match o with
  | Finished _ =>
      (o, if ends then archive_end (Js.to_string downloadId) w2 else w2)
  | _ => (o, w2)
  end.

End Download.

(** ** The browser client *)

Inductive client_action : Type :=
| Alert (message : string)
| Post (downloadId : string) (sel : selections).

(** [downloadBtn.onclick]: the guard on the gathered selections, then the
    request. *)
Definition downloadBtn_onclick (downloadId : string) (sel : selections)
    : client_action :=
  if Nat.eqb (length (sel_modules sel)) 0
     && Nat.eqb (length (sel_syllabus sel)) 0
     && Nat.eqb (length (sel_pages sel)) 0
     && Nat.eqb (length (sel_submissions sel)) 0
  then Alert "Select at least one checkbox."
  else Post downloadId sel.

(** [cancelBtn.onclick]: the download connection is aborted, and the
    [finally] of the request closes the events connection; here both reach
    the server at the same suspension point of the handler. *)
Definition cancel (downloadId : string) : list env_event :=
  [EvAbort; EvClose downloadId].

(** ** Link headers as the upstream API writes them *)

(** One [<url>; rel="name"] entry. *)
Record link_entry : Type := LinkEntry { target : string; rel : string }.

Definition render_entry (e : link_entry) : string :=
  "<" +:+ target e +:+ ">; rel="
    +:+ String Js.dquote (rel e +:+ String Js.dquote EmptyString).

(** The entries joined by commas. *)
Fixpoint render_link (es : list link_entry) : string :=
  match es with
  | [] => EmptyString
  | [e] => render_entry e
  | e :: rest => render_entry e +:+ "," +:+ render_link rest
  end.

(** The URL of the first entry whose relation is [next]. *)
Fixpoint next_of (es : list link_entry) : option string :=
  match es with
  | [] => None
  | e :: rest => if String.eqb (rel e) "next" then Some (target e) else next_of rest
  end.

Fixpoint has_char (c : ascii) (s : string) : bool :=
  match s with
  | EmptyString => false
  | String a t => Ascii.eqb a c || has_char c t
  end.

(** A well-formed entry: a non-empty URL without comma or semicolon and a
    relation name without comma, semicolon or double quote. *)
Definition entry_ok (e : link_entry) : bool :=
  Js.truthy (Some (target e))
  && negb (has_char "," (target e)) && negb (has_char ";" (target e))
  && negb (has_char "," (rel e)) && negb (has_char ";" (rel e))
  && negb (has_char Js.dquote (rel e)).

(** One page of a paginated listing as the upstream serves it: its URL, its
    status, its records and the entries of its [Link] header, if it has
    one. *)
Record served : Type := Served {
  at_url : string;
  code : Z;
  records : list enrollment;
  links : option (list link_entry) }.

Definition response_of (p : served) : response (list enrollment) :=
  Response (code p) (Return (records p)) (render_link <$> links p).

(** [pages] is what the upstream serves from [url] on: every page answers
    with a success status, the [next] entry of each page is the URL of the
    page after it, and the last page has no [next] entry. *)
Fixpoint chain (enrollments_at : string -> reply (response (list enrollment)))
    (url : string) (pages : list served) : Prop :=
  match pages with
  | [] => False
  | p :: rest =>
      url = at_url p
      /\ enrollments_at url = Return (response_of p)
      /\ ok (response_of p) = true
      /\ forallb entry_ok (default [] (links p)) = true
      /\ match rest with
         | [] => next_of (default [] (links p)) = None
         | q :: _ =>
             next_of (default [] (links p)) = Some (at_url q)
             /\ chain enrollments_at (at_url q) rest
         end
  end.

(** ** The handler's work as a script *)

Inductive category : Type := Modules | Syllabus | Pages | Submissions.

(** The selected (category, course) pairs in the order the handler visits
    them. *)
Definition units (sel : selections) : list (category * string) :=
  (pair Modules <$> sel_modules sel) ++ (pair Syllabus <$> sel_syllabus sel)
  ++ (pair Pages <$> sel_pages sel) ++ (pair Submissions <$> sel_submissions sel).

Definition unit_body (cv : canvas) (u : category * string) : M unit :=
  match fst u with
  | Modules => modules_unit cv (snd u)
  | Syllabus => syllabus_unit cv (snd u)
  | Pages => pages_unit cv (snd u)
  | Submissions => submissions_unit cv (snd u)
  end.

Definition label (u : category * string) : string :=
  match fst u with
  | Modules => "Modules for " +:+ snd u
  | Syllabus => "Syllabus for " +:+ snd u
  | Pages => "Pages for " +:+ snd u
  | Submissions => "Submissions for " +:+ snd u
  end.

(** What the handler does between two of its decisions: something of its
    own that shows in the trace, or a call of [sendProgress]. *)
Inductive action : Type :=
| Work (o : obs)
| Progress (i : string) (done total : nat) (message : string).

Definition perform (a : action) (w : world) : world :=
  match a with
  | Work (Fetch r) => deliver (log (Fetch r) w)
  | Work o => log o w
  | Progress i done total message => sendProgress i done total message w
  end.

Definition run (acts : list action) (w : world) : world :=
  fold_left (fun w a => perform a w) acts w.

(** A world without clients and without client events. *)
Definition quiet : world := World ∅ [] [].

(** The upstream calls and archive entries of one unit, and how it ends. *)
Definition unit_work (cv : canvas) (u : category * string) : list obs :=
  trace (snd (unit_body cv u quiet)).
Definition unit_result (cv : canvas) (u : category * string) : reply unit :=
  fst (unit_body cv u quiet).
Definition unit_ok (cv : canvas) (u : category * string) : bool :=
  match unit_result cv u with
  | Return _ => true
  | Throw _ => false
  end.

(** The actions of the loops over [us], starting with the counter at
    [done], up to the first unit that raises. *)
Fixpoint script (cv : canvas) (i : string) (total : nat)
    (us : list (category * string)) (done : nat) : list action * reply nat :=
  match us with
  | [] => ([], Return done)
  | u :: rest =>
      match unit_result cv u with
      | Throw e => (Work <$> unit_work cv u, Throw e)
      | Return _ =>
          let '(acts, r) := script cv i total rest (S done) in
          ((Work <$> unit_work cv u)
             ++ Progress i (S done) total (label u) :: acts, r)
      end
  end.

(** Readings of a trace: the upstream requests, the archive entry names,
    the [done] values of the progress frames, and the terminal frames. *)
Definition fetches (t : list obs) : list request :=
  omap (fun o => match o with Fetch r => Some r | _ => None end) t.
Definition entry_names (t : list obs) : list string :=
  omap (fun o => match o with Append n _ => Some n | _ => None end) t.
Definition dones (t : list obs) : list nat :=
  omap (fun o => match o with Write _ (ProgressData d _ _) => Some d | _ => None end) t.
Definition terminals (t : list obs) : list handle :=
  omap (fun o => match o with Write h DoneFrame => Some h | _ => None end) t.

(** A trace entry that is a write to, or the end of, a progress channel
    after its opening. *)
Definition channel_output (o : obs) : bool :=
  match o with
  | Write _ Preamble => false
  | Write _ _ => true
  | End _ => true
  | _ => false
  end.

(** ** Predicates on traces, actions and worlds *)

(** The trace entries of a unit: upstream requests and archive entries. *)
Definition unit_obs (o : obs) : Prop :=
  match o with
  | Fetch _ | Append _ _ => True
  | _ => False
  end.

(** The trace entries that are the handler's own work, as opposed to what
    is written to a progress channel or done by a client. *)
Definition handler_obs (o : obs) : bool :=
  match o with
  | Fetch _ | Append _ _ | Piped | Finalize => true
  | _ => false
  end.

Definition own (t : list obs) : list obs := filter (fun o => handler_obs o = true) t.

Definition works (acts : list action) : list obs :=
  omap (fun a => match a with Work o => Some o | Progress _ _ _ _ => None end) acts.

Definition reports (acts : list action) : list nat :=
  omap (fun a => match a with Work _ => None | Progress _ d _ _ => Some d end) acts.

(** [m] does the same work, with the same result, in every world: a fixed
    list of trace entries, each satisfying [P]. *)
Definition scripted {A} (P : obs -> Prop) (m : M A) : Prop :=
  exists os r, Forall P os /\ forall w, m w = (r, run (Work <$> os) w).

(** The archive entry names that the modules and pages loops can produce
    for a course: the course id, the category folder, the module name or
    page title with its separators replaced, and the file's name as the
    upstream gives it. *)
Definition modules_entry (cv : canvas) (courseId entry_name : string) : Prop :=
  exists ms m meta,
    modules_of cv courseId = Return ms /\ m ∈ ms
    /\ (exists it i, it ∈ module_items m /\ item_content_id it = Some i
                     /\ file_of cv i = Return meta)
    /\ entry_name = courseId +:+ "/Modules/"
         +:+ replace_separators (module_name m) +:+ "/" +:+ display_name meta.

Definition pages_entry (cv : canvas) (courseId entry_name : string) : Prop :=
  exists ps p atts a,
    pages_of cv courseId = Return ps /\ p ∈ ps
    /\ page_attachments_of cv courseId (page_url p) = Return atts /\ a ∈ atts
    /\ entry_name = courseId +:+ "/Pages/"
         +:+ replace_separators (title p) +:+ "/" +:+ filename a.

(** The job id is never registered again by the client events [s]. *)
Definition opens (i : string) (e : env_event) : bool :=
  match e with
  | EvOpen (Some j) _ => String.eqb i j
  | _ => false
  end.
Definition never_opens (i : string) (s : list (list env_event)) : Prop :=
  Forall (Forall (fun e => opens i e = false)) s.

Definition closes (i : string) (e : env_event) : bool :=
  match e with
  | EvClose j => String.eqb i j
  | _ => false
  end.
Definition never_closes (i : string) (s : list (list env_event)) : Prop :=
  Forall (Forall (fun e => closes i e = false)) s.

(** What the modules and pages units may leave in the trace. *)
Definition modules_obs (cv : canvas) (c : string) (o : obs) : Prop :=
  match o with
  | Fetch _ => True
  | Append n _ => modules_entry cv c n
  | _ => False
  end.

Definition pages_obs (cv : canvas) (c : string) (o : obs) : Prop :=
  match o with
  | Fetch _ => True
  | Append n _ => pages_entry cv c n
  | _ => False
  end.

(** An action of the job [i] with [total] units: work of a unit, or a
    progress report for that job. *)
Definition job_action (i : string) (total : nat) (a : action) : Prop :=
  match a with
  | Work o => handler_obs o = true
  | Progress j _ t _ => j = i /\ t = total
  end.

(** What a client event may leave in the trace: the mark of an abort, or
    the first write to a newly opened channel. *)
Definition client_obs (o : obs) : Prop :=
  match o with
  | Aborted | Write _ Preamble => True
  | _ => False
  end.

(** An action whose work, if any, is the handler's own. *)
Definition handler_action (a : action) : Prop :=
  match a with
  | Work o => handler_obs o = true
  | Progress _ _ _ _ => True
  end.

(** The channel of job [i] is open and no pending client event closes
    it. *)
Definition registered (i : string) (w : world) : Prop :=
  is_Some (sseClients w !! i) /\ never_closes i (schedule w).

(** The channel of job [i] is closed and no pending client event opens it
    again. *)
Definition gone (i : string) (w : world) : Prop :=
  sseClients w !! i = None /\ never_opens i (schedule w).

(** The client of job [i] cancels at some suspension point to come, and
    does not open the channel again afterwards. *)
Definition pending (i : string) (w : world) : Prop :=
  exists s1 s2, schedule w = s1 ++ cancel i :: s2 /\ never_opens i s2.

(** Nothing in [t] is written to a progress channel. *)
Definition silent (t : list obs) : Prop :=
  Forall (fun o => channel_output o = false) t.

Definition apply_batches (s : list (list env_event)) (w : world) : world :=
  fold_left (fun w batch => fold_left apply_event batch w) s w.


(** ** Sample data *)

Module Sample.

Definition CANVAS_URL : string := "https://canvas.test".

Definition second_url : string :=
  "https://canvas.test/api/v1/users/self/enrollments?page=2&per_page=100".

(** Two pages of enrollments: courses 1 and 2, then course 1 again. *)
Definition first_page : served :=
  {| at_url := enrollUrl CANVAS_URL;
     code := 200;
     records := [Enrollment 1; Enrollment 2];
     links := Some [LinkEntry (enrollUrl CANVAS_URL) "current";
                    LinkEntry second_url "next";
                    LinkEntry (enrollUrl CANVAS_URL) "first"] |}.

Definition second_page : served :=
  {| at_url := second_url;
     code := 200;
     records := [Enrollment 1];
     links := Some [LinkEntry second_url "current";
                    LinkEntry (enrollUrl CANVAS_URL) "prev";
                    LinkEntry (enrollUrl CANVAS_URL) "first"] |}.

Definition enrollments_at (url : string) : reply (response (list enrollment)) :=
  if String.eqb url (at_url first_page) then Return (response_of first_page)
  else if String.eqb url (at_url second_page) then Return (response_of second_page)
  else Throw (UpstreamFailure "no such page").

Definition algebra : course_json :=
  {| j_id := 2; j_name := "Algebra"; j_course_code := "MA 1";
     j_term := None; j_published := true |}.

(** Course 1 answers with a server error, course 2 with its metadata. *)
Definition course_at (i : Z) : reply (response course_json) :=
  if (i =? 1)%Z
  then Return (Response 500 (Throw (UpstreamFailure "no JSON body")) None)
  else if (i =? 2)%Z then Return (Response 200 (Return algebra) None)
  else Return (Response 404 (Throw (UpstreamFailure "no JSON body")) None).

(** Course 101 has one module with one file; the module listing of course
    102 fails; the only file of course 103 has no metadata; every other
    course has nothing to export. *)
Definition cv : canvas :=
  {| modules_of := fun c =>
       if String.eqb c "101"
       then Return [Module_ "Unit 1/Intro"
                      [Item "File" (Some 7%Z); Item "Page" None]]
       else if String.eqb c "102" then Throw (UpstreamFailure "module listing")
       else if String.eqb c "103"
       then Return [Module_ "Week 1" [Item "File" (Some 8%Z)]]
       else Return [];
     file_of := fun i =>
       if (i =? 7)%Z then Return (FileMeta "https://files.test/7" "a\b.pdf")
       else Throw (UpstreamFailure "file metadata");
     bytes_of := fun _ => Return "%PDF";
     syllabus_of := fun _ => Return [];
     pages_of := fun _ => Return [];
     page_attachments_of := fun _ _ => Return [];
     assignments_of := fun _ => Return [];
     submissions_of := fun _ _ => Return [] |}.

(** The channel of the job is open as response 1; no client event is
    scheduled. *)
Definition opened : world := World {[ "job" := 1 ]} [] [].

(** Five units; the client cancels while the third is being fetched. *)
Definition five : selections :=
  Selections ["101"; "104"; "105"] ["101"; "104"] [] [].

End Sample.

(** ** Link headers with white space, and chains of pages that go on *)

(** A string of white space only. *)
Fixpoint blank (s : string) : bool :=
  match s with
  | EmptyString => true
  | String a t => Js.is_space a && blank t
  end.

(** An entry with white space before and after it, as written by servers
    that put a space after each comma. *)
Record padded_entry : Type := Padded {
  lead : string;
  entry : link_entry;
  trail : string }.

Definition render_padded (p : padded_entry) : string :=
  lead p +:+ render_entry (entry p) +:+ trail p.

Fixpoint render_link_padded (ps : list padded_entry) : string :=
  match ps with
  | [] => EmptyString
  | [p] => render_padded p
  | p :: rest => render_padded p +:+ "," +:+ render_link_padded rest
  end.

Definition padded_ok (p : padded_entry) : bool :=
  blank (lead p) && blank (trail p) && entry_ok (entry p).

(** [pages] is what the upstream serves from [url] on, every page with a
    success status and a [next] entry, the [next] entry of the last page
    being [target]. *)
Fixpoint leads_to (enrollments_at : string -> reply (response (list enrollment)))
    (url : string) (pages : list served) (target : string) : Prop :=
  match pages with
  | [] => url = target
  | p :: rest =>
      url = at_url p
      /\ enrollments_at url = Return (response_of p)
      /\ ok (response_of p) = true
      /\ forallb entry_ok (default [] (links p)) = true
      /\ match next_of (default [] (links p)) with
         | Some next => leads_to enrollments_at next rest target
         | None => False
         end
  end.

(** How the request for one page of enrollments fails, if it does: the
    [fetch] is rejected, the status is not a success, or the body cannot
    be read. *)
Definition page_failure (r : reply (response (list enrollment))) : option error :=
  match r with
  | Throw e => Some e
  | Return resp =>
      if negb (ok resp) then Some (EnrollmentFetchFailed (status resp))
      else match json resp with
           | Throw e => Some e
           | Return _ => None
           end
  end.

(** How the metadata request for one course fails with a warning, if it
    does. *)
Definition metadata_failure (i : Z) (r : reply (response course_json)) : option error :=
  match r with
  | Throw e => Some e
  | Return cr =>
      if negb (ok cr) then
        if (status cr =? 403)%Z || (status cr =? 404)%Z then None
        else Some (CourseMetadataFailed i (status cr))
      else match json cr with
           | Throw e => Some e
           | Return _ => None
           end
  end.

(** ** Further readings of traces *)

(** The progress frames of a trace with the channel they are written to,
    and the progress reports of a script. *)
Definition frames (t : list obs) : list (handle * nat * nat * string) :=
  omap (fun o => match o with
                 | Write h (ProgressData d n m) => Some (h, d, n, m)
                 | _ => None
                 end) t.
Definition announcements (acts : list action) : list (nat * nat * string) :=
  omap (fun a => match a with
                 | Work _ => None
                 | Progress _ d n m => Some (d, n, m)
                 end) acts.

(** The channels written to in a trace. *)
Definition written_to (t : list obs) : list handle :=
  omap (fun o => match o with Write h _ => Some h | End h => Some h | _ => None end) t.

(** The upstream API as it looks to a handler that reads no submission
    after the first. *)
Definition first_submission_only (cv : canvas) : canvas :=
  {| modules_of := modules_of cv;
     file_of := file_of cv;
     bytes_of := bytes_of cv;
     syllabus_of := syllabus_of cv;
     pages_of := pages_of cv;
     page_attachments_of := page_attachments_of cv;
     assignments_of := assignments_of cv;
     submissions_of := fun c a =>
       match submissions_of cv c a with
       | Return subs => Return (take 1 subs)
       | Throw e => Throw e
       end |}.

(** The archive entry names that the syllabus and submissions loops can
    produce for a course. *)
Definition syllabus_entry (cv : canvas) (courseId entry_name : string) : Prop :=
  exists atts a,
    syllabus_of cv courseId = Return atts /\ a ∈ atts
    /\ entry_name = courseId +:+ "/Syllabus/" +:+ filename a.

Definition submissions_entry (cv : canvas) (courseId entry_name : string) : Prop :=
  exists asgs a subs s atts att,
    assignments_of cv courseId = Return asgs /\ a ∈ asgs
    /\ submissions_of cv courseId (assignment_id a) = Return (s :: subs)
    /\ attachments s = Some atts /\ att ∈ atts
    /\ entry_name = courseId +:+ "/Submissions/" +:+ assignment_name a +:+ "/"
         +:+ filename att.

Definition syllabus_obs (cv : canvas) (c : string) (o : obs) : Prop :=
  match o with
  | Fetch _ => True
  | Append n _ => syllabus_entry cv c n
  | _ => False
  end.

Definition submissions_obs (cv : canvas) (c : string) (o : obs) : Prop :=
  match o with
  | Fetch _ => True
  | Append n _ => submissions_entry cv c n
  | _ => False
  end.

(** The condition under which the modules loop exports an item. *)
Definition is_file_item (it : item) : bool :=
  String.eqb (item_type it) "File" && truthy_id (item_content_id it).

(** ** The browser client: catalog view and selection *)

(** A checkbox of the courses table: [data-type], [data-id] and whether
    it is checked. *)
Record checkbox : Type := Checkbox {
  cb_type : category;
  cb_id : string;
  cb_checked : bool }.

(** One step of the [forEach] that gathers the selections. *)
Definition push_selection (sel : selections) (cb : checkbox) : selections :=
  if cb_checked cb then
    match cb_type cb with
    | Modules =>
        Selections (sel_modules sel ++ [cb_id cb]) (sel_syllabus sel)
          (sel_pages sel) (sel_submissions sel)
    | Syllabus =>
        Selections (sel_modules sel) (sel_syllabus sel ++ [cb_id cb])
          (sel_pages sel) (sel_submissions sel)
    | Pages =>
        Selections (sel_modules sel) (sel_syllabus sel)
          (sel_pages sel ++ [cb_id cb]) (sel_submissions sel)
    | Submissions =>
        Selections (sel_modules sel) (sel_syllabus sel)
          (sel_pages sel) (sel_submissions sel ++ [cb_id cb])
    end
  else sel.

Definition same_category (a b : category) : bool :=
  match a, b with
  | Modules, Modules | Syllabus, Syllabus
  | Pages, Pages | Submissions, Submissions => true
  | _, _ => false
  end.

(** The checkbox is checked and belongs to the category [k]. *)
Definition wanted (k : category) (cb : checkbox) : bool :=
  cb_checked cb && same_category (cb_type cb) k.

Definition gather (cbs : list checkbox) : selections :=
  fold_left push_selection cbs (Selections [] [] [] []).

(** [loadBtn.onclick] up to its request: the guard on the trimmed inputs. *)
Inductive load_action : Type :=
| LoadAlert (message : string)
| LoadRequest (canvasURL apiToken : string).

Definition loadBtn_onclick (url_input token_input : string) : load_action :=
  let canvasURL := Js.trim url_input in
  let apiToken := Js.trim token_input in
  if negb (Js.truthy (Some canvasURL)) || negb (Js.truthy (Some apiToken))
  then LoadAlert "Please fill in both Canvas URL and API token."
  else LoadRequest canvasURL apiToken.

(** The insertion of one string into a JavaScript [Set]. *)
Definition set_add_string (seen : list string) (x : string) : list string :=
  if bool_decide (x ∈ seen) then seen else seen ++ [x].

Section CatalogView.

(** [new Date(s).getTime()], undefined for an invalid date. *)
Variable parse_date : string -> option Z.

(** The test of the [current] filter of [renderCourses]. *)
Definition is_current (now : Z) (c : course) : bool :=
  if negb (Js.truthy (start_at (course_term c)))
     || negb (Js.truthy (end_at (course_term c)))
  then false
  else
    match parse_date (Js.to_string (start_at (course_term c))),
          parse_date (Js.to_string (end_at (course_term c))) with
    | Some start, Some finish => (start <=? now)%Z && (now <=? finish)%Z
    | _, _ => false
    end.

(** [chosen.includes(c.term.name)] *)
Definition in_chosen (chosen : list string) (c : course) : bool :=
  match term_name (course_term c) with
  | Some n => bool_decide (n ∈ chosen)
  | None => false
  end.

(** The courses that [renderCourses] shows, for the value of the checked
    filter radio button. *)
Definition shown (filter_value : string) (now : Z) (chosen : list string)
    (allCourses : list course) : list course :=
  if String.eqb filter_value "current"
  then List.filter (is_current now) allCourses
  else if String.eqb filter_value "specific"
  then List.filter (in_chosen chosen) allCourses
  else allCourses.

(** Text that the HTML parser reads as text: it holds no [<], the one
    character that opens a tag. *)
Definition plain_text (s : string) : bool := negb (has_char "<" s).

(** The checkboxes of the row of a course. The row is parsed from markup
    ([tr.innerHTML]) into which the name, the course code and the term
    name are put unescaped. When none of them holds a [<], the row has
    the four checkboxes of the template, unchecked, with the decimal
    numeral of the course id as [data-id]. Otherwise the checkboxes of the
    row are those of whatever markup these texts spell out, which is not
    modelled: [None]. *)
Definition row (c : course) : option (list checkbox) :=
  if plain_text (name c) && plain_text (course_code c)
     && plain_text (Js.to_string (term_name (course_term c)))
  then Some [ Checkbox Modules (pretty (id c)) false;
              Checkbox Syllabus (pretty (id c)) false;
              Checkbox Pages (pretty (id c)) false;
              Checkbox Submissions (pretty (id c)) false ]
  else None.

(** [for (const c of filtered)]: the checkboxes of the table body, row
    after row. *)
Fixpoint rows (filtered : list course) : option (list checkbox) :=
  match filtered with
  | [] => Some []
  | c :: rest =>
      match row c, rows rest with
      | Some boxes, Some later => Some (boxes ++ later)
      | _, _ => None
      end
  end.

Definition renderCourses (filter_value : string) (now : Z)
    (chosen : list string) (allCourses : list course)
    : option (list checkbox) :=
  rows (shown filter_value now chosen allCourses).

End CatalogView.

(** The same checkboxes, some of them checked by the user. *)
Definition toggled (rendered now_ : list checkbox) : Prop :=
  Forall2 (fun a b => cb_type a = cb_type b /\ cb_id a = cb_id b) rendered now_.

(** A string of ASCII characters. *)
Fixpoint ascii_only (s : string) : bool :=
  match s with
  | EmptyString => true
  | String a t => (nat_of_ascii a <? 128)%nat && ascii_only t
  end.

(** ** Upstream calls that raise, and channels that get closed *)


(** A client event to come closes the events connection of job [i], and
    no client event after it opens one for that job id again. *)
Definition closing (i : string) (w : world) : Prop :=
  exists s1 b1 b2 s2,
    schedule w = s1 ++ (b1 ++ EvClose i :: b2) :: s2
    /\ Forall (fun e => opens i e = false) b2 /\ never_opens i s2.

(** The options of the term selector built by [loadBtn.onclick]: the
    distinct non-empty term names, sorted as [Array.prototype.sort] does
    without a comparator. *)
Definition term_options (allCourses : list course) : list string :=
  merge_sort String.le
    (fold_left set_add_string
       (List.filter (fun n => Js.truthy (Some n))
          (omap (fun c => term_name (course_term c)) allCourses))
       []).

(** ** More sample data *)

Module Broken.

(** The first page of enrollments is served, the second answers 503. *)
Definition enrollments_at (url : string) : reply (response (list enrollment)) :=
  if String.eqb url (at_url Sample.first_page)
  then Return (response_of Sample.first_page)
  else Return (Response 503 (Throw (UpstreamFailure "no JSON body")) None).

End Broken.

Module Loop.

(** The second page of enrollments names the first as its next page. *)
Definition second_page : served :=
  {| at_url := Sample.second_url;
     code := 200;
     records := [Enrollment 1];
     links := Some [LinkEntry (enrollUrl Sample.CANVAS_URL) "next"] |}.

Definition enrollments_at (url : string) : reply (response (list enrollment)) :=
  if String.eqb url (at_url Sample.first_page)
  then Return (response_of Sample.first_page)
  else Return (response_of second_page).

End Loop.

Module Flaky.

(** Course 201 has two assignments. The submissions lookup of the first
    answers with an error object, which has no first submission; the
    first submission of the second has one attachment, and no byte stream
    can be requested. *)
Definition cv : canvas :=
  {| modules_of := fun _ => Return [];
     file_of := fun _ => Throw (UpstreamFailure "file metadata");
     bytes_of := fun _ => Throw (UpstreamFailure "byte stream");
     syllabus_of := fun _ => Return [];
     pages_of := fun _ => Return [];
     page_attachments_of := fun _ _ => Return [];
     assignments_of := fun c =>
       if String.eqb c "201"
       then Return [Assignment 1 "Essay"; Assignment 2 "Quiz"]
       else Return [];
     submissions_of := fun _ a =>
       if (a =? 2)%Z
       then Return [Submission
                      (Some [Attachment "https://files.test/quiz" "quiz.pdf"])]
       else Return [] |}.

(** The client aborts the download at the third suspension point of the
    handler; the close of its events connection reaches the server two
    suspension points later. *)
Definition closed_later : world :=
  World {[ "job" := 1 ]} [] [[]; []; [EvAbort]; []; [EvClose "job"]].

(** The events connection is closed at the first suspension point. *)
Definition closed_early : world :=
  World {[ "job" := 1 ]} [] [[EvClose "job"]].

End Flaky.

Module View.

(** The two dates that the page can parse, as days. *)
Definition parse_date (s : string) : option Z :=
  if String.eqb s "2026-01-05" then Some 20458%Z
  else if String.eqb s "2026-03-20" then Some 20532%Z
  else None.

Definition winter : term :=
  Term (Some "Winter 2026") (Some "2026-01-05") (Some "2026-03-20").
Definition algebra : course := Course 2 "Algebra" "MA 1" winter true.
Definition logic : course := Course 3 "Logic" "PH 2" no_term false.

(** Course 101 has a module with nothing to export, holding a page, a
    file without content id and a file with content id zero; the syllabus
    page of every course has two attachments of the same file name. *)
Definition cv : canvas :=
  {| modules_of := fun c =>
       if String.eqb c "101"
       then Return [Module_ "Readings"
                      [Item "Page" (Some 5%Z); Item "File" None;
                       Item "File" (Some 0%Z)]]
       else Return [];
     file_of := fun _ => Throw (UpstreamFailure "file metadata");
     bytes_of := fun _ => Return "%PDF";
     syllabus_of := fun _ =>
       Return [Attachment "https://files.test/s1" "syllabus.pdf";
               Attachment "https://files.test/s2" "syllabus.pdf"];
     pages_of := fun _ => Return [];
     page_attachments_of := fun _ _ => Return [];
     assignments_of := fun _ => Return [];
     submissions_of := fun _ _ => Return [] |}.

End View.

(** * Properties *)

(** ** Strings *)

Section StringFacts.

#[local] Arguments String.append !_ _ : simpl nomatch.

Lemma append_nil (t : string) : EmptyString +:+ t = t.
Proof. reflexivity. Qed.

Lemma append_cons a (s t : string) : String a s +:+ t = String a (s +:+ t).
Proof. reflexivity. Qed.

Lemma append_assoc (s t u : string) : (s +:+ t) +:+ u = s +:+ (t +:+ u).
Proof.
  induction s as [|a s IH]; [reflexivity|].
  rewrite !append_cons. by f_equal.
Qed.

Lemma has_char_app c (s t : string) :
  has_char c (s +:+ t) = has_char c s || has_char c t.
Proof.
  induction s as [|a s IH]; [reflexivity|].
  rewrite append_cons. simpl. rewrite IH. by destruct (Ascii.eqb a c).
Qed.

Lemma split_not_nil c s : Js.split c s ≠ [].
Proof.
  destruct s as [|a s]; simpl; [discriminate|].
  destruct (Ascii.eqb a c); [discriminate|].
  destruct (Js.split c s); discriminate.
Qed.

Lemma split_clean c s : has_char c s = false → Js.split c s = [s].
Proof.
  induction s as [|a s IH]; simpl; [reflexivity|].
  destruct (Ascii.eqb a c); simpl; [discriminate|].
  intros H. by rewrite (IH H).
Qed.

Lemma split_app c s t :
  has_char c s = false →
  Js.split c (s +:+ String c t) = s :: Js.split c t.
Proof.
  induction s as [|a s IH].
  - intros _. rewrite append_nil. simpl. by rewrite Ascii.eqb_refl.
  - rewrite append_cons. simpl.
    destruct (Ascii.eqb a c); simpl; [discriminate|].
    intros H. by rewrite (IH H).
Qed.

Lemma trimEnd_closed s a :
  Js.is_space a = false →
  Js.trimEnd (s +:+ String a EmptyString) = s +:+ String a EmptyString.
Proof.
  intros Ha. induction s as [|b s IH].
  - rewrite append_nil. simpl. by rewrite Ha.
  - rewrite append_cons. simpl. rewrite IH. by destruct s.
Qed.

Lemma trim_closed a s b :
  Js.is_space a = false → Js.is_space b = false →
  Js.trim (String a (s +:+ String b EmptyString))
  = String a (s +:+ String b EmptyString).
Proof.
  intros Ha Hb. unfold Js.trim. simpl. rewrite Ha.
  apply (trimEnd_closed (String a s) b Hb).
Qed.

Lemma substring_prefix (s t : string) :
  substring 0 (String.length s) (s +:+ t) = s.
Proof.
  induction s as [|a s IH]; [by destruct t|].
  rewrite append_cons. simpl. by f_equal.
Qed.

Lemma string_length_app (s t : string) :
  String.length (s +:+ t) = String.length s + String.length t.
Proof.
  induction s as [|a s IH]; [reflexivity|].
  rewrite append_cons. simpl. by f_equal.
Qed.

Lemma slice_brackets (u : string) :
  Js.slice 1 (-1) ("<" +:+ u +:+ ">") = u.
Proof.
  change ("<" +:+ u +:+ ">") with (String "<" (u +:+ ">")).
  assert (L : String.length (String "<" (u +:+ ">")) = String.length u + 2).
  { simpl. rewrite string_length_app. simpl. lia. }
  unfold Js.slice. rewrite L. cbv zeta.
  assert (H1 : (1 <? 0)%Z = false) by reflexivity.
  assert (H2 : (-1 <? 0)%Z = true) by reflexivity.
  rewrite H1, H2.
  replace (Z.to_nat (1 `min` Z.of_nat (String.length u + 2))) with 1 by lia.
  replace (Z.to_nat ((Z.of_nat (String.length u + 2) + -1) `max` 0
                     - 1 `min` Z.of_nat (String.length u + 2)))
    with (String.length u) by lia.
  simpl. apply substring_prefix.
Qed.

(** A string without double quote, followed by one, holds the pattern of
    [rel="next"] nowhere. *)
Lemma app_quote_unique (w x y : string) :
  has_char Js.dquote w = false → has_char Js.dquote x = false →
  w +:+ String Js.dquote EmptyString = x +:+ String Js.dquote y →
  w = x ∧ y = EmptyString.
Proof.
  revert x. induction w as [|a w IH]; intros x Hw Hx E.
  - destruct x as [|b x]; simpl in E.
    + by inversion E.
    + inversion E; subst b. simpl in Hx. discriminate.
  - destruct x as [|b x]; simpl in E.
    + inversion E; subst a. simpl in Hw. discriminate.
    + inversion E; subst b. simpl in Hw, Hx.
      apply orb_false_iff in Hw as [_ Hw]. apply orb_false_iff in Hx as [_ Hx].
      destruct (IH x Hw Hx H1) as [-> ->]. done.
Qed.

Lemma prefix_cons a b (p s : string) :
  String.prefix (String a p) (String b s)
  = if ascii_dec a b then String.prefix p s else false.
Proof. reflexivity. Qed.

Lemma prefix_app (p s : string) :
  String.prefix p s = true → ∃ t, s = p +:+ t.
Proof.
  revert s. induction p as [|a p IH]; intros s H.
  - by exists s.
  - destruct s as [|b s]; [discriminate H|].
    rewrite prefix_cons in H.
    destruct (ascii_dec a b) as [->|]; [|discriminate H].
    destruct (IH s H) as [t ->]. by exists t.
Qed.

Lemma test_cons pat a (t : string) :
  Js.test pat (String a t) = String.prefix pat (String a t) || Js.test pat t.
Proof. reflexivity. Qed.

Lemma test_tail_clean (w : string) :
  has_char Js.dquote w = false →
  Js.test rel_next (w +:+ String Js.dquote EmptyString) = false.
Proof.
  induction w as [|a w IH]; intros Hw.
  - reflexivity.
  - simpl in Hw. apply orb_false_iff in Hw as [Ha Hw].
    change (Js.test rel_next (String a w +:+ String Js.dquote EmptyString))
      with (String.prefix rel_next (String a (w +:+ String Js.dquote EmptyString))
            || Js.test rel_next (w +:+ String Js.dquote EmptyString)).
    rewrite (IH Hw), orb_false_r.
    destruct (String.prefix rel_next (String a (w +:+ String Js.dquote EmptyString))) eqn:E;
      [|reflexivity].
    apply prefix_app in E as [t E]. exfalso.
    change (String a w +:+ String Js.dquote EmptyString =
            "rel=" +:+ String Js.dquote ("next" +:+ String Js.dquote t)) in E.
    apply (app_quote_unique (String a w) "rel=" ("next" +:+ String Js.dquote t))
      in E as [_ E]; [discriminate| |reflexivity].
    simpl. by rewrite Ha, Hw.
Qed.

Lemma test_rel (r : string) :
  has_char Js.dquote r = false →
  Js.test rel_next
    (" rel=" +:+ String Js.dquote (r +:+ String Js.dquote EmptyString))
  = String.eqb r "next".
Proof.
  intros Hr.
  set (tail := r +:+ String Js.dquote EmptyString).
  assert (Htail : Js.test rel_next tail = false) by (by apply test_tail_clean).
  assert (Hq : Js.test rel_next (String Js.dquote tail) = false).
  { change (String Js.dquote tail) with (String Js.dquote EmptyString +:+ tail).
    simpl. exact Htail. }
  assert (Hgo : Js.test rel_next (" rel=" +:+ String Js.dquote tail)
                = String.prefix ("next" +:+ String Js.dquote EmptyString) tail).
  { change (" rel=" +:+ String Js.dquote tail)
      with (String " " (String "r" (String "e" (String "l" (String "="
              (String Js.dquote tail)))))).
    do 5 rewrite test_cons. rewrite Hq.
    generalize tail. intros t.
    change (String.prefix rel_next (String " " (String "r" (String "e"
              (String "l" (String "=" (String Js.dquote t))))))) with false.
    change (String.prefix rel_next (String "e" (String "l" (String "="
              (String Js.dquote t))))) with false.
    change (String.prefix rel_next (String "l" (String "="
              (String Js.dquote t)))) with false.
    change (String.prefix rel_next (String "=" (String Js.dquote t))) with false.
    change (String.prefix rel_next (String "r" (String "e" (String "l"
              (String "=" (String Js.dquote t))))))
      with (String.prefix ("next" +:+ String Js.dquote EmptyString) t).
    by rewrite !orb_false_r. }
  rewrite Hgo. unfold tail.
  destruct (String.eqb_spec r "next") as [->|Hne]; [reflexivity|].
  destruct (String.prefix _ _) eqn:E; [|reflexivity].
  apply prefix_app in E as [t E]. exfalso.
  change (r +:+ String Js.dquote EmptyString = "next" +:+ String Js.dquote t) in E.
  apply app_quote_unique in E as [E _]; [done|done|reflexivity].
Qed.

End StringFacts.

(** ** The link-header parser on well-formed headers *)

Section LinkParser.

#[local] Arguments String.append !_ _ : simpl nomatch.

Lemma entry_ok_fields e :
  entry_ok e = true →
  target e ≠ EmptyString
  ∧ has_char "," (target e) = false ∧ has_char ";" (target e) = false
  ∧ has_char "," (rel e) = false ∧ has_char ";" (rel e) = false
  ∧ has_char Js.dquote (rel e) = false.
Proof.
  unfold entry_ok. rewrite !andb_true_iff, !negb_true_iff.
  intros [[[[[Ht H1] H2] H3] H4] H5]. repeat split; try done.
  intros E. rewrite E in Ht. discriminate Ht.
Qed.

Lemma render_entry_comma e :
  entry_ok e = true → has_char "," (render_entry e) = false.
Proof.
  intros (_ & H1 & _ & H3 & _)%entry_ok_fields. unfold render_entry.
  rewrite has_char_app. simpl. rewrite has_char_app, H1. simpl.
  rewrite has_char_app, H3. reflexivity.
Qed.

Lemma split_render es :
  forallb entry_ok es = true → es ≠ [] →
  Js.split "," (render_link es) = render_entry <$> es.
Proof.
  induction es as [|e es IH]; [done|]. intros H _.
  apply andb_true_iff in H as [He Hes].
  destruct es as [|e' es].
  - simpl. by rewrite split_clean by by apply render_entry_comma.
  - change (render_link (e :: e' :: es))
      with (render_entry e +:+ String "," (render_link (e' :: es))).
    rewrite split_app by by apply render_entry_comma.
    rewrite IH by done. reflexivity.
Qed.

Lemma render_entry_pieces e :
  entry_ok e = true →
  Js.split ";" (Js.trim (render_entry e))
  = [ "<" +:+ target e +:+ ">";
      " rel=" +:+ String Js.dquote (rel e +:+ String Js.dquote EmptyString) ].
Proof.
  intros (_ & _ & H2 & _ & H4 & _)%entry_ok_fields.
  assert (Hshape : render_entry e
    = String "<" ((target e +:+ ">; rel=" +:+ String Js.dquote (rel e))
                    +:+ String Js.dquote EmptyString)).
  { unfold render_entry. rewrite append_cons, append_nil. f_equal.
    rewrite !append_assoc. f_equal. }
  rewrite Hshape, trim_closed by reflexivity. rewrite <- Hshape.
  unfold render_entry.
  replace ("<" +:+ target e +:+ ">; rel=" +:+
           String Js.dquote (rel e +:+ String Js.dquote EmptyString))
    with (("<" +:+ target e +:+ ">") +:+
          String ";" (" rel=" +:+ String Js.dquote (rel e +:+ String Js.dquote EmptyString))).
  2:{ rewrite !append_cons, !append_nil, !append_assoc. reflexivity. }
  rewrite split_app.
  2:{ rewrite append_cons, append_nil. simpl. rewrite has_char_app, H2. reflexivity. }
  rewrite split_clean; [reflexivity|].
  simpl. rewrite has_char_app, H4. reflexivity.
Qed.

Lemma scan_entry e rest :
  entry_ok e = true →
  scan_parts (render_entry e :: rest)
  = if String.eqb (rel e) "next" then Some (target e) else scan_parts rest.
Proof.
  intros He. pose proof (entry_ok_fields e He) as (_ & _ & _ & _ & _ & Hq).
  cbn [scan_parts]. rewrite render_entry_pieces by done.
  cbn [hd lookup list_lookup Js.to_string].
  rewrite test_rel by done.
  destruct (String.eqb (rel e) "next"); [|reflexivity].
  f_equal.
  change ("<" +:+ target e +:+ ">")
    with (String "<" (target e +:+ String ">" EmptyString)).
  rewrite trim_closed by reflexivity. apply slice_brackets.
Qed.

Lemma scan_render es :
  forallb entry_ok es = true →
  scan_parts (render_entry <$> es) = next_of es.
Proof.
  induction es as [|e es IH]; [reflexivity|]. intros H.
  apply andb_true_iff in H as [He Hes].
  rewrite fmap_cons, scan_entry by done. simpl.
  destruct (String.eqb (rel e) "next"); [reflexivity | by apply IH].
Qed.

Lemma getNextPage_render es :
  forallb entry_ok es = true →
  getNextPage (Some (render_link es)) = next_of es.
Proof.
  intros H. destruct es as [|e es]; [reflexivity|].
  unfold getNextPage.
  assert (Ht : Js.truthy (Some (render_link (e :: es))) = true).
  { destruct es; reflexivity. }
  rewrite Ht. cbn [negb Js.to_string].
  rewrite split_render by done. by apply scan_render.
Qed.

Lemma getNextPage_header (ls : option (list link_entry)) :
  forallb entry_ok (default [] ls) = true →
  getNextPage (render_link <$> ls) = next_of (default [] ls).
Proof.
  destruct ls as [es|]; [apply getNextPage_render | reflexivity].
Qed.

End LinkParser.

(** ** Pagination *)

Section Paginator.

Variable enrollments_at : string -> reply (response (list enrollment)).

Lemma next_of_truthy es u :
  forallb entry_ok es = true → next_of es = Some u → Js.truthy (Some u) = true.
Proof.
  induction es as [|e es IH]; [done|]. simpl.
  intros [He Hes]%andb_true_iff.
  destruct (String.eqb (rel e) "next"); [|by apply IH].
  intros [= <-]. unfold entry_ok in He.
  rewrite !andb_true_iff in He. tauto.
Qed.

Lemma enrollment_pages_chain pages :
  ∀ fuel url asked acc,
    (length pages ≤ fuel)%nat →
    Js.truthy (Some url) = true →
    chain enrollments_at url pages →
    enrollment_pages enrollments_at fuel (Some url) asked acc
    = Some (Return (acc ++ concat (records <$> pages)),
            asked ++ (at_url <$> pages)).
Proof.
  induction pages as [|p rest IH]; intros fuel url asked acc Hfuel Hurl Hc;
    [destruct Hc|].
  destruct Hc as (-> & Hat & Hok & Hes & Hnext).
  destruct fuel as [|fuel]; [simpl in Hfuel; lia|].
  cbn [enrollment_pages]. rewrite Hurl. cbn [negb Js.to_string].
  rewrite Hat, Hok. cbn [negb json link response_of].
  rewrite getNextPage_header by done.
  destruct rest as [|q rest].
  - rewrite Hnext. destruct fuel; simpl; by rewrite app_nil_r.
  - destruct Hnext as [Hq Hrest]. rewrite Hq.
    rewrite (IH fuel (at_url q)); [|simpl in *; lia|by eapply next_of_truthy|done].
    rewrite fmap_cons, concat_cons. cbn [fmap list_fmap].
    by rewrite <- !app_assoc.
Qed.

Lemma length_concat_sum {A} (ls : list (list A)) :
  length (concat ls) = sum_list (length <$> ls).
Proof.
  induction ls as [|l ls IH]; [reflexivity|].
  rewrite concat_cons, length_app, IH. reflexivity.
Qed.

End Paginator.

(** C6. On link headers made of well-formed [<url>; rel="name"] entries
    joined by commas, [getNextPage] yields the URL, without its angle
    brackets, of the first entry whose relation is [next], and [null] when
    there is none. Over pages chained by such headers the pagination loop
    requests each page in turn, stops at the page without a [next] entry,
    and returns the records of all pages in page order, so that their number
    is the sum of the numbers per page; any fuel of at least the number of
    pages suffices. *)
Theorem paginator_follows_next_links
    (enrollments_at : string -> reply (response (list enrollment)))
    (url : string) (pages : list served) (fuel : nat) :
  Js.truthy (Some url) = true →
  chain enrollments_at url pages →
  (length pages ≤ fuel)%nat →
  Forall (fun p => getNextPage (link (response_of p))
                   = next_of (default [] (links p))) pages
  ∧ enrollment_pages enrollments_at fuel (Some url) [] []
    = Some (Return (concat (records <$> pages)), at_url <$> pages)
  ∧ length (concat (records <$> pages))
    = sum_list (length <$> (records <$> pages)).
Proof.
  intros Hurl Hc Hfuel. split; [|split].
  - clear Hurl Hfuel. revert url Hc.
    induction pages as [|p rest IH]; intros url Hc; [constructor|].
    destruct Hc as (_ & _ & _ & Hes & Hnext). constructor.
    + by apply getNextPage_header.
    + destruct rest as [|q rest]; [constructor|].
      destruct Hnext as [_ Hrest]. by apply (IH (at_url q)).
  - by rewrite (enrollment_pages_chain enrollments_at pages fuel url [] []).
  - apply length_concat_sum.
Qed.

(** ** Catalog build *)

Lemma set_add_elem seen x i : i ∈ set_add seen x ↔ i ∈ seen ∨ i = x.
Proof.
  unfold set_add. case_bool_decide as Hx.
  - split; [by left|]. intros [?| ->]; done.
  - rewrite elem_of_app, list_elem_of_singleton. done.
Qed.

Lemma set_add_NoDup seen x : NoDup seen → NoDup (set_add seen x).
Proof.
  intros Hnd. unfold set_add. case_bool_decide as Hx; [done|].
  apply NoDup_app. split_and!; [done| |apply NoDup_singleton].
  intros i Hi ->%list_elem_of_singleton. done.
Qed.

Lemma fold_set_add_elem l seen i :
  i ∈ fold_left set_add l seen ↔ i ∈ seen ∨ i ∈ l.
Proof.
  revert seen. induction l as [|x l IH]; intros seen; simpl.
  - rewrite elem_of_nil. tauto.
  - rewrite IH, set_add_elem, elem_of_cons. tauto.
Qed.

Lemma fold_set_add_NoDup l seen :
  NoDup seen → NoDup (fold_left set_add l seen).
Proof.
  revert seen. induction l as [|x l IH]; intros seen Hnd; simpl; [done|].
  by apply IH, set_add_NoDup.
Qed.

Section CatalogFacts.

Variable course_at : Z -> reply (response course_json).

Lemma metadata_step_fetched st i :
  fetched (metadata_step course_at st i) = fetched st ++ [i].
Proof.
  unfold metadata_step.
  destruct (course_at i) as [cr|e]; [|reflexivity].
  destruct (ok cr); simpl.
  - destruct (json cr); reflexivity.
  - destruct (_ || _); reflexivity.
Qed.

Lemma metadata_step_courses st i :
  courses (metadata_step course_at st i)
  = courses st ++ courses (metadata_step course_at (Catalog [] [] []) i).
Proof.
  unfold metadata_step.
  destruct (course_at i) as [cr|e]; simpl; [|by rewrite app_nil_r].
  destruct (ok cr); simpl.
  - destruct (json cr); simpl; [done | by rewrite app_nil_r].
  - destruct (_ || _); simpl; by rewrite app_nil_r.
Qed.

Lemma metadata_step_warnings st i :
  warnings (metadata_step course_at st i)
  = warnings st ++ warnings (metadata_step course_at (Catalog [] [] []) i).
Proof.
  unfold metadata_step.
  destruct (course_at i) as [cr|e]; simpl; [|done].
  destruct (ok cr); simpl.
  - destruct (json cr); simpl; [by rewrite app_nil_r | done].
  - destruct (_ || _); simpl; [by rewrite app_nil_r | done].
Qed.

Lemma fold_metadata ids st :
  let st' := fold_left (metadata_step course_at) ids st in
  fetched st' = fetched st ++ ids
  ∧ courses st' = courses st ++ courses (fetch_metadata course_at ids)
  ∧ warnings st' = warnings st ++ warnings (fetch_metadata course_at ids).
Proof.
  revert st. induction ids as [|i ids IH]; intros st; simpl.
  - by rewrite !app_nil_r.
  - destruct (IH (metadata_step course_at st i)) as (-> & -> & ->).
    unfold fetch_metadata. simpl.
    destruct (IH (metadata_step course_at (Catalog [] [] []) i)) as (_ & -> & ->).
    rewrite metadata_step_fetched, (metadata_step_courses st),
      (metadata_step_warnings st), <- !app_assoc. done.
Qed.

Lemma fetch_metadata_app ids ids' :
  let st := fetch_metadata course_at (ids ++ ids') in
  fetched st = ids ++ ids'
  ∧ courses st = courses (fetch_metadata course_at ids)
                 ++ courses (fetch_metadata course_at ids')
  ∧ warnings st = warnings (fetch_metadata course_at ids)
                  ++ warnings (fetch_metadata course_at ids').
Proof.
  unfold fetch_metadata at 1. rewrite fold_left_app.
  fold (fetch_metadata course_at ids).
  destruct (fold_metadata ids' (fetch_metadata course_at ids)) as (H1 & H2 & H3).
  destruct (fold_metadata ids (Catalog [] [] [])) as (F1 & _ & _).
  cbv zeta. rewrite H1, H2, H3. unfold fetch_metadata at 1. by rewrite F1.
Qed.

End CatalogFacts.

(** C7. The catalog build removes the duplicates among the course ids of
    the enrollment records it has listed before it fetches any metadata:
    the metadata requests of [fetchAllCourses] are exactly the unique ids
    of those records, each course id of the list requested once, none
    twice, in the order of first occurrence; the enrollments of courses 1,
    2 and 1 cause the two requests for 1 and 2. *)
Theorem one_metadata_fetch_per_course
    (CANVAS_URL : string)
    (enrollments_at : string → reply (response (list enrollment)))
    (course_at : Z → reply (response course_json))
    (fuel : nat) (enrollments : list enrollment) (asked : list string) :
  enrollment_pages enrollments_at fuel (Some (enrollUrl CANVAS_URL)) [] []
  = Some (Return enrollments, asked) →
  ∃ st,
    fetchAllCourses CANVAS_URL enrollments_at course_at fuel = Some (Return st)
    ∧ fetched st = uniqueIds enrollments
    ∧ NoDup (fetched st)
    ∧ (∀ i, i ∈ fetched st ↔ i ∈ course_id <$> enrollments)
    ∧ (length (fetched st) ≤ length enrollments)%nat
    ∧ (enrollments = [Enrollment 1; Enrollment 2; Enrollment 1] →
       fetched st = [1%Z; 2%Z]).
Proof.
  intros Hpages.
  exists (fetch_metadata course_at (uniqueIds enrollments)).
  assert (F : ∀ ids, fetched (fetch_metadata course_at ids) = ids).
  { intros ids. destruct (fold_metadata course_at ids (Catalog [] [] [])) as (E & _).
    exact E. }
  assert (Hnd : NoDup (uniqueIds enrollments))
    by apply fold_set_add_NoDup, NoDup_nil_2.
  assert (Hin : ∀ i, i ∈ uniqueIds enrollments ↔ i ∈ course_id <$> enrollments).
  { intros i. unfold uniqueIds. rewrite fold_set_add_elem, elem_of_nil.
    change (map course_id enrollments) with (course_id <$> enrollments). tauto. }
  rewrite F. split_and!.
  - unfold fetchAllCourses. by rewrite Hpages.
  - reflexivity.
  - exact Hnd.
  - exact Hin.
  - rewrite <- (length_fmap course_id enrollments).
    apply submseteq_length, NoDup_submseteq; [exact Hnd|].
    intros i. by rewrite Hin.
  - by intros ->.
Qed.

(** ** The handler monad and its scripts *)

Lemma bind_run {A B} (m : M A) (f : A → M B) w :
  (m ≫= f) w
  = match m w with
    | (Return a, w') => f a w'
    | (Throw e, w') => (Throw e, w')
    end.
Proof. reflexivity. Qed.

Lemma run_app acts acts' w : run (acts ++ acts') w = run acts' (run acts w).
Proof. apply fold_left_app. Qed.

Lemma run_cons a acts w : run (a :: acts) w = run acts (perform a w).
Proof. reflexivity. Qed.

Section Scripted.

Context (P : obs → Prop).

Lemma scripted_ret {A} (a : A) : scripted P (mret a).
Proof. exists [], (Return a). split; [constructor | done]. Qed.

Lemma scripted_bind {A B} (m : M A) (f : A → M B) :
  scripted P m → (∀ a, scripted P (f a)) → scripted P (m ≫= f).
Proof.
  intros (os & r & Hos & Hm) Hf. destruct r as [a|e].
  - destruct (Hf a) as (os' & r' & Hos' & Hfa).
    exists (os ++ os'), r'. split; [by apply Forall_app|].
    intros w. rewrite bind_run, Hm, Hfa, fmap_app, run_app. done.
  - exists os, (Throw e). split; [done|].
    intros w. by rewrite bind_run, Hm.
Qed.

Lemma scripted_fetch {A} r (res : reply A) :
  P (Fetch r) → scripted P (fetch r res).
Proof.
  intros Hr. exists [Fetch r], res. split; [by repeat constructor | done].
Qed.

Lemma scripted_append content entry_name :
  P (Append entry_name content) → scripted P (append content entry_name).
Proof.
  intros Hp. exists [Append entry_name content], (Return tt).
  split; [by repeat constructor | done].
Qed.

Lemma scripted_for_of {A} (l : list A) (body : A → M unit) :
  (∀ x, x ∈ l → scripted P (body x)) → scripted P (for_of l body).
Proof.
  induction l as [|x l IH]; intros Hbody; simpl.
  - apply scripted_ret.
  - apply scripted_bind; [apply Hbody; left|].
    intros _. apply IH. intros y Hy. apply Hbody. by right.
Qed.

End Scripted.

Lemma scripted_mono {A} (P Q : obs → Prop) (m : M A) :
  (∀ o, P o → Q o) → scripted P m → scripted Q m.
Proof.
  intros HPQ (os & r & Hos & Hm). exists os, r. split; [|done].
  eapply Forall_impl; eauto.
Qed.

Lemma scripted_bind_fetch {A B} (P : obs → Prop) r (res : reply A)
    (f : A → M B) :
  P (Fetch r) → (∀ a, res = Return a → scripted P (f a)) →
  scripted P (fetch r res ≫= f).
Proof.
  intros Hr Hf. destruct res as [a|e].
  - destruct (Hf a eq_refl) as (os & r' & Hos & Hfa).
    exists (Fetch r :: os), r'. split; [by constructor|].
    intros w. rewrite bind_run. cbn [fetch]. rewrite Hfa. done.
  - exists [Fetch r], (Throw e). split; [by repeat constructor | done].
Qed.

(** ** The four units as scripts *)

Section Units.

Variable cv : canvas.

Lemma modules_unit_scripted c : scripted (modules_obs cv c) (modules_unit cv c).
Proof.
  unfold modules_unit. apply scripted_bind_fetch; [done|]. intros ms Hms.
  apply scripted_for_of. intros m Hm.
  apply scripted_for_of. intros it Hit.
  destruct (String.eqb (item_type it) "File" && truthy_id (item_content_id it))
    eqn:E; [|apply scripted_ret].
  apply andb_true_iff in E as [_ E].
  destruct (item_content_id it) as [i|] eqn:Ei; [|discriminate E].
  cbn [default]. apply scripted_bind_fetch; [done|]. intros meta Hmeta.
  apply scripted_bind_fetch; [done|]. intros st _.
  apply scripted_append. exists ms, m, meta. split_and!; try done.
  by exists it, i.
Qed.

Lemma syllabus_unit_scripted c : scripted unit_obs (syllabus_unit cv c).
Proof.
  unfold syllabus_unit. apply scripted_bind_fetch; [done|]. intros atts _.
  apply scripted_for_of. intros a _.
  apply scripted_bind_fetch; [done|]. intros st _.
  by apply scripted_append.
Qed.

Lemma pages_unit_scripted c : scripted (pages_obs cv c) (pages_unit cv c).
Proof.
  unfold pages_unit. apply scripted_bind_fetch; [done|]. intros ps Hps.
  apply scripted_for_of. intros p Hp.
  apply scripted_bind_fetch; [done|]. intros atts Hatts.
  apply scripted_for_of. intros a Ha.
  apply scripted_bind_fetch; [done|]. intros st _.
  apply scripted_append. by exists ps, p, atts, a.
Qed.

Lemma submissions_unit_scripted c : scripted unit_obs (submissions_unit cv c).
Proof.
  unfold submissions_unit. apply scripted_bind_fetch; [done|]. intros asgs _.
  apply scripted_for_of. intros a _.
  apply scripted_bind_fetch; [done|]. intros subs _.
  destruct (head subs ≫= attachments) as [atts|]; [|apply scripted_ret].
  apply scripted_for_of. intros att _.
  apply scripted_bind_fetch; [done|]. intros st _.
  by apply scripted_append.
Qed.

Lemma unit_body_scripted u : scripted unit_obs (unit_body cv u).
Proof.
  destruct u as [[] c]; unfold unit_body; cbn [fst snd].
  - eapply scripted_mono; [|apply modules_unit_scripted]. by intros [].
  - apply syllabus_unit_scripted.
  - eapply scripted_mono; [|apply pages_unit_scripted]. by intros [].
  - apply submissions_unit_scripted.
Qed.

End Units.

(** ** The handler as the run of a script *)


Lemma reports_app a b : reports (a ++ b) = reports a ++ reports b.
Proof. apply omap_app. Qed.

Lemma works_app a b : works (a ++ b) = works a ++ works b.
Proof. apply omap_app. Qed.

Lemma reports_work os : reports (Work <$> os) = [].
Proof. induction os as [|o os IH]; [done|]. by rewrite fmap_cons. Qed.

Lemma works_work os : works (Work <$> os) = os.
Proof.
  induction os as [|o os IH]; [done|].
  rewrite fmap_cons. unfold works in *. cbn. by f_equal.
Qed.

Lemma reports_progress i d t m acts :
  reports (Progress i d t m :: acts) = d :: reports acts.
Proof. reflexivity. Qed.

Lemma works_progress i d t m acts :
  works (Progress i d t m :: acts) = works acts.
Proof. reflexivity. Qed.

Lemma unit_obs_handler o : unit_obs o → handler_obs o = true.
Proof. by destruct o. Qed.

Section Script.

Variable cv : canvas.

Lemma deliver_idle w : schedule w = [] → deliver w = w.
Proof. unfold deliver. by intros ->. Qed.

Lemma run_work_idle os m t :
  Forall unit_obs os →
  run (Work <$> os) (World m t []) = World m (t ++ os) [].
Proof.
  intros Hos. revert t. induction Hos as [|o os Ho _ IH]; intros t.
  - by rewrite app_nil_r.
  - rewrite fmap_cons, run_cons.
    replace (perform (Work o) (World m t [])) with (World m (t ++ [o]) []).
    + rewrite IH, <- app_assoc. done.
    + destruct o; try done.
Qed.

Lemma unit_body_run u w :
  unit_body cv u w = (unit_result cv u, run (Work <$> unit_work cv u) w).
Proof.
  destruct (unit_body_scripted cv u) as (os & r & Hos & Hm).
  unfold unit_result, unit_work. rewrite !Hm. unfold quiet.
  rewrite run_work_idle by done. done.
Qed.

Lemma unit_work_obs u : Forall unit_obs (unit_work cv u).
Proof.
  destruct (unit_body_scripted cv u) as (os & r & Hos & Hm).
  unfold unit_work. rewrite Hm. unfold quiet.
  rewrite run_work_idle by done. done.
Qed.

Lemma each_course_script cat body lbl i total :
  (∀ c, body c = unit_body cv (cat, c)) →
  (∀ c, lbl c = label (cat, c)) →
  ∀ ids n0 w,
    each_course body lbl i total ids n0 w
    = (snd (script cv i total (pair cat <$> ids) n0),
       run (fst (script cv i total (pair cat <$> ids) n0)) w).
Proof.
  intros Hbody Hlbl. induction ids as [|c ids IH]; intros n0 w; [done|].
  cbn [each_course]. rewrite bind_run, Hbody, unit_body_run.
  rewrite fmap_cons. cbn [script].
  destruct (unit_result cv (cat, c)) as [[]|e]; [|done].
  rewrite bind_run. cbn [act]. rewrite IH, Hlbl.
  destruct (script cv i total (pair cat <$> ids) (S n0)) as [acts r].
  cbn [fst snd]. rewrite run_app, run_cons. done.
Qed.

Lemma script_app i total us us' n0 :
  script cv i total (us ++ us') n0
  = match script cv i total us n0 with
    | (acts, Return d) =>
        (acts ++ fst (script cv i total us' d), snd (script cv i total us' d))
    | (acts, Throw e) => (acts, Throw e)
    end.
Proof.
  revert n0. induction us as [|u us IH]; intros n0.
  - cbn. by destruct (script cv i total us' n0).
  - cbn [app script]. destruct (unit_result cv u) as [[]|e]; [|done].
    rewrite IH. destruct (script cv i total us (S n0)) as [acts [d|e]].
    + by rewrite <- app_assoc.
    + done.
Qed.

Lemma download_body_script i sel w :
  download_body cv i sel w
  = match script cv i (total_of sel) (units sel) 0 with
    | (acts, Return d) =>
        (Return d, run (Work Piped :: acts ++ [Work Finalize]) w)
    | (acts, Throw e) => (Throw e, run (Work Piped :: acts) w)
    end.
Proof.
  unfold download_body, units. rewrite bind_run. cbn [act].
  rewrite bind_run, (each_course_script Modules) by done.
  rewrite script_app.
  destruct (script cv i (total_of sel) (pair Modules <$> sel_modules sel) 0)
    as [a1 [d1|e]]; cbn [fst snd]; [|done].
  rewrite bind_run, (each_course_script Syllabus) by done.
  rewrite script_app.
  destruct (script cv i (total_of sel) (pair Syllabus <$> sel_syllabus sel) d1)
    as [a2 [d2|e]]; cbn [fst snd]; [|by rewrite run_cons, run_app].
  rewrite bind_run, (each_course_script Pages) by done.
  rewrite script_app.
  destruct (script cv i (total_of sel) (pair Pages <$> sel_pages sel) d2)
    as [a3 [d3|e]]; cbn [fst snd]; [|by rewrite !run_cons, !run_app].
  rewrite bind_run, (each_course_script Submissions) by done.
  destruct (script cv i (total_of sel)
              (pair Submissions <$> sel_submissions sel) d3)
    as [a4 [d4|e]]; cbn [fst snd].
  - rewrite bind_run. cbn [act mret M_ret].
    by rewrite !run_cons, !run_app.
  - by rewrite !run_cons, !run_app.
Qed.

Lemma units_length sel : length (units sel) = total_of sel.
Proof.
  unfold units, total_of. rewrite !length_app, !length_fmap. lia.
Qed.

(** The shape of a script: the reports count the units passed, one by
    one, and a script that returns has passed all of them. *)
Lemma script_shape i total us n0 :
  ∃ k, (k ≤ length us)%nat
    ∧ reports (fst (script cv i total us n0)) = seq (S n0) k
    ∧ Forall (job_action i total) (fst (script cv i total us n0))
    ∧ (∀ d, snd (script cv i total us n0) = Return d →
            d = (n0 + length us)%nat ∧ k = length us
            ∧ forallb (unit_ok cv) us = true).
Proof.
  revert n0. induction us as [|u us IH]; intros n0.
  - exists 0. cbn. split_and!; try done. intros d [= <-]. split; [lia | done].
  - cbn [script].
    destruct (unit_result cv u) as [[]|e] eqn:Hu.
    + destruct (IH (S n0)) as (k & Hk & Hrep & Hact & Hret).
      destruct (script cv i total us (S n0)) as [acts r]. cbn [fst snd] in *.
      exists (S k). split_and!.
      * simpl. lia.
      * by rewrite reports_app, reports_work, reports_progress, Hrep.
      * apply Forall_app. split; [|by constructor].
        apply Forall_fmap. eapply Forall_impl; [apply unit_work_obs|].
        intros o Ho. by apply unit_obs_handler.
      * intros d Hd. destruct (Hret d Hd) as (-> & -> & Hall).
        cbn [forallb length]. unfold unit_ok at 1. rewrite Hu, Hall.
        split; [lia | done].
    + exists 0. cbn [fst snd]. split_and!.
      * lia.
      * apply reports_work.
      * apply Forall_fmap. eapply Forall_impl; [apply unit_work_obs|].
        intros o Ho. by apply unit_obs_handler.
      * intros d Hd. discriminate Hd.
Qed.

(** A script over units that all succeed returns, with one report per
    unit. *)
Lemma script_all_ok i total us n0 :
  forallb (unit_ok cv) us = true →
  snd (script cv i total us n0) = Return (n0 + length us)%nat
  ∧ reports (fst (script cv i total us n0)) = seq (S n0) (length us)
  ∧ works (fst (script cv i total us n0)) = concat (unit_work cv <$> us).
Proof.
  revert n0. induction us as [|u us IH]; intros n0 Hok.
  - cbn. split_and!; try done. f_equal. lia.
  - cbn [forallb] in Hok. apply andb_true_iff in Hok as [Hu Hus].
    unfold unit_ok in Hu. cbn [script].
    destruct (unit_result cv u) as [[]|e]; [|discriminate Hu].
    destruct (IH (S n0) Hus) as (Hr & Hrep & Hw).
    destruct (script cv i total us (S n0)) as [acts r]. cbn [fst snd] in *.
    split_and!.
    + rewrite Hr. f_equal. simpl. lia.
    + by rewrite reports_app, reports_work, reports_progress, Hrep.
    + by rewrite works_app, works_work, works_progress, Hw.
Qed.

(** A script stops at the first unit that raises. *)
Lemma script_failing i total pre u post n0 e :
  forallb (unit_ok cv) pre = true →
  unit_result cv u = Throw e →
  snd (script cv i total (pre ++ u :: post) n0) = Throw e
  ∧ reports (fst (script cv i total (pre ++ u :: post) n0))
    = seq (S n0) (length pre)
  ∧ works (fst (script cv i total (pre ++ u :: post) n0))
    = concat (unit_work cv <$> pre) ++ unit_work cv u.
Proof.
  intros Hpre Hu. rewrite script_app.
  destruct (script_all_ok i total pre n0 Hpre) as (Hr & Hrep & Hw).
  destruct (script cv i total pre n0) as [acts r]. cbn [fst snd] in *.
  subst r. cbn [script]. rewrite Hu. cbn [fst snd].
  split_and!; [done| |].
  - by rewrite reports_app, reports_work, Hrep, app_nil_r.
  - by rewrite works_app, works_work, Hw.
Qed.

End Script.

(** ** Readings of traces *)

Lemma own_app t t' : own (t ++ t') = own t ++ own t'.
Proof. apply filter_app. Qed.

Lemma dones_app t t' : dones (t ++ t') = dones t ++ dones t'.
Proof. apply omap_app. Qed.

Lemma terminals_app t t' : terminals (t ++ t') = terminals t ++ terminals t'.
Proof. apply omap_app. Qed.

Lemma fetches_app t t' : fetches (t ++ t') = fetches t ++ fetches t'.
Proof. apply omap_app. Qed.

Lemma entry_names_app t t' : entry_names (t ++ t') = entry_names t ++ entry_names t'.
Proof. apply omap_app. Qed.

Lemma fetches_own t : fetches (own t) = fetches t.
Proof.
  induction t as [|o t IH]; [done|].
  unfold own, fetches in *.
  destruct o;
    first [rewrite filter_cons_True by done | rewrite filter_cons_False by done];
    cbn; by rewrite ?IH.
Qed.

Lemma entry_names_own t : entry_names (own t) = entry_names t.
Proof.
  induction t as [|o t IH]; [done|].
  unfold own, entry_names in *.
  destruct o;
    first [rewrite filter_cons_True by done | rewrite filter_cons_False by done];
    cbn; by rewrite ?IH.
Qed.

Lemma own_handler t : Forall (λ o, handler_obs o = true) t → own t = t.
Proof.
  induction 1 as [|o t Ho _ IH]; [done|].
  unfold own in *. rewrite filter_cons_True by done. by f_equal.
Qed.

(** What the clients leave in a trace is none of the readings. *)
Lemma client_obs_readings t :
  Forall client_obs t →
  own t = [] ∧ dones t = [] ∧ terminals t = []
  ∧ Forall (λ o, channel_output o = false) t.
Proof.
  induction 1 as [|o t Ho _ (IH1 & IH2 & IH3 & IH4)]; [done|].
  destruct o as [| h [] | | | | |]; try done.
  - split_and!; try done. by constructor.
  - split_and!; try done. by constructor.
Qed.

(** ** What each step adds to the trace *)

Lemma apply_event_trace w e :
  ∃ new, trace (apply_event w e) = trace w ++ new ∧ Forall client_obs new
    ∧ schedule (apply_event w e) = schedule w.
Proof.
  destruct e as [j h| j |]; cbn.
  - unfold events_open. destruct (negb (Js.truthy j)).
    + exists []. by rewrite app_nil_r.
    + exists [Write h Preamble]. split_and!; try done. by repeat constructor.
  - exists []. by rewrite app_nil_r.
  - exists [Aborted]. split_and!; try done. by repeat constructor.
Qed.

Lemma apply_events_trace batch w :
  ∃ new, trace (fold_left apply_event batch w) = trace w ++ new
    ∧ Forall client_obs new
    ∧ schedule (fold_left apply_event batch w) = schedule w.
Proof.
  revert w. induction batch as [|e batch IH]; intros w.
  - exists []. by rewrite app_nil_r.
  - cbn [fold_left].
    destruct (apply_event_trace w e) as (n1 & H1 & F1 & S1).
    destruct (IH (apply_event w e)) as (n2 & H2 & F2 & S2).
    exists (n1 ++ n2). rewrite H2, H1, S2, S1, app_assoc.
    split_and!; try done. by apply Forall_app.
Qed.

Lemma deliver_trace w :
  ∃ new, trace (deliver w) = trace w ++ new ∧ Forall client_obs new
    ∧ schedule (deliver w) = tail (schedule w).
Proof.
  unfold deliver. destruct (schedule w) as [|batch later] eqn:E.
  - exists []. by rewrite app_nil_r, E.
  - destruct (apply_events_trace batch (set_schedule later w))
      as (new & H & F & S).
    exists new. by rewrite H, S.
Qed.

Lemma drain_trace w :
  ∃ new, trace (drain w) = trace w ++ new ∧ Forall client_obs new
    ∧ schedule (drain w) = [].
Proof.
  unfold drain. generalize (schedule w) as s.
  change (trace w) with (trace (set_schedule [] w)).
  assert (H0 : schedule (set_schedule [] w) = []) by done.
  revert H0. generalize (set_schedule [] w) as w0. clear w.
  intros w0 H0 s. revert w0 H0.
  induction s as [|batch s IH]; intros w0 H0.
  - exists []. by rewrite app_nil_r.
  - cbn [fold_left].
    destruct (apply_events_trace batch w0) as (n1 & H1 & F1 & S1).
    destruct (IH (fold_left apply_event batch w0)) as (n2 & H2 & F2 & S2);
      [congruence|].
    exists (n1 ++ n2). rewrite H2, H1, app_assoc.
    split_and!; try done. by apply Forall_app.
Qed.

Lemma sendProgress_trace i d t m w :
  ∃ new, trace (sendProgress i d t m w) = trace w ++ new
    ∧ own new = [] ∧ dones new `sublist_of` [d] ∧ terminals new = []
    ∧ Forall (λ o, ∀ h, o ≠ End h) new
    ∧ schedule (sendProgress i d t m w) = schedule w
    ∧ sseClients (sendProgress i d t m w) = sseClients w.
Proof.
  unfold sendProgress. destruct (sseClients w !! i) as [h|].
  - exists [Write h ProgressHead; Write h (ProgressData d t m)].
    cbn. rewrite <- app_assoc. split_and!; try done.
    repeat constructor; done.
  - exists []. rewrite app_nil_r. split_and!; try done.
    apply sublist_nil_l.
Qed.

Lemma perform_trace a w :
  handler_action a →
  ∃ new, trace (perform a w) = trace w ++ new
    ∧ own new = works [a] ∧ dones new `sublist_of` reports [a]
    ∧ terminals new = [] ∧ Forall (λ o, ∀ h, o ≠ End h) new.
Proof.
  intros Ha. destruct a as [o|i d t m].
  - assert (Hlog : ∃ new, trace (log o w) = trace w ++ new
      ∧ own new = [o] ∧ dones new = [] ∧ terminals new = []
      ∧ Forall (λ o, ∀ h, o ≠ End h) new).
    { exists [o]. cbn in Ha. split_and!; try done.
      - unfold own. rewrite filter_cons. by case_decide.
      - by destruct o.
      - by destruct o.
      - repeat constructor. by destruct o. }
    destruct o; try (destruct Hlog as (new & ? & ? & Hd & ? & ?);
      exists new; rewrite Hd; split_and!; by try apply sublist_nil_l).
    cbn [perform].
    destruct (deliver_trace (log (Fetch r) w)) as (new & H & F & _).
    destruct (client_obs_readings new F) as (O & D & T & C).
    exists (Fetch r :: new). rewrite H. cbn [log trace]. rewrite <- app_assoc.
    assert (Hown : own (Fetch r :: new) = works [Work (Fetch r)]).
    { unfold own in *. rewrite filter_cons_True by done. by rewrite O. }
    assert (Hdone : dones (Fetch r :: new) = []) by exact D.
    assert (Hterm : terminals (Fetch r :: new) = []) by exact T.
    rewrite Hdone. split_and!; [done|done|apply sublist_nil_l|done|].
    constructor; [done|]. eapply Forall_impl; [exact C|].
    intros o Ho h ->. done.
  - cbn [perform].
    destruct (sendProgress_trace i d t m w) as (new & H & O & D & T & E & _).
    by exists new.
Qed.

Lemma run_trace acts w :
  Forall handler_action acts →
  ∃ new, trace (run acts w) = trace w ++ new
    ∧ own new = works acts ∧ dones new `sublist_of` reports acts
    ∧ terminals new = [] ∧ Forall (λ o, ∀ h, o ≠ End h) new.
Proof.
  intros Hacts. revert w. induction Hacts as [|a acts Ha _ IH]; intros w.
  - exists []. rewrite app_nil_r. split_and!; done.
  - rewrite run_cons.
    destruct (perform_trace a w Ha) as (n1 & H1 & O1 & D1 & T1 & E1).
    destruct (IH (perform a w)) as (n2 & H2 & O2 & D2 & T2 & E2).
    exists (n1 ++ n2). rewrite H2, H1, <- app_assoc.
    rewrite own_app, dones_app, terminals_app, O1, O2, T1, T2.
    split_and!; try done.
    + change (a :: acts) with ([a] ++ acts). by rewrite works_app.
    + change (a :: acts) with ([a] ++ acts). rewrite reports_app.
      by apply sublist_app.
    + by apply Forall_app.
Qed.

(** ** A channel that stays open *)

Section Registered.

Variable i : string.

Lemma apply_event_registered e w :
  closes i e = false →
  is_Some (sseClients w !! i) → is_Some (sseClients (apply_event w e) !! i).
Proof.
  intros He Hreg. destruct e as [j h| j |]; cbn in *; [| |done].
  - unfold events_open. destruct (negb (Js.truthy j)); [done|]. cbn.
    destruct (decide (Js.to_string j = i)) as [->|Hne].
    + rewrite lookup_insert_eq. by eexists.
    + by rewrite lookup_insert_ne.
  - apply String.eqb_neq in He. by rewrite lookup_delete_ne.
Qed.

Lemma apply_events_registered batch w :
  Forall (λ e, closes i e = false) batch →
  is_Some (sseClients w !! i) →
  is_Some (sseClients (fold_left apply_event batch w) !! i).
Proof.
  intros Hb. revert w. induction Hb as [|e batch He _ IH]; intros w Hreg;
    [done|].
  cbn [fold_left]. by apply IH, apply_event_registered.
Qed.

Lemma deliver_registered w : registered i w → registered i (deliver w).
Proof.
  intros [Hreg Hnc]. unfold deliver.
  destruct (schedule w) as [|batch later] eqn:E; [by split; rewrite ?E|].
  inversion Hnc as [|? ? Hb Hl]; subst. split.
  - by apply apply_events_registered.
  - destruct (apply_events_trace batch (set_schedule later w)) as (_ & _ & _ & ->).
    done.
Qed.

Lemma perform_registered total a w :
  job_action i total a → registered i w →
  registered i (perform a w)
  ∧ ∃ new, trace (perform a w) = trace w ++ new ∧ dones new = reports [a].
Proof.
  intros Ha Hreg. destruct a as [o|j d t m].
  - assert (Hlog : registered i (log o w)
      ∧ ∃ new, trace (log o w) = trace w ++ new ∧ dones new = []).
    { split; [done|]. exists [o]. split; [done|]. by destruct o. }
    destruct o; try exact Hlog. cbn [perform]. split.
    + by apply deliver_registered.
    + destruct (deliver_trace (log (Fetch r) w)) as (new & H & F & _).
      destruct (client_obs_readings new F) as (_ & D & _).
      exists (Fetch r :: new). rewrite H. cbn [log trace].
      rewrite <- app_assoc. split; [done|]. exact D.
  - destruct Ha as [-> _]. cbn [perform]. destruct Hreg as [[h Hh] Hnc].
    unfold sendProgress. rewrite Hh. split.
    + split; [by exists h | done].
    + exists [Write h ProgressHead; Write h (ProgressData d t m)].
      cbn. by rewrite <- app_assoc.
Qed.

Lemma run_registered total acts w :
  Forall (job_action i total) acts → registered i w →
  registered i (run acts w)
  ∧ ∃ new, trace (run acts w) = trace w ++ new ∧ dones new = reports acts.
Proof.
  intros Hacts. revert w. induction Hacts as [|a acts Ha _ IH]; intros w Hreg.
  - split; [done|]. exists []. by rewrite app_nil_r.
  - rewrite run_cons.
    destruct (perform_registered total a w Ha Hreg) as (R1 & n1 & H1 & D1).
    destruct (IH (perform a w) R1) as (R2 & n2 & H2 & D2).
    split; [done|]. exists (n1 ++ n2).
    rewrite H2, H1, <- app_assoc, dones_app, D1, D2. split; [done|].
    change (a :: acts) with ([a] ++ acts). by rewrite reports_app.
Qed.

Lemma apply_batches_registered s w :
  never_closes i s → is_Some (sseClients w !! i) →
  is_Some (sseClients (apply_batches s w) !! i).
Proof.
  intros Hs. revert w. induction Hs as [|b s Hb _ IH]; intros w Hreg; [done|].
  cbn. by apply IH, apply_events_registered.
Qed.

Lemma drain_registered w :
  registered i w → is_Some (sseClients (drain w) !! i).
Proof.
  intros [Hreg Hnc]. by apply apply_batches_registered.
Qed.

End Registered.

(** ** A channel that is closed for good *)

Section Gone.

Variable i : string.

Lemma apply_event_gone e w :
  opens i e = false →
  sseClients w !! i = None → sseClients (apply_event w e) !! i = None.
Proof.
  intros He Hgone. destruct e as [j h| j |]; cbn in *; [| |done].
  - unfold events_open. destruct j as [j|]; [|done].
    destruct (negb (Js.truthy (Some j))); [done|]. cbn.
    apply String.eqb_neq in He. by rewrite lookup_insert_ne.
  - destruct (decide (j = i)) as [->|Hne].
    + by rewrite lookup_delete_eq.
    + by rewrite lookup_delete_ne.
Qed.

Lemma apply_events_gone batch w :
  Forall (λ e, opens i e = false) batch →
  sseClients w !! i = None →
  sseClients (fold_left apply_event batch w) !! i = None.
Proof.
  intros Hb. revert w. induction Hb as [|e batch He _ IH]; intros w Hg;
    [done|].
  cbn [fold_left]. by apply IH, apply_event_gone.
Qed.

Lemma silent_app t t' : silent t → silent t' → silent (t ++ t').
Proof. intros. by apply Forall_app. Qed.

Lemma client_obs_silent t : Forall client_obs t → silent t.
Proof. intros H. by apply client_obs_readings. Qed.

Lemma apply_batches_gone s w :
  never_opens i s → sseClients w !! i = None →
  sseClients (apply_batches s w) !! i = None
  ∧ ∃ new, trace (apply_batches s w) = trace w ++ new ∧ silent new.
Proof.
  intros Hs. revert w. induction Hs as [|b s Hb _ IH]; intros w Hg.
  - split; [done|]. exists []. rewrite app_nil_r. by split; [|constructor].
  - cbn.
    destruct (apply_events_trace b w) as (n1 & H1 & F1 & _).
    destruct (IH (fold_left apply_event b w)) as (G & n2 & H2 & S2).
    { by apply apply_events_gone. }
    split; [exact G|]. exists (n1 ++ n2).
    unfold apply_batches in H2. cbn in H2. rewrite H2, H1, <- app_assoc.
    split; [done|]. apply silent_app; [by apply client_obs_silent | done].
Qed.

Lemma deliver_gone w :
  gone i w →
  gone i (deliver w)
  ∧ ∃ new, trace (deliver w) = trace w ++ new ∧ silent new.
Proof.
  intros [Hg Hno]. destruct (deliver_trace w) as (new & H & F & S).
  split; [|exists new; split; [done | by apply client_obs_silent]].
  split; [|rewrite S; destruct Hno; [constructor | done]].
  unfold deliver. destruct (schedule w) as [|batch later] eqn:E; [done|].
  inversion Hno; subst. by apply apply_events_gone.
Qed.

Lemma perform_gone total a w :
  job_action i total a → gone i w →
  gone i (perform a w)
  ∧ ∃ new, trace (perform a w) = trace w ++ new ∧ silent new.
Proof.
  intros Ha Hg. destruct a as [o|j d t m].
  - assert (Hlog : handler_obs o = true → gone i (log o w)
      ∧ ∃ new, trace (log o w) = trace w ++ new ∧ silent new).
    { intros Ho. split; [done|]. exists [o]. split; [done|].
      repeat constructor. by destruct o. }
    destruct o; try (by apply Hlog). cbn [perform].
    destruct (deliver_gone (log (Fetch r) w)) as (G & new & H & S); [done|].
    split; [done|]. exists (Fetch r :: new). rewrite H. cbn [log trace].
    rewrite <- app_assoc. split; [done|]. by constructor.
  - destruct Ha as [-> _]. cbn [perform]. unfold sendProgress.
    destruct Hg as [Hg Hno]. rewrite Hg. split; [done|].
    exists []. rewrite app_nil_r. by split; [|constructor].
Qed.

Lemma run_gone total acts w :
  Forall (job_action i total) acts → gone i w →
  gone i (run acts w)
  ∧ ∃ new, trace (run acts w) = trace w ++ new ∧ silent new.
Proof.
  intros Hacts. revert w. induction Hacts as [|a acts Ha _ IH]; intros w Hg.
  - split; [done|]. exists []. rewrite app_nil_r. by split; [|constructor].
  - rewrite run_cons.
    destruct (perform_gone total a w Ha Hg) as (G1 & n1 & H1 & S1).
    destruct (IH (perform a w) G1) as (G2 & n2 & H2 & S2).
    split; [done|]. exists (n1 ++ n2). rewrite H2, H1, <- app_assoc.
    split; [done | by apply silent_app].
Qed.

Lemma drain_gone w :
  gone i w →
  sseClients (drain w) !! i = None
  ∧ ∃ new, trace (drain w) = trace w ++ new ∧ silent new.
Proof.
  intros [Hg Hno]. by apply (apply_batches_gone (schedule w) (set_schedule [] w)).
Qed.

End Gone.

(** ** A cancellation to come *)

Section Pending.

Variable i : string.

Lemma apply_batches_app s s' w :
  apply_batches (s ++ s') w = apply_batches s' (apply_batches s w).
Proof. apply fold_left_app. Qed.

Lemma apply_batches_trace s w :
  ∃ new, trace (apply_batches s w) = trace w ++ new ∧ Forall client_obs new.
Proof.
  revert w. induction s as [|b s IH]; intros w.
  - exists []. by rewrite app_nil_r.
  - cbn.
    destruct (apply_events_trace b w) as (n1 & H1 & F1 & _).
    destruct (IH (fold_left apply_event b w)) as (n2 & H2 & F2).
    exists (n1 ++ n2). unfold apply_batches in H2. rewrite H2, H1, <- app_assoc.
    split; [done | by apply Forall_app].
Qed.

Lemma cancel_batch w :
  sseClients (fold_left apply_event (cancel i) w) !! i = None
  ∧ trace (fold_left apply_event (cancel i) w) = trace w ++ [Aborted]
  ∧ schedule (fold_left apply_event (cancel i) w) = schedule w.
Proof. cbn. by rewrite lookup_delete_eq. Qed.

Lemma drain_pending w :
  pending i w →
  sseClients (drain w) !! i = None
  ∧ ∃ pre post, trace (drain w) = trace w ++ pre ++ Aborted :: post
      ∧ silent post.
Proof.
  intros (s1 & s2 & Hs & Hno). unfold drain. fold (apply_batches (schedule w)).
  rewrite Hs, apply_batches_app.
  destruct (apply_batches_trace s1 (set_schedule [] w)) as (pre & Hpre & _).
  set (w1 := apply_batches s1 (set_schedule [] w)) in *.
  change (apply_batches (cancel i :: s2) w1)
    with (apply_batches s2 (fold_left apply_event (cancel i) w1)).
  destruct (cancel_batch w1) as (Hg & Ht & _).
  destruct (apply_batches_gone i s2 _ Hno Hg) as (G & post & Hpost & S).
  split; [exact G|]. exists pre, post.
  rewrite Hpost, Ht, Hpre. cbn [set_schedule trace].
  rewrite <- !app_assoc. done.
Qed.

Lemma run_pending total acts w :
  Forall (job_action i total) acts → pending i w →
  sseClients (drain (run acts w)) !! i = None
  ∧ ∃ pre post, trace (drain (run acts w)) = trace w ++ pre ++ Aborted :: post
      ∧ silent post.
Proof.
  intros Hacts. revert w.
  induction Hacts as [|a acts Ha Hacts IH]; intros w Hp;
    [by apply drain_pending|].
  rewrite run_cons.
  assert (Hkeep : ∀ w1 new,
    schedule w1 = schedule w → trace w1 = trace w ++ new →
    sseClients (drain (run acts w1)) !! i = None
    ∧ ∃ pre post, trace (drain (run acts w1))
                  = trace w ++ pre ++ Aborted :: post ∧ silent post).
  { intros w1 new Hs Ht.
    destruct (IH w1) as (G & pre & post & H & S).
    { destruct Hp as (s1 & s2 & Hp & Hno). exists s1, s2. by rewrite Hs. }
    split; [exact G|]. exists (new ++ pre), post.
    rewrite H, Ht, <- !app_assoc. done. }
  destruct a as [o|j d t m].
  - destruct o as [r| | | | | |];
      try (refine (Hkeep (log _ w) [_] eq_refl eq_refl)).
    cbn [perform]. destruct Hp as (s1 & s2 & Hs & Hno).
    unfold deliver. cbn [log schedule]. rewrite Hs.
    destruct s1 as [|b s1]; cbn [app].
    + set (w0 := set_schedule s2 (log (Fetch r) w)).
      destruct (cancel_batch w0) as (Hg & Ht & Hsch).
      destruct (run_gone i total acts (fold_left apply_event (cancel i) w0))
        as (G1 & n1 & H1 & S1); [done|by split; [|rewrite Hsch]|].
      destruct (drain_gone i _ G1) as (G2 & n2 & H2 & S2).
      split; [exact G2|]. exists [Fetch r], (n1 ++ n2).
      rewrite H2, H1, Ht. cbn [w0 set_schedule log trace].
      rewrite <- !app_assoc. split; [done | by apply silent_app].
    + set (w0 := set_schedule (s1 ++ cancel i :: s2) (log (Fetch r) w)).
      destruct (apply_events_trace b w0) as (n1 & H1 & _ & Hsch).
      destruct (IH (fold_left apply_event b w0)) as (G & pre & post & H & S).
      { exists s1, s2. by rewrite Hsch. }
      split; [exact G|]. exists (Fetch r :: n1 ++ pre), post.
      rewrite H, H1. cbn [w0 set_schedule log trace].
      rewrite <- !app_assoc. cbn [app]. by rewrite <- !app_assoc.
  - cbn [perform].
    destruct (sendProgress_trace j d t m w) as (new & H & _ & _ & _ & _ & Hs & _).
    exact (Hkeep _ new Hs H).
Qed.

End Pending.

(** ** A close to come *)

Section Closing.

Variable i : string.

Lemma close_batch b1 b2 w :
  Forall (λ e, opens i e = false) b2 →
  sseClients (fold_left apply_event (b1 ++ EvClose i :: b2) w) !! i = None.
Proof.
  intros Hb2. rewrite fold_left_app. cbn [fold_left apply_event].
  apply apply_events_gone; [done|]. cbn. apply lookup_delete_eq.
Qed.

Lemma pending_closing w : pending i w → closing i w.
Proof.
  intros (s1 & s2 & Hs & Hno). exists s1, [EvAbort], [], s2. by split_and!.
Qed.

Lemma drain_closing w : closing i w → sseClients (drain w) !! i = None.
Proof.
  intros (s1 & b1 & b2 & s2 & Hs & Hb2 & Hno).
  unfold drain. fold (apply_batches (schedule w)).
  rewrite Hs, apply_batches_app.
  set (w1 := apply_batches s1 (set_schedule [] w)).
  change (apply_batches ((b1 ++ EvClose i :: b2) :: s2) w1)
    with (apply_batches s2 (fold_left apply_event (b1 ++ EvClose i :: b2) w1)).
  apply (apply_batches_gone i s2 _ Hno). by apply close_batch.
Qed.

Lemma run_closing total acts w :
  Forall (job_action i total) acts → closing i w →
  sseClients (drain (run acts w)) !! i = None.
Proof.
  intros Hacts. revert w.
  induction Hacts as [|a acts Ha Hacts IH]; intros w Hc;
    [by apply drain_closing|].
  rewrite run_cons.
  assert (Hkeep : ∀ w1, schedule w1 = schedule w →
            sseClients (drain (run acts w1)) !! i = None).
  { intros w1 Hs. apply IH.
    destruct Hc as (s1 & b1 & b2 & s2 & Hc & Hb2 & Hno).
    exists s1, b1, b2, s2. by rewrite Hs. }
  destruct a as [o|j d t m].
  - destruct o as [r| | | | | |]; try (by apply Hkeep).
    cbn [perform]. destruct Hc as (s1 & b1 & b2 & s2 & Hs & Hb2 & Hno).
    unfold deliver. cbn [log schedule]. rewrite Hs.
    destruct s1 as [|b s1]; cbn [app].
    + set (w0 := set_schedule s2 (log (Fetch r) w)).
      assert (G : gone i (fold_left apply_event (b1 ++ EvClose i :: b2) w0)).
      { split; [by apply close_batch|].
        by destruct (apply_events_trace (b1 ++ EvClose i :: b2) w0)
          as (_ & _ & _ & ->). }
      destruct (run_gone i total acts _ Hacts G) as (G1 & _).
      by destruct (drain_gone i _ G1).
    + set (w0 := set_schedule (s1 ++ (b1 ++ EvClose i :: b2) :: s2)
                   (log (Fetch r) w)).
      apply IH. exists s1, b1, b2, s2.
      by destruct (apply_events_trace b w0) as (_ & _ & _ & ->).
  - cbn [perform]. apply Hkeep.
    by destruct (sendProgress_trace j d t m w) as (new & _ & _ & _ & _ & _ & Hs & _).
Qed.

End Closing.

(** ** The handler and the job as runs *)

Section JobRun.

Variable cv : canvas.

Lemma download_open i sel w :
  Js.truthy (Some i) = true → is_Some (sseClients w !! i) →
  download cv (Some i) sel w
  = match script cv i (total_of sel) (units sel) 0 with
    | (acts, Return d) =>
        (Finished d, run (Work Piped :: acts ++ [Work Finalize]) w)
    | (acts, Throw e) => (Crashed e, run (Work Piped :: acts) w)
    end.
Proof.
  intros Ht Hreg. unfold download. rewrite Ht. cbn [negb orb Js.to_string].
  rewrite bool_decide_eq_true_2 by done. cbn [negb].
  rewrite download_body_script.
  by destruct (script cv i (total_of sel) (units sel) 0) as [acts [d|e]].
Qed.

Lemma job_actions i sel :
  let acts := fst (script cv i (total_of sel) (units sel) 0) in
  Forall (job_action i (total_of sel)) (Work Piped :: acts)
  ∧ Forall (job_action i (total_of sel)) (Work Piped :: acts ++ [Work Finalize]).
Proof.
  destruct (script_shape cv i (total_of sel) (units sel) 0)
    as (k & _ & _ & Hact & _).
  split; constructor; try done.
  apply Forall_app. split; [done | by repeat constructor].
Qed.

Lemma job_action_handler i total a : job_action i total a → handler_action a.
Proof. by destruct a. Qed.

End JobRun.

Section JobTrace.

Variable cv : canvas.

Lemma job_finishes i sel ends w acts d :
  Js.truthy (Some i) = true → is_Some (sseClients w !! i) →
  script cv i (total_of sel) (units sel) 0 = (acts, Return d) →
  job cv (Some i) sel ends w
  = (Finished d,
     if ends
     then archive_end i (drain (run (Work Piped :: acts ++ [Work Finalize]) w))
     else drain (run (Work Piped :: acts ++ [Work Finalize]) w)).
Proof.
  intros Ht Hreg Hs. unfold job. rewrite download_open, Hs by done. done.
Qed.

Lemma job_crashes i sel ends w acts e :
  Js.truthy (Some i) = true → is_Some (sseClients w !! i) →
  script cv i (total_of sel) (units sel) 0 = (acts, Throw e) →
  job cv (Some i) sel ends w = (Crashed e, drain (run (Work Piped :: acts) w)).
Proof.
  intros Ht Hreg Hs. unfold job. rewrite download_open, Hs by done. done.
Qed.

(** What the handler's actions and the client events leave in the trace
    up to the end of the archive. *)
Lemma body_trace i total acts w :
  Forall (job_action i total) acts →
  ∃ body, trace (drain (run acts w)) = trace w ++ body
    ∧ own body = works acts
    ∧ dones body `sublist_of` reports acts
    ∧ terminals body = []
    ∧ (registered i w →
         dones body = reports acts
         ∧ is_Some (sseClients (drain (run acts w)) !! i))
    ∧ (pending i w →
         sseClients (drain (run acts w)) !! i = None
         ∧ ∃ pre post, body = pre ++ Aborted :: post ∧ silent post).
Proof.
  intros Hacts.
  destruct (run_trace acts w) as (n1 & H1 & O1 & D1 & T1 & _).
  { eapply Forall_impl; [exact Hacts|]. apply job_action_handler. }
  destruct (drain_trace (run acts w)) as (n2 & H2 & F2 & _).
  destruct (client_obs_readings n2 F2) as (O2 & D2 & T2 & _).
  exists (n1 ++ n2). rewrite H2, H1, <- app_assoc.
  rewrite own_app, dones_app, terminals_app, O1, O2, D2, T1, T2, !app_nil_r.
  split_and!; try done.
  - intros Hreg.
    destruct (run_registered i total acts w Hacts Hreg) as (R & n1' & H1' & D1').
    rewrite H1 in H1'. apply app_inv_head in H1' as <-.
    split; [done | by apply drain_registered].
  - intros Hp.
    destruct (run_pending i total acts w Hacts Hp) as (G & pre & post & H & S).
    split; [done|]. exists pre, post. split; [|done].
    rewrite H2, H1, <- app_assoc in H. by apply app_inv_head in H.
Qed.

Lemma archive_end_trace i w :
  (sseClients w !! i = None ∧ archive_end i w = w)
  ∨ (∃ h, sseClients w !! i = Some h
        ∧ trace (archive_end i w) = trace w ++ [Write h DoneFrame; End h]).
Proof.
  unfold archive_end. destruct (sseClients w !! i) as [h|]; [right | by left].
  exists h. split; [done|]. cbn. by rewrite <- app_assoc.
Qed.

Lemma script_total i sel acts d :
  script cv i (total_of sel) (units sel) 0 = (acts, Return d) →
  d = total_of sel ∧ reports acts = seq 1 (total_of sel)
  ∧ forallb (unit_ok cv) (units sel) = true.
Proof.
  intros Hs.
  destruct (script_shape cv i (total_of sel) (units sel) 0)
    as (k & _ & Hrep & _ & Hret).
  rewrite Hs in *. cbn [fst snd] in *.
  destruct (Hret d eq_refl) as (-> & -> & Hok).
  by rewrite units_length in *.
Qed.

Lemma script_reports i sel :
  ∃ k, (k ≤ total_of sel)%nat
    ∧ reports (fst (script cv i (total_of sel) (units sel) 0)) = seq 1 k.
Proof.
  destruct (script_shape cv i (total_of sel) (units sel) 0)
    as (k & Hk & Hrep & _ & _).
  exists k. split; [by rewrite <- units_length | done].
Qed.

End JobTrace.

Lemma reports_piped acts : reports (Work Piped :: acts) = reports acts.
Proof. reflexivity. Qed.

Lemma reports_finalize acts : reports (acts ++ [Work Finalize]) = reports acts.
Proof. by rewrite reports_app, app_nil_r. Qed.



Lemma Forall_sublist_of {A} (P : A → Prop) (l1 l2 : list A) :
  l1 `sublist_of` l2 → Forall P l2 → Forall P l1.
Proof.
  rewrite !Forall_forall. intros Hl H x Hx. eapply H, elem_of_sublist; eauto.
Qed.

Lemma sublist_seq_sorted (l : list nat) a k :
  l `sublist_of` seq a k →
  StronglySorted lt l ∧ Forall (λ d, (a ≤ d < a + k)%nat) l.
Proof.
  intros Hl.
  assert (Hs : StronglySorted lt (seq a k)).
  { clear Hl. revert a. induction k as [|k IH]; intros a; cbn; [constructor|].
    constructor; [apply IH|]. apply Forall_forall. intros x Hx.
    apply list_elem_of_In, in_seq in Hx. lia. }
  assert (Hb : Forall (λ d, (a ≤ d < a + k)%nat) (seq a k)).
  { apply Forall_forall. intros x Hx. apply list_elem_of_In, in_seq in Hx. lia. }
  split.
  - clear Hb. revert l Hl. induction Hs as [|x s Hs IH Hx]; intros l Hl.
    + apply sublist_nil_r in Hl as ->. constructor.
    + apply sublist_cons_r in Hl as [Hl|(l' & -> & Hl)]; [by apply IH|].
      constructor; [by apply IH|]. eapply Forall_impl.
      * eapply Forall_sublist_of; [exact Hl | exact Hx].
      * done.
  - by eapply Forall_sublist_of.
Qed.

(** ** Failures inside a unit *)











(** C3, as the code has it. A failure of a unit is not caught. While the
    channel of the job stays open, a job whose units all succeed reports
    [done] from 1 to [total], one event per unit, and ends with [done] at
    [total]; a job with a failing unit ends at that unit, its last report
    being the number of units completed before it. *)
Theorem done_counts_the_completed_units (cv : canvas) (i : string)
    (sel : selections) (ends : bool) (w : world) :
  Js.truthy (Some i) = true →
  registered i w →
  (forallb (unit_ok cv) (units sel) = true →
   ∃ new,
     fst (job cv (Some i) sel ends w) = Finished (total_of sel)
     ∧ trace (snd (job cv (Some i) sel ends w)) = trace w ++ new
     ∧ dones new = seq 1 (total_of sel))
  ∧ (∀ pre u post e,
       units sel = pre ++ u :: post →
       forallb (unit_ok cv) pre = true →
       unit_result cv u = Throw e →
       ∃ new,
         fst (job cv (Some i) sel ends w) = Crashed e
         ∧ trace (snd (job cv (Some i) sel ends w)) = trace w ++ new
         ∧ dones new = seq 1 (length pre)).
Proof.
  intros Ht Hreg. pose proof Hreg as [Hopen _]. split.
  - intros Hok.
    destruct (script_all_ok cv i (total_of sel) (units sel) 0 Hok)
      as (Hr & Hrep & _).
    destruct (script cv i (total_of sel) (units sel) 0) as [acts r] eqn:Hs.
    cbn [fst snd] in *. subst r. rewrite units_length in *.
    rewrite !(job_finishes cv i sel _ w acts (total_of sel)) by done.
    cbn [fst snd].
    destruct (job_actions cv i sel) as [_ Hacts]. rewrite Hs in Hacts.
    cbn [fst] in Hacts.
    destruct (body_trace i (total_of sel) _ w Hacts)
      as (body & H & _ & _ & _ & R & _).
    destruct (R Hreg) as [D _].
    rewrite reports_piped, reports_finalize, Hrep in D.
    destruct ends; [|by exists body].
    destruct (archive_end_trace i
                (drain (run (Work Piped :: acts ++ [Work Finalize]) w)))
      as [[_ ->]|(h & _ & Hend)]; [by exists body|].
    exists (body ++ [Write h DoneFrame; End h]).
    rewrite Hend, H, <- app_assoc, dones_app, D.
    split_and!; try done. apply app_nil_r.
  - intros pre u post e Hunits Hpre Hu.
    destruct (script_failing cv i (total_of sel) pre u post 0 e Hpre Hu)
      as (Hr & Hrep & _).
    rewrite <- Hunits in *.
    destruct (script cv i (total_of sel) (units sel) 0) as [acts r] eqn:Hs.
    cbn [fst snd] in *. subst r.
    rewrite (job_crashes cv i sel ends w acts e) by done. cbn [fst snd].
    destruct (job_actions cv i sel) as [Hacts _]. rewrite Hs in Hacts.
    cbn [fst] in Hacts.
    destruct (body_trace i (total_of sel) _ w Hacts)
      as (body & H & _ & _ & _ & R & _).
    destruct (R Hreg) as [D _].
    exists body. by rewrite D, reports_piped, Hrep.
Qed.

(** C8, as the code has it. Whatever the upstream answers and whatever
    the clients do, the progress events of a job carry strictly increasing
    values of [done], all between 1 and [total]; a terminal event is
    written at most once, as the last write of the job, and only by a job
    that has finished with [done] at [total]. A job whose channel stays
    open to the end, whose units all succeed and whose archive ends,
    reports every value from 1 to [total] once and writes the terminal
    event exactly once. A job whose events connection is closed before the
    archive has ended, as the client does when it cancels, and not opened
    again, writes no terminal event, even when it runs to completion. *)
Theorem progress_is_ordered_and_the_terminal_event_is_last (cv : canvas)
    (i : string) (sel : selections) (ends : bool) (w : world) :
  Js.truthy (Some i) = true →
  is_Some (sseClients w !! i) →
  ∃ new,
    trace (snd (job cv (Some i) sel ends w)) = trace w ++ new
    ∧ StronglySorted lt (dones new)
    ∧ Forall (λ d, (1 ≤ d ≤ total_of sel)%nat) (dones new)
    ∧ (terminals new = []
       ∨ ∃ body h,
           new = body ++ [Write h DoneFrame; End h]
           ∧ terminals body = [] ∧ ends = true
           ∧ fst (job cv (Some i) sel ends w) = Finished (total_of sel))
    ∧ (registered i w → forallb (unit_ok cv) (units sel) = true →
       ends = true →
       fst (job cv (Some i) sel ends w) = Finished (total_of sel)
       ∧ dones new = seq 1 (total_of sel)
       ∧ length (terminals new) = 1%nat)
    ∧ (closing i w → terminals new = []).
Proof.
  intros Ht Hopen.
  destruct (script_reports cv i sel) as (k & Hk & Hrep).
  assert (Hsorted : ∀ l, l `sublist_of` seq 1 k →
            StronglySorted lt l ∧ Forall (λ d, (1 ≤ d ≤ total_of sel)%nat) l).
  { intros l Hl. destruct (sublist_seq_sorted l 1 k Hl) as [Hs Hb].
    split; [done|]. eapply Forall_impl; [exact Hb|]. cbn. intros; lia. }
  destruct (job_actions cv i sel) as [Hcrash Hfull].
  destruct (script cv i (total_of sel) (units sel) 0) as [acts [d|e]] eqn:Hs;
    cbn [fst] in *.
  - destruct (script_total cv i sel acts d Hs) as (-> & Hall & Hok).
    rewrite (job_finishes cv i sel ends w acts (total_of sel)) by done.
    cbn [fst snd].
    destruct (body_trace i (total_of sel) _ w Hfull)
      as (body & H & _ & D & T & R & P).
    rewrite reports_piped, reports_finalize in *.
    destruct (Hsorted (dones body)) as [Hs1 Hs2]; [by rewrite <- Hrep|].
    destruct ends.
    + destruct (archive_end_trace i
                  (drain (run (Work Piped :: acts ++ [Work Finalize]) w)))
        as [[Hnone ->]|(h & Hsome & Hend)].
      * exists body. split_and!; try done; [by left|].
        intros Hreg _ _. destruct (R Hreg) as [_ [h Hh]]. congruence.
      * exists (body ++ [Write h DoneFrame; End h]).
        rewrite Hend, H, <- app_assoc, dones_app, terminals_app, T.
        change (dones [Write h DoneFrame; End h]) with (@nil nat).
        rewrite app_nil_r. split_and!; try done.
        -- right. by exists body, h.
        -- intros Hreg _ _. destruct (R Hreg) as [-> _]. by rewrite Hall.
        -- intros Hc.
           pose proof (run_closing i (total_of sel) _ w Hfull Hc). congruence.
    + exists body. split_and!; try done. by left.
  - rewrite (job_crashes cv i sel ends w acts e) by done. cbn [fst snd].
    destruct (body_trace i (total_of sel) _ w Hcrash)
      as (body & H & _ & D & T & _).
    rewrite reports_piped in *.
    destruct (Hsorted (dones body)) as [Hs1 Hs2]; [by rewrite <- Hrep|].
    exists body. split_and!; try done; [by left|].
    intros _ Hok _.
    destruct (script_all_ok cv i (total_of sel) (units sel) 0 Hok) as (Hr & _).
    rewrite Hs in Hr. discriminate Hr.
Qed.


(** ** Archive entry names *)

Lemma replace_separators_clean s :
  has_char "/" (replace_separators s) = false
  ∧ has_char "\" (replace_separators s) = false.
Proof.
  induction s as [|a s [IH1 IH2]]; [done|].
  cbn [replace_separators has_char]. rewrite IH1, IH2, !orb_false_r.
  destruct (Ascii.eqb a "/") eqn:E1; [done|].
  destruct (Ascii.eqb a "\") eqn:E2; [done|].
  cbn [orb]. by rewrite E1, E2.
Qed.

Lemma scripted_entry_names (P : obs → Prop) (Q : string → Prop) (m : M unit) w :
  (∀ o, P o → handler_obs o = true) →
  (∀ n content, P (Append n content) → Q n) →
  scripted P m →
  ∃ names,
    entry_names (trace (snd (m w))) = entry_names (trace w) ++ names
    ∧ Forall Q names.
Proof.
  intros HP HQ (os & r & Hos & Hm). rewrite Hm. cbn [snd].
  destruct (run_trace (Work <$> os) w) as (new & H & O & _).
  { apply Forall_fmap. eapply Forall_impl; [exact Hos|]. exact HP. }
  exists (entry_names new). rewrite H, entry_names_app. split; [done|].
  rewrite <- entry_names_own, O, works_work.
  clear H O Hm. induction Hos as [|o os Ho _ IH]; [constructor|].
  destruct o; try exact IH. constructor; [by eapply HQ | exact IH].
Qed.

(** C4, as the code has it. The module name and the page title have every
    slash and backslash replaced by an underscore before they become a
    segment of an entry name, so that segment holds no separator: a module
    named [Unit 1/Intro] gives the segment [Unit 1_Intro]. The rest of the
    name is put together from the course id as selected and from the
    file's name as the upstream gives it, unchanged. *)
Theorem module_and_page_segments_are_sanitized (cv : canvas) (c : string)
    (w : world) :
  (∃ names,
     entry_names (trace (snd (modules_unit cv c w)))
     = entry_names (trace w) ++ names
     ∧ Forall (modules_entry cv c) names)
  ∧ (∃ names,
       entry_names (trace (snd (pages_unit cv c w)))
       = entry_names (trace w) ++ names
       ∧ Forall (pages_entry cv c) names)
  ∧ (∀ s, has_char "/" (replace_separators s) = false
          ∧ has_char "\" (replace_separators s) = false)
  ∧ replace_separators "Unit 1/Intro" = "Unit 1_Intro".
Proof.
  split_and!.
  - apply (scripted_entry_names (modules_obs cv c)).
    + by intros [].
    + by intros n content Hn.
    + apply modules_unit_scripted.
  - apply (scripted_entry_names (pages_obs cv c)).
    + by intros [].
    + by intros n content Hn.
    + apply pages_unit_scripted.
  - apply replace_separators_clean.
  - reflexivity.
Qed.

(** C4 fails for file names: the file [a\b.pdf] of the module
    [Unit 1/Intro] of course 101 is archived under a name whose last
    segment is [a\b.pdf], backslash included, not [a_b.pdf]. *)
Lemma file_name_is_not_sanitized :
  entry_names
    (trace (snd (job Sample.cv (Some "job") (Selections ["101"] [] [] []) true
                   Sample.opened)))
  = ["101/Modules/Unit 1_Intro/a\b.pdf"]
  ∧ last (Js.split "/" "101/Modules/Unit 1_Intro/a\b.pdf") = Some "a\b.pdf"
  ∧ has_char "\" "a\b.pdf" = true.
Proof. by vm_compute. Qed.

(** ** Validation of the download request *)

(** C5, as the code has it. A download request whose job id is missing or
    has no open channel is answered with status 400 and nothing else
    happens. An empty selection is not rejected by the server: with an open
    channel the handler starts the archive, finalizes it at once and
    finishes with [done] at 0. It is the browser client that refuses to
    send a request without any selected pair. *)
Theorem download_rejects_only_unknown_jobs (cv : canvas)
    (downloadId : option string) (sel : selections) (w : world)
    (i : string) (w' : world) :
  Js.truthy downloadId = false ∨ sseClients w !! Js.to_string downloadId = None →
  Js.truthy (Some i) = true →
  is_Some (sseClients w' !! i) →
  download cv downloadId sel w = (BadRequest 400 "Invalid downloadId", w)
  ∧ download cv (Some i) (Selections [] [] [] []) w'
    = (Finished 0, log Finalize (log Piped w'))
  ∧ ∀ sel',
      downloadBtn_onclick i sel'
      = if Nat.eqb (total_of sel') 0
        then Alert "Select at least one checkbox."
        else Post i sel'.
Proof.
  intros Hbad Ht Hopen. split_and!.
  - unfold download. destruct Hbad as [->| ->]; [done|].
    rewrite bool_decide_eq_false_2 by (by intros [? ?]).
    by rewrite orb_true_r.
  - by rewrite download_open.
  - intros [ms ss ps bs]. unfold downloadBtn_onclick, total_of. cbn.
    destruct ms, ss, ps, bs; try done; cbn;
      rewrite ?andb_false_r; try done.
    all: by destruct (length _ + _ + _)%nat eqn:E; [lia|].
Qed.

(** C5 fails for the empty selection: with the channel of the job open, a
    request that selects nothing is not rejected; the archive is started
    and finalized and the terminal event is written. *)
Lemma empty_selection_is_accepted :
  fst (job Sample.cv (Some "job") (Selections [] [] [] []) true Sample.opened)
  = Finished 0
  ∧ trace (snd (job Sample.cv (Some "job") (Selections [] [] [] []) true
                  Sample.opened))
    = [Piped; Finalize; Write 1 DoneFrame; End 1].
Proof. by vm_compute. Qed.

(** ** Progress without a channel *)

(** C10. [sendProgress] for a job id without a registered channel leaves
    the world as it is and raises nothing, whether the id was never
    registered or its channel has been closed; the loop over the courses
    then goes on with the next course. *)
Theorem progress_without_channel_is_dropped (i : string) (done total : nat)
    (message : string) (w w' : world)
    (unit_body : string → M unit) (label : string → string)
    (c : string) (rest : list string) (w1 : world) :
  sseClients w !! i = None →
  unit_body c w' = (Return tt, w1) →
  sseClients w1 !! i = None →
  sendProgress i done total message w = w
  ∧ act (sendProgress i done total message) w = (Return tt, w)
  ∧ sendProgress i done total message (events_close i w') = events_close i w'
  ∧ sendProgress i done total message quiet = quiet
  ∧ each_course unit_body label i total (c :: rest) done w'
    = each_course unit_body label i total rest (S done) w1.
Proof.
  intros Hnone Hbody Hnone1.
  assert (Hdrop : ∀ v d m, sseClients v !! i = None → sendProgress i d total m v = v).
  { intros v d m Hv. unfold sendProgress. by rewrite Hv. }
  split_and!.
  - by apply Hdrop.
  - unfold act. by rewrite Hdrop.
  - apply Hdrop. cbn. apply lookup_delete_eq.
  - by apply Hdrop.
  - cbn [each_course]. rewrite bind_run, Hbody, bind_run. cbn [act].
    by rewrite Hdrop.
Qed.

(** C2, as the code has it. A course whose metadata fetch answers with a
    status outside 200-299 is left out of the result, and the build goes
    on with the remaining ids: silently for 403 and 404, with a warning
    naming the course and the status for any other. No outcome of a
    metadata fetch aborts the build: once the enrollments are listed, the
    catalog request is answered with status 200 and the courses that could
    be fetched. *)
Theorem failed_metadata_fetch_skips_the_course
    (CANVAS_URL : string)
    (enrollments_at : string → reply (response (list enrollment)))
    (course_at : Z → reply (response course_json))
    (fuel : nat) (enrollments : list enrollment) (asked : list string)
    (pre post : list Z) (i : Z) (cr : response course_json) :
  enrollment_pages enrollments_at fuel (Some (enrollUrl CANVAS_URL)) [] []
  = Some (Return enrollments, asked) →
  uniqueIds enrollments = pre ++ i :: post →
  course_at i = Return cr →
  ok cr = false →
  let st := fetch_metadata course_at (pre ++ i :: post) in
  fetchAllCourses CANVAS_URL enrollments_at course_at fuel = Some (Return st)
  ∧ api_courses CANVAS_URL enrollments_at course_at fuel
    = Some (200%Z, Return (courses st))
  ∧ fetched st = pre ++ i :: post
  ∧ courses st = courses (fetch_metadata course_at pre)
                 ++ courses (fetch_metadata course_at post)
  ∧ warnings st
    = warnings (fetch_metadata course_at pre)
      ++ (if (status cr =? 403)%Z || (status cr =? 404)%Z then []
          else [CourseMetadataFailed i (status cr)])
      ++ warnings (fetch_metadata course_at post).
Proof.
  intros Hpages Hids Hi Hok. cbv zeta.
  assert (Hall : fetchAllCourses CANVAS_URL enrollments_at course_at fuel
                 = Some (Return (fetch_metadata course_at (pre ++ i :: post)))).
  { unfold fetchAllCourses. by rewrite Hpages, Hids. }
  split_and!.
  - exact Hall.
  - unfold api_courses. by rewrite Hall.
  - by destruct (fetch_metadata_app course_at pre (i :: post)) as (-> & _).
  - destruct (fetch_metadata_app course_at pre (i :: post)) as (_ & -> & _).
    f_equal. change (i :: post) with ([i] ++ post).
    destruct (fetch_metadata_app course_at [i] post) as (_ & -> & _).
    unfold fetch_metadata at 1. cbn. unfold metadata_step.
    rewrite Hi, Hok. cbn. by destruct (_ || _).
  - destruct (fetch_metadata_app course_at pre (i :: post)) as (_ & _ & ->).
    f_equal. change (i :: post) with ([i] ++ post).
    destruct (fetch_metadata_app course_at [i] post) as (_ & _ & ->).
    f_equal. unfold fetch_metadata at 1. cbn. unfold metadata_step.
    rewrite Hi, Hok. cbn. by destruct (_ || _).
Qed.

(** C2 fails for statuses other than 403 and 404: with course 1 answering
    500 and course 2 answering 200, the catalog build is not aborted; the
    catalog request is answered with status 200 and course 2. *)
Lemma server_error_does_not_abort_the_catalog :
  Sample.course_at 1
  = Return (Response 500 (Throw (UpstreamFailure "no JSON body")) None)
  ∧ api_courses Sample.CANVAS_URL Sample.enrollments_at Sample.course_at 2
    = Some (200%Z, Return [course_of Sample.algebra]).
Proof. split; [reflexivity | by vm_compute]. Qed.

(** ** The properties at the sample data *)

(** Two chained pages of enrollments are read in order. *)
Lemma paginator_follows_next_links_witness :
  Js.truthy (Some (enrollUrl Sample.CANVAS_URL)) = true
  ∧ chain Sample.enrollments_at (enrollUrl Sample.CANVAS_URL)
      [Sample.first_page; Sample.second_page]
  ∧ enrollment_pages Sample.enrollments_at 2
      (Some (enrollUrl Sample.CANVAS_URL)) [] []
    = Some (Return [Enrollment 1; Enrollment 2; Enrollment 1],
            [enrollUrl Sample.CANVAS_URL; Sample.second_url]).
Proof.
  assert (Ht : Js.truthy (Some (enrollUrl Sample.CANVAS_URL)) = true)
    by reflexivity.
  assert (Hc : chain Sample.enrollments_at (enrollUrl Sample.CANVAS_URL)
                 [Sample.first_page; Sample.second_page])
    by (vm_compute; repeat split).
  assert (Hf : (length [Sample.first_page; Sample.second_page] ≤ 2)%nat)
    by (simpl; lia).
  split; [exact Ht|]. split; [exact Hc|].
  exact (proj1 (proj2 (paginator_follows_next_links Sample.enrollments_at
                         (enrollUrl Sample.CANVAS_URL)
                         [Sample.first_page; Sample.second_page] 2 Ht Hc Hf))).
Defined.

(** Course 1 answers 500 and is left out; the catalog is still served. *)
Lemma failed_metadata_fetch_skips_the_course_witness :
  ok (Response 500 (@Throw course_json (UpstreamFailure "no JSON body")) None)
  = false
  ∧ api_courses Sample.CANVAS_URL Sample.enrollments_at Sample.course_at 2
    = Some (200%Z, Return [course_of Sample.algebra]).
Proof.
  assert (Hpages :
    enrollment_pages Sample.enrollments_at 2
      (Some (enrollUrl Sample.CANVAS_URL)) [] []
    = Some (Return [Enrollment 1; Enrollment 2; Enrollment 1],
            [enrollUrl Sample.CANVAS_URL; Sample.second_url]))
    by (vm_compute; reflexivity).
  assert (Hids : uniqueIds [Enrollment 1; Enrollment 2; Enrollment 1]
                 = [] ++ 1%Z :: [2%Z]) by reflexivity.
  assert (Hcr : Sample.course_at 1
    = Return (Response 500 (Throw (UpstreamFailure "no JSON body")) None))
    by reflexivity.
  assert (Hok : ok (Response 500
                      (@Throw course_json (UpstreamFailure "no JSON body")) None)
                = false) by reflexivity.
  split; [exact Hok|].
  exact (proj1 (proj2
    (failed_metadata_fetch_skips_the_course Sample.CANVAS_URL
       Sample.enrollments_at Sample.course_at 2 _ _ [] [2%Z] 1%Z _
       Hpages Hids Hcr Hok))).
Defined.

(** Three enrollments over two pages, two of them of course 1: two
    metadata requests. *)
Lemma one_metadata_fetch_per_course_witness :
  ∃ st,
    fetchAllCourses Sample.CANVAS_URL Sample.enrollments_at Sample.course_at 2
    = Some (Return st)
    ∧ fetched st = [1%Z; 2%Z].
Proof.
  assert (Hpages :
    enrollment_pages Sample.enrollments_at 2
      (Some (enrollUrl Sample.CANVAS_URL)) [] []
    = Some (Return [Enrollment 1; Enrollment 2; Enrollment 1],
            [enrollUrl Sample.CANVAS_URL; Sample.second_url]))
    by (vm_compute; reflexivity).
  destruct (one_metadata_fetch_per_course Sample.CANVAS_URL
              Sample.enrollments_at Sample.course_at 2 _ _ Hpages)
    as (st & Hst & _ & _ & _ & _ & Hex).
  exists st. split; [exact Hst | exact (Hex eq_refl)].
Defined.

(** The client closes the channel during the first unit; the loop goes on
    with the second. *)
Lemma progress_without_channel_is_dropped_witness :
  sendProgress "job" 1 2 "Modules for 104" quiet = quiet
  ∧ each_course (modules_unit Sample.cv) (λ c, "Modules for " +:+ c) "job" 2
      ["104"; "105"] 0 (World {[ "job" := 1 ]} [] [[EvClose "job"]])
    = each_course (modules_unit Sample.cv) (λ c, "Modules for " +:+ c) "job" 2
        ["105"] 1 (World ∅ [Fetch (GetModules "104")] []).
Proof.
  assert (Hnone : sseClients quiet !! "job" = None) by reflexivity.
  assert (Hbody :
    modules_unit Sample.cv "104" (World {[ "job" := 1 ]} [] [[EvClose "job"]])
    = (Return tt, World ∅ [Fetch (GetModules "104")] []))
    by (vm_compute; reflexivity).
  assert (Hnone1 :
    sseClients (World ∅ [Fetch (GetModules "104")] []) !! "job" = None)
    by reflexivity.
  pose proof (progress_without_channel_is_dropped "job" 0 2 "Modules for 104"
    quiet (World {[ "job" := 1 ]} [] [[EvClose "job"]])
    (modules_unit Sample.cv) (λ c, "Modules for " +:+ c)
    "104" ["105"] _ Hnone Hbody Hnone1) as (_ & _ & _ & Hquiet & Hloop).
  split; [reflexivity | exact Hloop].
Defined.

(** An unknown job id and a missing one are both rejected. *)
Lemma download_rejects_only_unknown_jobs_witness :
  download Sample.cv (Some "other") (Selections ["101"] [] [] []) Sample.opened
  = (BadRequest 400 "Invalid downloadId", Sample.opened)
  ∧ download Sample.cv None (Selections ["101"] [] [] []) Sample.opened
    = (BadRequest 400 "Invalid downloadId", Sample.opened).
Proof.
  assert (Hother : sseClients Sample.opened !! "other" = None)
    by (vm_compute; reflexivity).
  assert (Hjob : is_Some (sseClients Sample.opened !! "job"))
    by (exists 1%nat; vm_compute; reflexivity).
  assert (Ht : Js.truthy (Some "job") = true) by reflexivity.
  assert (Hno : Js.truthy None = false) by reflexivity.
  split.
  - exact (proj1 (download_rejects_only_unknown_jobs Sample.cv (Some "other")
      (Selections ["101"] [] [] []) Sample.opened "job" Sample.opened
      (or_intror Hother) Ht Hjob)).
  - exact (proj1 (download_rejects_only_unknown_jobs Sample.cv None
      (Selections ["101"] [] [] []) Sample.opened "job" Sample.opened
      (or_introl Hno) Ht Hjob)).
Defined.


(** The sample channel is open and stays open. *)
Lemma sample_registered : registered "job" Sample.opened.
Proof.
  split; [exists 1%nat; vm_compute; reflexivity | constructor].
Defined.

(** Three units that all succeed are reported as 1, 2 and 3. *)
Lemma done_counts_the_completed_units_witness :
  registered "job" Sample.opened
  ∧ ∃ new,
      fst (job Sample.cv (Some "job") (Selections ["101"; "104"] ["101"] [] [])
             true Sample.opened)
      = Finished 3
      ∧ trace (snd (job Sample.cv (Some "job")
                      (Selections ["101"; "104"] ["101"] [] []) true
                      Sample.opened))
        = trace Sample.opened ++ new
      ∧ dones new = seq 1 3.
Proof.
  assert (Ht : Js.truthy (Some "job") = true) by reflexivity.
  assert (Hok : forallb (unit_ok Sample.cv)
                  (units (Selections ["101"; "104"] ["101"] [] [])) = true)
    by (vm_compute; reflexivity).
  split; [exact sample_registered|].
  exact (proj1
    (done_counts_the_completed_units Sample.cv "job"
       (Selections ["101"; "104"] ["101"] [] []) true Sample.opened
       Ht sample_registered) Hok).
Defined.

(** The events connection is closed during the first unit. *)
Lemma sample_closed_early : closing "job" Flaky.closed_early.
Proof.
  exists [], [], [], []. split; [reflexivity|]. split; constructor.
Defined.

(** Five units that all succeed, with the channel open to the end; and
    the same five units with the channel closed during the first. *)
Lemma progress_is_ordered_and_the_terminal_event_is_last_witness :
  (∃ new,
     trace (snd (job Sample.cv (Some "job") Sample.five true Sample.opened))
     = trace Sample.opened ++ new
     ∧ StronglySorted lt (dones new)
     ∧ length (terminals new) = 1%nat)
  ∧ (closing "job" Flaky.closed_early
     ∧ ∃ new,
         trace (snd (job Sample.cv (Some "job") Sample.five true
                       Flaky.closed_early))
         = trace Flaky.closed_early ++ new
         ∧ terminals new = []).
Proof.
  assert (Ht : Js.truthy (Some "job") = true) by reflexivity.
  assert (Hjob : is_Some (sseClients Sample.opened !! "job"))
    by (exists 1%nat; vm_compute; reflexivity).
  assert (Hjob' : is_Some (sseClients Flaky.closed_early !! "job"))
    by (exists 1%nat; vm_compute; reflexivity).
  assert (Hok : forallb (unit_ok Sample.cv) (units Sample.five) = true)
    by (vm_compute; reflexivity).
  split.
  - destruct (progress_is_ordered_and_the_terminal_event_is_last Sample.cv
                "job" Sample.five true Sample.opened Ht Hjob)
      as (new & H & Hs & _ & _ & Hdone & _).
    exists new. split; [exact H|]. split; [exact Hs|].
    exact (proj2 (proj2 (Hdone sample_registered Hok eq_refl))).
  - split; [exact sample_closed_early|].
    destruct (progress_is_ordered_and_the_terminal_event_is_last Sample.cv
                "job" Sample.five true Flaky.closed_early Ht Hjob')
      as (new & H & _ & _ & _ & _ & Hclose).
    exists new. split; [exact H | exact (Hclose sample_closed_early)].
Defined.




(** ** Where the claims fail *)


(** C3 fails when a unit fails: of three selected units the second one
    raises; the failure is not caught, [done] stops at 1 and the only
    progress event is the one of the first unit. *)
Lemma failing_unit_stops_the_counter :
  let r := job Sample.cv (Some "job") (Selections ["101"; "102"] ["101"] [] [])
             true Sample.opened in
  total_of (Selections ["101"; "102"] ["101"] [] []) = 3%nat
  ∧ fst r = Crashed (UpstreamFailure "module listing")
  ∧ dones (trace (snd r)) = [1%nat]
  ∧ terminals (trace (snd r)) = [].
Proof. by vm_compute. Qed.


(** After the abort the progress events go on until the close of the
    events connection reaches the server: aborted while the first of five
    units is being fetched, the job still reports the units 1 and 2; the
    close arrives while the third is being fetched, and nothing is written
    from then on. *)
Lemma progress_goes_on_until_the_close :
  trace (snd (job Sample.cv (Some "job") Sample.five true Flaky.closed_later))
  = [Piped;
     Fetch (GetModules "101"); Fetch (GetFile 7);
     Fetch (GetBytes "https://files.test/7"); Aborted;
     Append "101/Modules/Unit 1_Intro/a\b.pdf" "%PDF";
     Write 1 ProgressHead; Write 1 (ProgressData 1 5 "Modules for 101");
     Fetch (GetModules "104");
     Write 1 ProgressHead; Write 1 (ProgressData 2 5 "Modules for 104");
     Fetch (GetModules "105");
     Fetch (GetSyllabusAttachments "101");
     Fetch (GetSyllabusAttachments "104");
     Finalize].
Proof. by vm_compute. Qed.

(** C8 fails for a job whose channel is closed while it runs: five units
    that all succeed, the events connection closed during the first; the
    job runs to completion with [done] at 5, and neither a progress event
    nor the terminal event is ever written. *)
Lemma closed_channel_gets_no_terminal_event :
  let r := job Sample.cv (Some "job") Sample.five true Flaky.closed_early in
  forallb (unit_ok Sample.cv) (units Sample.five) = true
  ∧ fst r = Finished 5
  ∧ dones (trace (snd r)) = []
  ∧ terminals (trace (snd r)) = [].
Proof. by vm_compute. Qed.

(** * Further properties *)

(** ** The link-header parser on arbitrary headers *)

Section ParserAnyHeader.

#[local] Arguments String.append !_ _ : simpl nomatch.

Lemma prefix_nil_l (s : string) : String.prefix EmptyString s = true.
Proof. by destruct s. Qed.

Lemma prefix_app_r (p s r : string) :
  String.prefix p s = true → String.prefix p (s +:+ r) = true.
Proof.
  revert s. induction p as [|a p IH]; intros s H; [apply prefix_nil_l|].
  destruct s as [|b s]; [discriminate H|].
  rewrite append_cons, prefix_cons in *.
  destruct (ascii_dec a b); [by apply IH | discriminate H].
Qed.

Lemma test_unfold pat (s : string) :
  Js.test pat s
  = String.prefix pat s
    || match s with EmptyString => false | String _ t => Js.test pat t end.
Proof. by destruct s. Qed.

Lemma test_app_r pat (s r : string) :
  Js.test pat s = true → Js.test pat (s +:+ r) = true.
Proof.
  induction s as [|a s IH]; intros H.
  - rewrite test_unfold, orb_false_r in H.
    rewrite append_nil, test_unfold.
    apply (prefix_app_r _ _ r) in H. rewrite append_nil in H. by rewrite H.
  - rewrite test_cons in H. rewrite append_cons, test_cons.
    apply orb_true_iff in H as [H|H].
    + apply (prefix_app_r _ _ r) in H. rewrite append_cons in H. by rewrite H.
    + by rewrite (IH H), orb_true_r.
Qed.

Lemma test_tail pat a (t : string) :
  Js.test pat t = true → Js.test pat (String a t) = true.
Proof. intros H. by rewrite test_cons, H, orb_true_r. Qed.

Lemma split_head_prefix c (s : string) :
  ∃ r, s = hd EmptyString (Js.split c s) +:+ r.
Proof.
  induction s as [|a s [r IH]]; [by exists EmptyString|].
  cbn [Js.split]. destruct (Ascii.eqb a c).
  - by exists (String a s).
  - destruct (Js.split c s) as [|p ps] eqn:E.
    + by destruct (split_not_nil c s).
    + exists r. cbn [hd] in *. rewrite append_cons. by f_equal.
Qed.

Lemma test_split pat c (s x : string) :
  x ∈ Js.split c s → Js.test pat x = true → Js.test pat s = true.
Proof.
  revert x. induction s as [|a s IH]; intros x Hx Ht.
  - cbn in Hx. by apply list_elem_of_singleton in Hx as ->.
  - cbn [Js.split] in Hx. destruct (Ascii.eqb a c).
    + apply elem_of_cons in Hx as [->|Hx].
      * apply (test_app_r _ _ (String a s)) in Ht. by rewrite append_nil in Ht.
      * by apply test_tail, (IH x).
    + destruct (split_head_prefix c s) as [r Hr].
      destruct (Js.split c s) as [|p ps] eqn:E;
        [by destruct (split_not_nil c s)|].
      cbn [hd] in Hr.
      apply elem_of_cons in Hx as [->|Hx].
      * rewrite Hr, <- append_cons. by apply test_app_r.
      * apply test_tail, (IH x); [by right | done].
Qed.

Lemma test_trimStart pat (s : string) :
  Js.test pat (Js.trimStart s) = true → Js.test pat s = true.
Proof.
  induction s as [|a s IH]; [done|]. cbn [Js.trimStart].
  destruct (Js.is_space a); [|done]. intros H. by apply test_tail, IH.
Qed.

Lemma trimEnd_prefix (s : string) : ∃ r, s = Js.trimEnd s +:+ r.
Proof.
  induction s as [|a s [r IH]]; [by exists EmptyString|].
  cbn [Js.trimEnd]. destruct (Js.trimEnd s) as [|b t] eqn:E.
  - destruct (Js.is_space a).
    + by exists (String a s).
    + exists s. by rewrite append_cons, append_nil.
  - exists r. rewrite append_cons. by f_equal.
Qed.

Lemma test_trim pat (s : string) :
  Js.test pat (Js.trim s) = true → Js.test pat s = true.
Proof.
  unfold Js.trim. intros H. apply test_trimStart.
  destruct (trimEnd_prefix (Js.trimStart s)) as [r Hr].
  rewrite Hr. by apply test_app_r.
Qed.

Lemma scan_parts_none parts :
  (∀ part, part ∈ parts → Js.test rel_next part = false) →
  scan_parts parts = None.
Proof.
  induction parts as [|part parts IH]; intros H; [done|].
  cbn [scan_parts].
  assert (Hrel : Js.test rel_next
            (Js.to_string (Js.split ";" (Js.trim part) !! 1)) = false).
  { destruct (Js.split ";" (Js.trim part) !! 1) as [r|] eqn:E; [|by vm_compute].
    cbn [Js.to_string]. destruct (Js.test rel_next r) eqn:Hr; [|done].
    apply list_elem_of_lookup_2 in E.
    apply (test_split _ _ _ _ E), test_trim in Hr.
    rewrite H in Hr; [done | by left]. }
  rewrite Hrel. apply IH. intros p Hp. apply H. by right.
Qed.

End ParserAnyHeader.

(** X1. Without the text [rel="next"] somewhere in the header, whatever
    else it holds and however it is formed, [getNextPage] answers [null]:
    the pagination loop cannot be led on by a header without a [next]
    relation. *)
Theorem header_without_next_gives_null (h : string) :
  Js.test rel_next h = false → getNextPage (Some h) = None.
Proof.
  intros H. unfold getNextPage. destruct (negb (Js.truthy (Some h))); [done|].
  cbn [Js.to_string]. apply scan_parts_none. intros part Hpart.
  destruct (Js.test rel_next part) eqn:E; [|done].
  apply (test_split _ _ _ _ Hpart) in E. congruence.
Qed.

(** A header with relations [prev] and [last] only. *)
Lemma header_without_next_gives_null_witness :
  getNextPage
    (Some ("<https://canvas.test/a?page=1>; rel=" +:+ String Js.dquote
             ("prev" +:+ String Js.dquote
                (",<https://canvas.test/a?page=9>; rel=" +:+ String Js.dquote
                   ("last" +:+ String Js.dquote EmptyString)))))
  = None.
Proof.
  apply header_without_next_gives_null. vm_compute. reflexivity.
Defined.

(** ** Link headers with white space around the entries *)

Section PaddedHeaders.

#[local] Arguments String.append !_ _ : simpl nomatch.

Lemma blank_no_comma (s : string) : blank s = true → has_char "," s = false.
Proof.
  induction s as [|a s IH]; [done|]. cbn [blank has_char].
  intros [Ha Hs]%andb_true_iff. rewrite (IH Hs), orb_false_r.
  destruct (Ascii.eqb_spec a ",") as [->|]; [discriminate Ha | done].
Qed.

Lemma trimStart_blank (l s : string) :
  blank l = true → Js.trimStart (l +:+ s) = Js.trimStart s.
Proof.
  induction l as [|a l IH]; [done|]. cbn [blank].
  intros [Ha Hl]%andb_true_iff. rewrite append_cons. cbn [Js.trimStart].
  rewrite Ha. by apply IH.
Qed.

Lemma trimEnd_blank (t : string) : blank t = true → Js.trimEnd t = EmptyString.
Proof.
  induction t as [|a t IH]; [done|]. cbn [blank Js.trimEnd].
  intros [Ha Ht]%andb_true_iff. by rewrite (IH Ht), Ha.
Qed.

Lemma trimEnd_closed_blank (s t : string) b :
  Js.is_space b = false → blank t = true →
  Js.trimEnd (s +:+ String b t) = s +:+ String b EmptyString.
Proof.
  intros Hb Ht. induction s as [|c s IH].
  - rewrite !append_nil. cbn [Js.trimEnd]. by rewrite trimEnd_blank, Hb.
  - rewrite !append_cons. cbn [Js.trimEnd]. rewrite IH. by destruct s.
Qed.

Lemma render_entry_shape e :
  render_entry e
  = String "<" ((target e +:+ ">; rel=" +:+ String Js.dquote (rel e))
                  +:+ String Js.dquote EmptyString).
Proof.
  unfold render_entry. rewrite append_cons, append_nil. f_equal.
  rewrite !append_assoc. f_equal.
Qed.

Lemma trim_padded p :
  padded_ok p = true → Js.trim (render_padded p) = render_entry (entry p).
Proof.
  unfold padded_ok. intros [[Hl Ht]%andb_true_iff _]%andb_true_iff.
  unfold render_padded, Js.trim. rewrite trimStart_blank by done.
  rewrite render_entry_shape.
  generalize (target (entry p) +:+ ">; rel=" +:+ String Js.dquote (rel (entry p))).
  intros x. rewrite append_cons.
  change (Js.trimStart (String "<" ((x +:+ String Js.dquote EmptyString)
                                     +:+ trail p)))
    with (String "<" ((x +:+ String Js.dquote EmptyString) +:+ trail p)).
  rewrite append_assoc.
  change (String Js.dquote EmptyString +:+ trail p)
    with (String Js.dquote (trail p)).
  exact (trimEnd_closed_blank (String "<" x) (trail p) Js.dquote eq_refl Ht).
Qed.

Lemma render_padded_comma p :
  padded_ok p = true → has_char "," (render_padded p) = false.
Proof.
  intros H. pose proof H as [[Hl Ht]%andb_true_iff He]%andb_true_iff.
  unfold render_padded. rewrite !has_char_app.
  by rewrite (blank_no_comma _ Hl), (blank_no_comma _ Ht), render_entry_comma.
Qed.

Lemma split_render_padded ps :
  forallb padded_ok ps = true → ps ≠ [] →
  Js.split "," (render_link_padded ps) = render_padded <$> ps.
Proof.
  induction ps as [|p ps IH]; [done|]. intros H _.
  apply andb_true_iff in H as [Hp Hps].
  destruct ps as [|p' ps].
  - simpl. by rewrite split_clean by by apply render_padded_comma.
  - change (render_link_padded (p :: p' :: ps))
      with (render_padded p +:+ String "," (render_link_padded (p' :: ps))).
    rewrite split_app by by apply render_padded_comma.
    rewrite IH by done. reflexivity.
Qed.

Lemma scan_padded ps :
  forallb padded_ok ps = true →
  scan_parts (render_padded <$> ps) = next_of (entry <$> ps).
Proof.
  induction ps as [|p ps IH]; [reflexivity|]. intros H.
  apply andb_true_iff in H as [Hp Hps].
  pose proof Hp as [_ He]%andb_true_iff.
  rewrite !fmap_cons.
  assert (Hsame : scan_parts (render_padded p :: (render_padded <$> ps))
                  = scan_parts (render_entry (entry p) :: (render_padded <$> ps))).
  { cbn [scan_parts]. rewrite trim_padded by done.
    rewrite (render_entry_shape (entry p)), trim_closed by reflexivity. done. }
  rewrite Hsame, scan_entry by done. cbn [next_of].
  destruct (String.eqb (rel (entry p)) "next"); [reflexivity | by apply IH].
Qed.

Lemma truthy_app_r (s t : string) :
  Js.truthy (Some t) = true → Js.truthy (Some (s +:+ t)) = true.
Proof. destruct s; [done|]. by rewrite append_cons. Qed.

Lemma truthy_app_l (s t : string) :
  Js.truthy (Some s) = true → Js.truthy (Some (s +:+ t)) = true.
Proof. destruct s; [done|]. by rewrite append_cons. Qed.

End PaddedHeaders.

(** X2. White space before and after the entries of a link header, such
    as the space that many servers put after each comma, does not change
    what [getNextPage] finds: the URL of the first entry whose relation is
    [next], or [null]. *)
Theorem padded_header_is_parsed_alike (ps : list padded_entry) :
  forallb padded_ok ps = true →
  getNextPage (Some (render_link_padded ps)) = next_of (entry <$> ps).
Proof.
  intros H. destruct ps as [|p ps]; [reflexivity|].
  unfold getNextPage.
  assert (Ht : Js.truthy (Some (render_link_padded (p :: ps))) = true).
  { assert (Hp : Js.truthy (Some (render_padded p)) = true).
    { unfold render_padded. apply truthy_app_r, truthy_app_l.
      by rewrite render_entry_shape. }
    destruct ps; [done|]. by apply truthy_app_l. }
  rewrite Ht. cbn [negb Js.to_string].
  rewrite split_render_padded by done. by apply scan_padded.
Qed.

(** Two entries separated by a comma and a space, with a trailing
    newline. *)
Lemma padded_header_is_parsed_alike_witness :
  getNextPage
    (Some (render_link_padded
             [Padded EmptyString
                (LinkEntry "https://canvas.test/a?page=1" "current") EmptyString;
              Padded " " (LinkEntry "https://canvas.test/a?page=2" "next")
                (String "010" EmptyString)]))
  = Some "https://canvas.test/a?page=2".
Proof.
  apply (padded_header_is_parsed_alike
           [Padded EmptyString (LinkEntry "https://canvas.test/a?page=1" "current")
              EmptyString;
            Padded " " (LinkEntry "https://canvas.test/a?page=2" "next")
              (String "010" EmptyString)]).
  vm_compute. reflexivity.
Defined.

(** ** Pagination that fails or does not end *)

Section PagesGoOn.

Variable enrollments_at : string -> reply (response (list enrollment)).

Lemma leads_to_truthy pages url target :
  Js.truthy (Some url) = true →
  leads_to enrollments_at url pages target →
  Js.truthy (Some target) = true.
Proof.
  revert url. induction pages as [|p rest IH]; intros url Hurl H.
  - cbn in H. by subst.
  - destruct H as (_ & _ & _ & Hes & Hnext).
    destruct (next_of (default [] (links p))) as [next|] eqn:E; [|done].
    apply (IH next); [by eapply next_of_truthy | done].
Qed.

(** The loop passes the pages of a chain one by one, and runs out of fuel
    if it has less fuel than there are pages. *)
Lemma enrollment_pages_leads pages :
  ∀ fuel url target asked acc,
    Js.truthy (Some url) = true →
    leads_to enrollments_at url pages target →
    enrollment_pages enrollments_at fuel (Some url) asked acc
    = if (fuel <? length pages)%nat then None
      else enrollment_pages enrollments_at (fuel - length pages) (Some target)
             (asked ++ (at_url <$> pages))
             (acc ++ concat (records <$> pages)).
Proof.
  induction pages as [|p rest IH]; intros fuel url target asked acc Hurl H.
  - cbn in H. subst. cbn [length fmap list_fmap concat].
    rewrite Nat.sub_0_r, !app_nil_r. done.
  - destruct H as (-> & Hat & Hok & Hes & Hnext).
    destruct (next_of (default [] (links p))) as [next|] eqn:E; [|done].
    destruct fuel as [|fuel]; cbn [enrollment_pages]; rewrite Hurl;
      cbn [negb]; [done|].
    cbn [Js.to_string]. rewrite Hat, Hok. cbn [negb json link response_of].
    rewrite getNextPage_header, E by done.
    rewrite (IH fuel next target); [|by eapply next_of_truthy|done].
    cbn [length]. change (S fuel <? S (length rest))%nat
      with (fuel <? length rest)%nat.
    destruct (fuel <? length rest)%nat; [done|].
    rewrite !fmap_cons, concat_cons. cbn [Nat.sub].
    by rewrite <- !app_assoc.
Qed.

Lemma enrollment_pages_failure fuel url asked acc e :
  Js.truthy (Some url) = true →
  page_failure (enrollments_at url) = Some e →
  enrollment_pages enrollments_at (S fuel) (Some url) asked acc
  = Some (Throw e, asked ++ [url]).
Proof.
  intros Hurl Hfail. cbn [enrollment_pages]. rewrite Hurl.
  cbn [negb Js.to_string]. unfold page_failure in Hfail.
  destruct (enrollments_at url) as [resp|e']; [|by inversion Hfail].
  destruct (negb (ok resp)); [by inversion Hfail|].
  destruct (json resp); [discriminate Hfail | by inversion Hfail].
Qed.

End PagesGoOn.

Lemma enrollUrl_truthy CANVAS_URL : Js.truthy (Some (enrollUrl CANVAS_URL)) = true.
Proof. unfold enrollUrl. by apply truthy_app_r. Qed.

(** X3. A page of the enrollment listing that cannot be read, at any depth
    of the pagination, fails the whole catalog: the records of the pages
    read before it are dropped, no course metadata is requested, and the
    catalog request is answered with status 500 and the error of that
    page. *)
Theorem failed_page_fails_the_catalog (CANVAS_URL : string)
    (enrollments_at : string → reply (response (list enrollment)))
    (course_at : Z → reply (response course_json))
    (pages : list served) (bad : string) (e : error) (fuel : nat) :
  leads_to enrollments_at (enrollUrl CANVAS_URL) pages bad →
  page_failure (enrollments_at bad) = Some e →
  (length pages < fuel)%nat →
  enrollment_pages enrollments_at fuel (Some (enrollUrl CANVAS_URL)) [] []
  = Some (Throw e, (at_url <$> pages) ++ [bad])
  ∧ fetchAllCourses CANVAS_URL enrollments_at course_at fuel = Some (Throw e)
  ∧ api_courses CANVAS_URL enrollments_at course_at fuel
    = Some (500%Z, Throw e).
Proof.
  intros Hleads Hfail Hfuel.
  assert (Hpages :
    enrollment_pages enrollments_at fuel (Some (enrollUrl CANVAS_URL)) [] []
    = Some (Throw e, (at_url <$> pages) ++ [bad])).
  { rewrite (enrollment_pages_leads enrollments_at pages fuel _ bad)
      by (done || apply enrollUrl_truthy).
    assert (Hlt : (fuel <? length pages)%nat = false) by (apply Nat.ltb_ge; lia).
    rewrite Hlt.
    destruct (fuel - length pages)%nat as [|k] eqn:Ek; [lia|].
    apply enrollment_pages_failure; [|done].
    eapply leads_to_truthy; [apply enrollUrl_truthy | done]. }
  split; [exact Hpages|].
  unfold api_courses, fetchAllCourses. by rewrite Hpages.
Qed.

(** The second page of the sample listing answers 503. *)
Lemma failed_page_fails_the_catalog_witness :
  api_courses Sample.CANVAS_URL Broken.enrollments_at Sample.course_at 2
  = Some (500%Z, Throw (EnrollmentFetchFailed 503)).
Proof.
  assert (Hleads : leads_to Broken.enrollments_at (enrollUrl Sample.CANVAS_URL)
                     [Sample.first_page] Sample.second_url)
    by (vm_compute; repeat split).
  assert (Hfail : page_failure (Broken.enrollments_at Sample.second_url)
                  = Some (EnrollmentFetchFailed 503)) by reflexivity.
  assert (Hfuel : (length [Sample.first_page] < 2)%nat) by (simpl; lia).
  exact (proj2 (proj2 (failed_page_fails_the_catalog Sample.CANVAS_URL
    Broken.enrollments_at Sample.course_at [Sample.first_page]
    Sample.second_url (EnrollmentFetchFailed 503) 2 Hleads Hfail Hfuel))).
Defined.

(** X4. The pagination loop has no guard against a cycle of [next] links:
    when the pages served lead back to a page already read, the loop never
    ends, and neither does the catalog build. *)
Theorem cyclic_next_links_never_end (CANVAS_URL : string)
    (enrollments_at : string → reply (response (list enrollment)))
    (course_at : Z → reply (response course_json))
    (before cycle : list served) (url : string) :
  leads_to enrollments_at (enrollUrl CANVAS_URL) before url →
  leads_to enrollments_at url cycle url →
  cycle ≠ [] →
  ∀ fuel,
    enrollment_pages enrollments_at fuel (Some (enrollUrl CANVAS_URL)) [] []
    = None
    ∧ fetchAllCourses CANVAS_URL enrollments_at course_at fuel = None
    ∧ api_courses CANVAS_URL enrollments_at course_at fuel = None.
Proof.
  intros Hbefore Hcycle Hne.
  assert (Hurl : Js.truthy (Some url) = true).
  { eapply leads_to_truthy; [apply enrollUrl_truthy | done]. }
  assert (Hloop : ∀ fuel asked acc,
            enrollment_pages enrollments_at fuel (Some url) asked acc = None).
  { intros fuel. induction (lt_wf fuel) as [fuel _ IH]. intros asked acc.
    rewrite (enrollment_pages_leads enrollments_at cycle fuel url url) by done.
    destruct (fuel <? length cycle)%nat eqn:E; [done|].
    apply IH. apply Nat.ltb_ge in E. destruct cycle; [done|]. simpl in *. lia. }
  intros fuel.
  assert (Hpages :
    enrollment_pages enrollments_at fuel (Some (enrollUrl CANVAS_URL)) [] []
    = None).
  { rewrite (enrollment_pages_leads enrollments_at before fuel _ url)
      by (done || apply enrollUrl_truthy).
    destruct (fuel <? length before)%nat; [done | apply Hloop]. }
  split; [exact Hpages|].
  unfold api_courses, fetchAllCourses. by rewrite Hpages.
Qed.

(** The second page of the sample listing names the first as its next
    page. *)
Lemma cyclic_next_links_never_end_witness :
  api_courses Sample.CANVAS_URL Loop.enrollments_at Sample.course_at 1000
  = None.
Proof.
  assert (Hbefore : leads_to Loop.enrollments_at (enrollUrl Sample.CANVAS_URL)
                      [] (enrollUrl Sample.CANVAS_URL)) by reflexivity.
  assert (Hcycle : leads_to Loop.enrollments_at (enrollUrl Sample.CANVAS_URL)
                     [Sample.first_page; Loop.second_page]
                     (enrollUrl Sample.CANVAS_URL))
    by (vm_compute; repeat split).
  assert (Hne : [Sample.first_page; Loop.second_page] ≠ []) by discriminate.
  exact (proj2 (proj2 (cyclic_next_links_never_end Sample.CANVAS_URL
    Loop.enrollments_at Sample.course_at [] [Sample.first_page; Loop.second_page]
    (enrollUrl Sample.CANVAS_URL) Hbefore Hcycle Hne 1000))).
Defined.

(** ** What the catalog holds *)

Section CatalogContents.

Variable course_at : Z -> reply (response course_json).

Lemma fetch_metadata_cons i ids :
  courses (fetch_metadata course_at (i :: ids))
  = courses (fetch_metadata course_at [i]) ++ courses (fetch_metadata course_at ids)
  ∧ warnings (fetch_metadata course_at (i :: ids))
    = warnings (fetch_metadata course_at [i])
      ++ warnings (fetch_metadata course_at ids).
Proof.
  destruct (fetch_metadata_app course_at [i] ids) as (_ & H1 & H2). by split.
Qed.

Lemma fetch_metadata_one_courses i c :
  c ∈ courses (fetch_metadata course_at [i])
  ↔ ∃ cr cj, course_at i = Return cr ∧ ok cr = true
             ∧ json cr = Return cj ∧ c = course_of cj.
Proof.
  unfold fetch_metadata. cbn [fold_left]. unfold metadata_step.
  destruct (course_at i) as [cr|e]; cbn.
  - destruct (ok cr) eqn:Hok; cbn.
    + destruct (json cr) as [cj|e] eqn:Hj; cbn.
      * rewrite list_elem_of_singleton. split.
        -- intros ->. by exists cr, cj.
        -- intros (cr' & cj' & [= <-] & _ & Hj' & ->). congruence.
      * rewrite elem_of_nil. split; [done|].
        intros (cr' & cj' & [= <-] & _ & Hj' & _). congruence.
    + assert (Hnil : ∀ st : catalog, courses st = [] → c ∈ courses st ↔
                ∃ cr0 cj, Return cr = Return cr0 ∧ ok cr0 = true
                          ∧ json cr0 = Return cj ∧ c = course_of cj).
      { intros st ->. rewrite elem_of_nil. split; [done|].
        intros (cr' & cj' & [= <-] & Hok' & _). congruence. }
      destruct (_ || _); by apply Hnil.
  - rewrite elem_of_nil. split; [done|]. by intros (? & ? & [=] & _).
Qed.

Lemma fetch_metadata_one_warnings i :
  warnings (fetch_metadata course_at [i])
  = option_list (metadata_failure i (course_at i)).
Proof.
  unfold fetch_metadata. cbn [fold_left]. unfold metadata_step, metadata_failure.
  destruct (course_at i) as [cr|e]; cbn; [|done].
  destruct (ok cr); cbn.
  - by destruct (json cr).
  - by destruct (_ || _).
Qed.

End CatalogContents.

(** X5. The catalog holds exactly the courses whose metadata request was
    answered with a success status and a readable body, whether they are
    published or not, and never more courses than ids were requested. *)
Theorem catalog_holds_the_fetched_courses
    (course_at : Z → reply (response course_json)) (ids : list Z) (c : course) :
  (c ∈ courses (fetch_metadata course_at ids)
   ↔ ∃ i cr cj, i ∈ ids ∧ course_at i = Return cr ∧ ok cr = true
                ∧ json cr = Return cj ∧ c = course_of cj)
  ∧ (length (courses (fetch_metadata course_at ids)) ≤ length ids)%nat.
Proof.
  induction ids as [|i ids [IH1 IH2]].
  - split; [|done]. cbn. rewrite elem_of_nil. split; [done|].
    intros (i & _ & _ & Hi & _). by apply elem_of_nil in Hi.
  - destruct (fetch_metadata_cons course_at i ids) as [-> _]. split.
    + rewrite elem_of_app, IH1, fetch_metadata_one_courses. split.
      * intros [(cr & cj & H)|(j & cr & cj & Hj & H)].
        -- exists i, cr, cj. split; [by left | done].
        -- exists j, cr, cj. split; [by right | done].
      * intros (j & cr & cj & [->|Hj]%elem_of_cons & H).
        -- left. by exists cr, cj.
        -- right. by exists j, cr, cj.
    + rewrite length_app. cbn [length].
      assert (length (courses (fetch_metadata course_at [i])) ≤ 1)%nat; [|lia].
      unfold fetch_metadata. cbn [fold_left]. unfold metadata_step.
      destruct (course_at i) as [cr|e]; cbn; [|lia].
      destruct (ok cr); cbn; [destruct (json cr) | destruct (_ || _)]; cbn; lia.
Qed.

(** X6. The warnings of a catalog build are the failures of the metadata
    requests, one for each course that failed and in the order of the
    requests: a rejected request and an unreadable body with their own
    error, a status other than success, 403 and 404 with the course id and
    the status; a course answered with 403 or 404 leaves no warning. *)
Theorem warnings_are_the_metadata_failures
    (course_at : Z → reply (response course_json)) (ids : list Z) :
  warnings (fetch_metadata course_at ids)
  = omap (λ i, metadata_failure i (course_at i)) ids.
Proof.
  induction ids as [|i ids IH]; [done|].
  destruct (fetch_metadata_cons course_at i ids) as [_ ->].
  rewrite IH, fetch_metadata_one_warnings. cbn [omap list_omap].
  by destruct (metadata_failure i (course_at i)).
Qed.

(** ** Unique ids keep the order of first occurrence *)

Lemma set_add_nil x : set_add [] x = [x].
Proof.
  unfold set_add. case_bool_decide as H; [by apply elem_of_nil in H | done].
Qed.

Lemma fold_set_add_filter l :
  ∀ seen, fold_left set_add l seen
          = seen ++ filter (λ i, i ∉ seen) (fold_left set_add l []).
Proof.
  induction l as [|x l IH]; intros seen; [by rewrite app_nil_r|].
  cbn [fold_left]. rewrite (IH (set_add seen x)), (IH (set_add [] x)).
  rewrite set_add_nil. cbn [app]. set (L := fold_left set_add l []).
  unfold set_add. case_bool_decide as Hx.
  - rewrite filter_cons_False by (intros H; by apply H).
    f_equal. rewrite list_filter_filter. apply list_filter_iff.
    intros i. split; [|tauto]. intros Hi. split; [done|].
    intros ->%list_elem_of_singleton. done.
  - rewrite filter_cons_True by done.
    rewrite <- app_assoc. cbn [app]. do 2 f_equal.
    rewrite list_filter_filter. apply list_filter_iff.
    intros i. rewrite elem_of_app, list_elem_of_singleton. tauto.
Qed.

(** X7. The unique ids keep the order of first occurrence: the course of
    the first enrollment comes first, followed by the unique ids of the
    remaining enrollments without that course. *)
Theorem unique_ids_keep_first_occurrences (e : enrollment)
    (enrollments : list enrollment) :
  uniqueIds (e :: enrollments)
  = course_id e :: filter (λ i, i ≠ course_id e) (uniqueIds enrollments).
Proof.
  unfold uniqueIds. cbn [map fold_left].
  rewrite (fold_set_add_filter _ (set_add [] (course_id e))), set_add_nil.
  cbn [app]. f_equal. apply list_filter_iff. intros i.
  rewrite list_elem_of_singleton. done.
Qed.

(** ** The progress channel through its life *)

(** X8. A progress event sent after a channel has been opened for its job
    id goes to that channel, right after the line feed written at its
    opening, also when an older channel was registered under the same id;
    the registrations of other job ids are not touched by the opening. *)
Theorem latest_channel_receives_progress (i : string) (h : handle)
    (d n : nat) (m : string) (w : world) :
  Js.truthy (Some i) = true →
  trace (sendProgress i d n m (events_open (Some i) h w))
  = trace w ++ [Write h Preamble; Write h ProgressHead;
                Write h (ProgressData d n m)]
  ∧ ∀ j, j ≠ i →
      sseClients (events_open (Some i) h w) !! j = sseClients w !! j.
Proof.
  intros Ht. unfold events_open. rewrite Ht. cbn [negb Js.to_string]. split.
  - unfold sendProgress. cbn [set_clients sseClients log trace].
    rewrite lookup_insert_eq. cbn. by rewrite <- !app_assoc.
  - intros j Hj. cbn. by rewrite lookup_insert_ne.
Qed.

(** A second channel opened for the sample job replaces the first. *)
Lemma latest_channel_receives_progress_witness :
  trace (sendProgress "job" 1 2 "Modules for 101"
           (events_open (Some "job") 2 Sample.opened))
  = [Write 2 Preamble; Write 2 ProgressHead;
     Write 2 (ProgressData 1 2 "Modules for 101")].
Proof.
  exact (proj1 (latest_channel_receives_progress "job" 2 1 2 "Modules for 101"
                  Sample.opened eq_refl)).
Defined.

(** X9. Whether a download request is accepted follows the registry of
    channels: right after the events connection of its job id has closed
    the request is rejected with status 400, whatever it selects; right
    after one has been opened it is not rejected; and an events request
    without a job id registers nothing. *)
Theorem download_follows_the_registry (cv : canvas) (i : string) (h : handle)
    (sel : selections) (w : world) :
  Js.truthy (Some i) = true →
  download cv (Some i) sel (events_close i w)
  = (BadRequest 400 "Invalid downloadId", events_close i w)
  ∧ (∀ code message,
       fst (download cv (Some i) sel (events_open (Some i) h w))
       ≠ BadRequest code message)
  ∧ events_open None h w = w.
Proof.
  intros Ht. split_and!.
  - unfold download. rewrite Ht. cbn [negb orb Js.to_string].
    rewrite bool_decide_eq_false_2; [done|].
    cbn. rewrite lookup_delete_eq. by intros [? ?].
  - intros code message. rewrite download_open; [|done|].
    + by destruct (script cv i (total_of sel) (units sel) 0) as [acts [d|e]].
    + unfold events_open. rewrite Ht. cbn. rewrite lookup_insert_eq. by eexists.
  - reflexivity.
Qed.

(** The sample job after its events connection has closed. *)
Lemma download_follows_the_registry_witness :
  fst (download Sample.cv (Some "job") Sample.five
         (events_close "job" Sample.opened))
  = BadRequest 400 "Invalid downloadId".
Proof.
  exact (f_equal fst (proj1 (download_follows_the_registry Sample.cv "job" 1
                               Sample.five Sample.opened eq_refl))).
Defined.

Lemma archive_end_unregisters i w : sseClients (archive_end i w) !! i = None.
Proof.
  unfold archive_end. destruct (sseClients w !! i) eqn:E; [|done].
  cbn. apply lookup_delete_eq.
Qed.

(** X10. A job id serves one download: once a job has finished and its
    archive has ended, the id is no longer registered, whether its channel
    was still open at the end or not, and a further download request with
    the same id is rejected with status 400. *)
Theorem job_id_serves_one_download (cv : canvas) (i : string)
    (sel sel' : selections) (w : world) (d : nat) :
  Js.truthy (Some i) = true →
  is_Some (sseClients w !! i) →
  fst (job cv (Some i) sel true w) = Finished d →
  sseClients (snd (job cv (Some i) sel true w)) !! i = None
  ∧ download cv (Some i) sel' (snd (job cv (Some i) sel true w))
    = (BadRequest 400 "Invalid downloadId", snd (job cv (Some i) sel true w)).
Proof.
  intros Ht Hopen Hfin.
  assert (Hnone : sseClients (snd (job cv (Some i) sel true w)) !! i = None).
  { destruct (script cv i (total_of sel) (units sel) 0) as [acts [d'|e]] eqn:Hs.
    - rewrite (job_finishes cv i sel true w acts d') by done.
      apply archive_end_unregisters.
    - rewrite (job_crashes cv i sel true w acts e) in Hfin by done.
      discriminate Hfin. }
  split; [exact Hnone|].
  unfold download. rewrite Ht. cbn [negb orb Js.to_string].
  rewrite bool_decide_eq_false_2; [done|]. rewrite Hnone. by intros [? ?].
Qed.

(** The sample job with three units that all succeed, then a second
    request with its id. *)
Lemma job_id_serves_one_download_witness :
  fst (download Sample.cv (Some "job") Sample.five
         (snd (job Sample.cv (Some "job")
                 (Selections ["101"; "104"] ["101"] [] []) true Sample.opened)))
  = BadRequest 400 "Invalid downloadId".
Proof.
  assert (Ht : Js.truthy (Some "job") = true) by reflexivity.
  assert (Hjob : is_Some (sseClients Sample.opened !! "job"))
    by (exists 1%nat; vm_compute; reflexivity).
  assert (Hfin : fst (job Sample.cv (Some "job")
                        (Selections ["101"; "104"] ["101"] [] []) true
                        Sample.opened) = Finished 3)
    by (vm_compute; reflexivity).
  exact (f_equal fst (proj2 (job_id_serves_one_download Sample.cv "job"
    (Selections ["101"; "104"] ["101"] [] []) Sample.five Sample.opened 3
    Ht Hjob Hfin))).
Defined.

(** ** The work of a job that succeeds *)

(** X11. A job whose units all succeed does the work of its units in the
    order modules, syllabus, pages, submissions, and within a category in
    the order selected, a course selected twice being fetched twice; the
    archive is finalized after the work of the last unit, whatever the
    clients do meanwhile. *)
Theorem finished_job_does_every_unit_in_order (cv : canvas) (i : string)
    (sel : selections) (ends : bool) (w : world) :
  Js.truthy (Some i) = true →
  is_Some (sseClients w !! i) →
  forallb (unit_ok cv) (units sel) = true →
  ∃ new,
    fst (job cv (Some i) sel ends w) = Finished (total_of sel)
    ∧ trace (snd (job cv (Some i) sel ends w)) = trace w ++ new
    ∧ own new = Piped :: concat (unit_work cv <$> units sel) ++ [Finalize].
Proof.
  intros Ht Hopen Hok.
  destruct (script_all_ok cv i (total_of sel) (units sel) 0 Hok)
    as (Hr & _ & Hw).
  destruct (script cv i (total_of sel) (units sel) 0) as [acts r] eqn:Hs.
  cbn [fst snd] in *. subst r. rewrite units_length in *.
  rewrite (job_finishes cv i sel ends w acts (total_of sel)) by done.
  cbn [fst snd].
  destruct (job_actions cv i sel) as [_ Hacts]. rewrite Hs in Hacts.
  cbn [fst] in Hacts.
  destruct (body_trace i (total_of sel) _ w Hacts) as (body & H & O & _).
  assert (Hwork : own body
                  = Piped :: concat (unit_work cv <$> units sel) ++ [Finalize]).
  { rewrite O.
    change (works (Work Piped :: acts ++ [Work Finalize]))
      with (Piped :: works (acts ++ [Work Finalize])).
    rewrite works_app, Hw. done. }
  destruct ends; [|by exists body].
  destruct (archive_end_trace i
              (drain (run (Work Piped :: acts ++ [Work Finalize]) w)))
    as [[_ ->]|(h & _ & Hend)]; [by exists body|].
  exists (body ++ [Write h DoneFrame; End h]).
  rewrite Hend, H, <- app_assoc, own_app, Hwork.
  split_and!; try done. apply app_nil_r.
Qed.

(** Course 101 selected twice for its modules is fetched twice. *)
Lemma finished_job_does_every_unit_in_order_witness :
  ∃ new,
    fst (job Sample.cv (Some "job") (Selections ["101"; "101"] [] [] []) true
           Sample.opened) = Finished 2
    ∧ trace (snd (job Sample.cv (Some "job")
                    (Selections ["101"; "101"] [] [] []) true Sample.opened))
      = trace Sample.opened ++ new
    ∧ own new
      = Piped :: concat (unit_work Sample.cv
                           <$> [(Modules, "101"); (Modules, "101")])
          ++ [Finalize].
Proof.
  assert (Ht : Js.truthy (Some "job") = true) by reflexivity.
  assert (Hjob : is_Some (sseClients Sample.opened !! "job"))
    by (exists 1%nat; vm_compute; reflexivity).
  assert (Hok : forallb (unit_ok Sample.cv)
                  (units (Selections ["101"; "101"] [] [] [])) = true)
    by (vm_compute; reflexivity).
  exact (finished_job_does_every_unit_in_order Sample.cv "job"
           (Selections ["101"; "101"] [] [] []) true Sample.opened Ht Hjob Hok).
Defined.

(** ** A job without client events *)

Section Idle.

Variables (i : string) (h : handle) (total : nat).

Lemma frames_app t t' : frames (t ++ t') = frames t ++ frames t'.
Proof. apply omap_app. Qed.

Lemma written_to_app t t' : written_to (t ++ t') = written_to t ++ written_to t'.
Proof. apply omap_app. Qed.

Lemma announcements_app a b : announcements (a ++ b) = announcements a ++ announcements b.
Proof. apply omap_app. Qed.

Lemma announcements_work os : announcements (Work <$> os) = [].
Proof. induction os as [|o os IH]; [done|]. by rewrite fmap_cons. Qed.

Lemma perform_idle a w :
  job_action i total a → schedule w = [] → sseClients w !! i = Some h →
  sseClients (perform a w) = sseClients w ∧ schedule (perform a w) = []
  ∧ ∃ new, trace (perform a w) = trace w ++ new
      ∧ frames new = (λ r, (h, r.1.1, r.1.2, r.2)) <$> announcements [a]
      ∧ Forall (λ h', h' = h) (written_to new).
Proof.
  intros Ha Hs Hh. destruct a as [o|j d t m].
  - assert (Hlog : perform (Work o) w = log o w).
    { destruct o; try done. cbn [perform]. by apply deliver_idle. }
    rewrite Hlog. split_and!; try done. exists [o]. split; [done|].
    cbn in Ha. by destruct o.
  - destruct Ha as [-> _]. cbn [perform]. unfold sendProgress. rewrite Hh.
    split_and!; try done.
    exists [Write h ProgressHead; Write h (ProgressData d t m)].
    cbn. rewrite <- app_assoc. split_and!; try done. by repeat constructor.
Qed.

Lemma run_idle acts w :
  Forall (job_action i total) acts →
  schedule w = [] → sseClients w !! i = Some h →
  sseClients (run acts w) = sseClients w ∧ schedule (run acts w) = []
  ∧ ∃ new, trace (run acts w) = trace w ++ new
      ∧ frames new = (λ r, (h, r.1.1, r.1.2, r.2)) <$> announcements acts
      ∧ Forall (λ h', h' = h) (written_to new).
Proof.
  intros Hacts. revert w. induction Hacts as [|a acts Ha _ IH]; intros w Hs Hh.
  - split_and!; try done. exists []. by rewrite app_nil_r.
  - rewrite run_cons.
    destruct (perform_idle a w Ha Hs Hh) as (C1 & S1 & n1 & H1 & F1 & W1).
    destruct (IH (perform a w) S1) as (C2 & S2 & n2 & H2 & F2 & W2);
      [by rewrite C1|].
    split_and!; [congruence|done|].
    exists (n1 ++ n2). rewrite H2, H1, <- app_assoc, frames_app, written_to_app.
    split_and!; [done| |by apply Forall_app].
    change (a :: acts) with ([a] ++ acts).
    by rewrite announcements_app, fmap_app, F1, F2.
Qed.

Lemma drain_idle w : schedule w = [] → drain w = w.
Proof. destruct w as [m t s]. cbn. by intros ->. Qed.

End Idle.

Lemma script_announcements cv i total us :
  ∀ n0, forallb (unit_ok cv) us = true →
        announcements (fst (script cv i total us n0))
        = imap (λ k u, (S (n0 + k), total, label u)) us.
Proof.
  induction us as [|u us IH]; intros n0 Hok; [done|].
  cbn [forallb] in Hok. apply andb_true_iff in Hok as [Hu Hus].
  unfold unit_ok in Hu. cbn [script].
  destruct (unit_result cv u) as [[]|e]; [|discriminate Hu].
  specialize (IH (S n0) Hus).
  destruct (script cv i total us (S n0)) as [acts r]. cbn [fst] in *.
  rewrite announcements_app, announcements_work. cbn [app imap].
  change (announcements (Progress i (S n0) total (label u) :: acts))
    with ((S n0, total, label u) :: announcements acts).
  rewrite IH, Nat.add_0_r. f_equal. apply imap_ext. intros k x _. cbn.
  do 3 f_equal. lia.
Qed.

(** The trace of a job that starts with its channel open as [h] and is
    not disturbed by client events. *)
Lemma idle_job_trace cv i h sel ends w :
  Js.truthy (Some i) = true →
  sseClients w !! i = Some h →
  schedule w = [] →
  ∃ new acts,
    acts = fst (script cv i (total_of sel) (units sel) 0)
    ∧ trace (snd (job cv (Some i) sel ends w)) = trace w ++ new
    ∧ frames new = (λ r, (h, r.1.1, r.1.2, r.2)) <$> announcements acts
    ∧ Forall (λ h', h' = h) (written_to new)
    ∧ ∀ j, j ≠ i → sseClients (snd (job cv (Some i) sel ends w)) !! j
                   = sseClients w !! j.
Proof.
  intros Ht Hh Hs.
  assert (Hopen : is_Some (sseClients w !! i)) by by eexists.
  destruct (job_actions cv i sel) as [Hcrash Hfull].
  destruct (script cv i (total_of sel) (units sel) 0) as [acts [d|e]] eqn:E;
    cbn [fst] in *.
  - rewrite (job_finishes cv i sel ends w acts d) by done. cbn [snd].
    destruct (run_idle i h (total_of sel) _ w Hfull Hs Hh)
      as (C & S & new & H & F & W).
    rewrite drain_idle by done.
    assert (Hann : announcements (Work Piped :: acts ++ [Work Finalize])
                   = announcements acts).
    { change (announcements (Work Piped :: acts ++ [Work Finalize]))
        with (announcements (acts ++ [Work Finalize])).
      by rewrite announcements_app, app_nil_r. }
    rewrite Hann in F.
    destruct ends.
    + unfold archive_end. rewrite C, Hh.
      exists (new ++ [Write h DoneFrame; End h]), acts.
      cbn [set_clients log trace sseClients].
      rewrite H, <- !app_assoc, frames_app, written_to_app, F.
      split_and!; try done.
      * cbn. by rewrite app_nil_r.
      * apply Forall_app. split; [done | by repeat constructor].
      * intros j Hj. by rewrite lookup_delete_ne.
    + exists new, acts. split_and!; try done. intros j _. by rewrite C.
  - rewrite (job_crashes cv i sel ends w acts e) by done. cbn [snd].
    destruct (run_idle i h (total_of sel) _ w Hcrash Hs Hh)
      as (C & S & new & H & F & W).
    rewrite drain_idle by done.
    exists new, acts. split_and!; try done. intros j _. by rewrite C.
Qed.

(** X12. In a job whose units all succeed and whose channel stays as it
    was opened, the progress events are, unit by unit in the order of the
    units, the count of units done so far, the total, and the message
    naming the category and the course, all written to that channel. *)
Theorem progress_events_name_the_units (cv : canvas) (i : string) (h : handle)
    (sel : selections) (ends : bool) (w : world) :
  Js.truthy (Some i) = true →
  sseClients w !! i = Some h →
  schedule w = [] →
  forallb (unit_ok cv) (units sel) = true →
  ∃ new,
    trace (snd (job cv (Some i) sel ends w)) = trace w ++ new
    ∧ frames new = imap (λ k u, (h, S k, total_of sel, label u)) (units sel).
Proof.
  intros Ht Hh Hs Hok.
  destruct (idle_job_trace cv i h sel ends w Ht Hh Hs)
    as (new & acts & -> & H & F & _).
  exists new. split; [done|].
  rewrite F, (script_announcements cv i (total_of sel) (units sel) 0 Hok).
  rewrite fmap_imap. apply imap_ext. by intros k u _.
Qed.

(** The modules of course 101 and the syllabus of course 104. *)
Lemma progress_events_name_the_units_witness :
  ∃ new,
    trace (snd (job Sample.cv (Some "job") (Selections ["101"] ["104"] [] [])
                  true Sample.opened))
    = trace Sample.opened ++ new
    ∧ frames new = [(1, 1, 2, "Modules for 101"); (1, 2, 2, "Syllabus for 104")]%nat.
Proof.
  assert (Ht : Js.truthy (Some "job") = true) by reflexivity.
  assert (Hh : sseClients Sample.opened !! "job" = Some 1%nat)
    by (vm_compute; reflexivity).
  assert (Hs : schedule Sample.opened = []) by reflexivity.
  assert (Hok : forallb (unit_ok Sample.cv)
                  (units (Selections ["101"] ["104"] [] [])) = true)
    by (vm_compute; reflexivity).
  exact (progress_events_name_the_units Sample.cv "job" 1
           (Selections ["101"] ["104"] [] []) true Sample.opened Ht Hh Hs Hok).
Defined.

(** X13. A job that is not disturbed by client events writes to no
    channel but its own, whatever the upstream answers, and leaves the
    registrations of all other job ids as they were. *)
Theorem job_writes_to_its_own_channel_only (cv : canvas) (i : string)
    (h : handle) (sel : selections) (ends : bool) (w : world) :
  Js.truthy (Some i) = true →
  sseClients w !! i = Some h →
  schedule w = [] →
  ∃ new,
    trace (snd (job cv (Some i) sel ends w)) = trace w ++ new
    ∧ Forall (λ h', h' = h) (written_to new)
    ∧ ∀ j, j ≠ i → sseClients (snd (job cv (Some i) sel ends w)) !! j
                   = sseClients w !! j.
Proof.
  intros Ht Hh Hs.
  destruct (idle_job_trace cv i h sel ends w Ht Hh Hs)
    as (new & acts & _ & H & _ & W & C).
  by exists new.
Qed.

(** The sample job beside the open channel of another job. *)
Lemma job_writes_to_its_own_channel_only_witness :
  ∃ new,
    trace (snd (job Sample.cv (Some "job") Sample.five true
                  (World {[ "job" := 1; "other" := 2 ]} [] [])))
    = [] ++ new
    ∧ Forall (λ h', h' = 1%nat) (written_to new)
    ∧ ∀ j, j ≠ "job" →
        sseClients (snd (job Sample.cv (Some "job") Sample.five true
                           (World {[ "job" := 1; "other" := 2 ]} [] []))) !! j
        = ({[ "job" := 1; "other" := 2 ]} : gmap string handle) !! j.
Proof.
  assert (Ht : Js.truthy (Some "job") = true) by reflexivity.
  assert (Hh : sseClients (World {[ "job" := 1; "other" := 2 ]} [] []) !! "job"
               = Some 1%nat) by (vm_compute; reflexivity).
  assert (Hs : schedule (World {[ "job" := 1; "other" := 2 ]} [] []) = [])
    by reflexivity.
  exact (job_writes_to_its_own_channel_only Sample.cv "job" 1 Sample.five true
           (World {[ "job" := 1; "other" := 2 ]} [] []) Ht Hh Hs).
Defined.

(** ** What the units read and what they skip *)

Lemma for_of_skip {A} (l : list A) (body : A → M unit) w :
  (∀ x, x ∈ l → ∀ v, body x v = (Return tt, v)) →
  for_of l body w = (Return tt, w).
Proof.
  induction l as [|x l IH]; intros H; [done|].
  cbn [for_of]. rewrite bind_run, H by by left.
  apply IH. intros y Hy. apply H. by right.
Qed.

Lemma for_of_ext {A} (l : list A) (body body' : A → M unit) w :
  (∀ x v, body x v = body' x v) → for_of l body w = for_of l body' w.
Proof.
  intros H. revert w. induction l as [|x l IH]; intros w; [done|].
  cbn [for_of]. rewrite !bind_run, H.
  destruct (body' x w) as [[[]|e] w']; [apply IH | done].
Qed.

Lemma each_course_ext (body body' : string → M unit) lbl i total ids :
  (∀ c v, body c v = body' c v) →
  ∀ n0 w, each_course body lbl i total ids n0 w
          = each_course body' lbl i total ids n0 w.
Proof.
  intros H. induction ids as [|c ids IH]; intros n0 w; [done|].
  cbn [each_course]. rewrite !bind_run, H.
  destruct (body' c w) as [[[]|e] w']; [|done].
  rewrite !bind_run. cbn [act]. apply IH.
Qed.

(** X14. The modules loop requests a file only for an item of type
    [File] with a content id that is not zero: a course whose modules hold
    no such item costs the one listing request and adds nothing to the
    archive. *)
Theorem only_file_items_are_fetched (cv : canvas) (c : string)
    (ms : list module) (w : world) :
  modules_of cv c = Return ms →
  (∀ m it, m ∈ ms → it ∈ module_items m → is_file_item it = false) →
  modules_unit cv c w = (Return tt, deliver (log (Fetch (GetModules c)) w)).
Proof.
  intros Hms Hnone. unfold modules_unit. rewrite Hms, bind_run. cbn [fetch].
  apply for_of_skip. intros m Hm v.
  apply for_of_skip. intros it Hit v'.
  specialize (Hnone m it Hm Hit). unfold is_file_item in Hnone.
  by rewrite Hnone.
Qed.

(** A module with a page, a file without content id and a file with the
    content id zero. *)
Lemma only_file_items_are_fetched_witness :
  modules_unit View.cv "101" Sample.opened
  = (Return tt, deliver (log (Fetch (GetModules "101")) Sample.opened)).
Proof.
  assert (Hms : modules_of View.cv "101"
                = Return [Module_ "Readings"
                            [Item "Page" (Some 5%Z); Item "File" None;
                             Item "File" (Some 0%Z)]]) by reflexivity.
  assert (Hnone : ∀ m it,
            m ∈ [Module_ "Readings"
                   [Item "Page" (Some 5%Z); Item "File" None;
                    Item "File" (Some 0%Z)]] →
            it ∈ module_items m → is_file_item it = false).
  { intros m it ->%list_elem_of_singleton Hit. cbn in Hit.
    repeat (apply elem_of_cons in Hit as [->|Hit]; [reflexivity|]).
    by apply elem_of_nil in Hit. }
  exact (only_file_items_are_fetched View.cv "101" _ Sample.opened Hms Hnone).
Defined.

Lemma submissions_unit_first cv c w :
  submissions_unit (first_submission_only cv) c w = submissions_unit cv c w.
Proof.
  unfold submissions_unit.
  cbn [first_submission_only assignments_of submissions_of bytes_of].
  rewrite !bind_run. cbn [fetch].
  destruct (assignments_of cv c) as [asgs|e]; [|done].
  apply for_of_ext. intros a v. rewrite !bind_run. cbn [fetch].
  destruct (submissions_of cv c (assignment_id a)) as [subs|e]; [|done].
  by destruct subs.
Qed.

(** X15. Of the submissions returned for an assignment only the first is
    ever read: a download against an upstream that returns the first
    submission alone runs exactly as the download against the full
    upstream, in every world. *)
Theorem only_the_first_submission_is_read (cv : canvas)
    (downloadId : option string) (sel : selections) (ends : bool) (w : world) :
  job (first_submission_only cv) downloadId sel ends w
  = job cv downloadId sel ends w.
Proof.
  unfold job. f_equal.
  assert (Hbody : ∀ i v, download_body (first_submission_only cv) i sel v
                         = download_body cv i sel v).
  { intros i v. unfold download_body. rewrite !bind_run. cbn [act].
    rewrite !bind_run.
    change (modules_unit (first_submission_only cv)) with (modules_unit cv).
    change (syllabus_unit (first_submission_only cv)) with (syllabus_unit cv).
    change (pages_unit (first_submission_only cv)) with (pages_unit cv).
    destruct (each_course (modules_unit cv) _ i (total_of sel) (sel_modules sel)
                0 (log Piped v)) as [[d1|e] w1]; [|done].
    rewrite !bind_run.
    destruct (each_course (syllabus_unit cv) _ i (total_of sel)
                (sel_syllabus sel) d1 w1) as [[d2|e] w2]; [|done].
    rewrite !bind_run.
    destruct (each_course (pages_unit cv) _ i (total_of sel) (sel_pages sel)
                d2 w2) as [[d3|e] w3]; [|done].
    rewrite !bind_run.
    by rewrite (each_course_ext _ (submissions_unit cv))
      by apply submissions_unit_first. }
  unfold download. destruct (_ || _); [done|]. by rewrite Hbody.
Qed.

Lemma head_attachments (subs : list submission) atts :
  head subs ≫= attachments = Some atts →
  ∃ s rest, subs = s :: rest ∧ attachments s = Some atts.
Proof. destruct subs as [|s rest]; [done|]. cbn. intros H. by exists s, rest. Qed.

Lemma syllabus_unit_entries cv c : scripted (syllabus_obs cv c) (syllabus_unit cv c).
Proof.
  unfold syllabus_unit. apply scripted_bind_fetch; [done|]. intros atts Hatts.
  apply scripted_for_of. intros a Ha.
  apply scripted_bind_fetch; [done|]. intros st _.
  apply scripted_append. by exists atts, a.
Qed.

Lemma submissions_unit_entries cv c :
  scripted (submissions_obs cv c) (submissions_unit cv c).
Proof.
  unfold submissions_unit. apply scripted_bind_fetch; [done|]. intros asgs Hasgs.
  apply scripted_for_of. intros a Ha.
  apply scripted_bind_fetch; [done|]. intros subs Hsubs.
  destruct (head subs ≫= attachments) as [atts|] eqn:E; [|apply scripted_ret].
  apply head_attachments in E as (s & rest & -> & Hs).
  apply scripted_for_of. intros att Hatt.
  apply scripted_bind_fetch; [done|]. intros st _.
  apply scripted_append. by exists asgs, a, rest, s, atts, att.
Qed.

(** X16. Every archive entry of the syllabus loop is named by the course
    id, the folder [Syllabus] and the file name of an attachment of the
    syllabus page; every archive entry of the submissions loop by the
    course id, the folder [Submissions], the name of an assignment of the
    course and the file name of an attachment of the first submission
    returned for it, each name as the upstream gives it. *)
Theorem syllabus_and_submission_entries_are_named (cv : canvas) (c : string)
    (w : world) :
  (∃ names,
     entry_names (trace (snd (syllabus_unit cv c w)))
     = entry_names (trace w) ++ names
     ∧ Forall (syllabus_entry cv c) names)
  ∧ (∃ names,
       entry_names (trace (snd (submissions_unit cv c w)))
       = entry_names (trace w) ++ names
       ∧ Forall (submissions_entry cv c) names).
Proof.
  split.
  - apply (scripted_entry_names (syllabus_obs cv c)).
    + by intros [].
    + by intros n content Hn.
    + apply syllabus_unit_entries.
  - apply (scripted_entry_names (submissions_obs cv c)).
    + by intros [].
    + by intros n content Hn.
    + apply submissions_unit_entries.
Qed.

(** ** The browser client *)

Lemma filter_bool_sublist {A} (f : A → bool) (l : list A) :
  List.filter f l `sublist_of` l.
Proof.
  induction l as [|x l IH]; [done|]. cbn.
  destruct (f x); [by apply sublist_skip | by apply sublist_cons].
Qed.

Lemma filter_bool_elem {A} (f : A → bool) (l : list A) x :
  x ∈ List.filter f l ↔ x ∈ l ∧ f x = true.
Proof. rewrite !list_elem_of_In. apply filter_In. Qed.

Lemma filter_bool_app {A} (f : A → bool) (l l' : list A) :
  List.filter f (l ++ l') = List.filter f l ++ List.filter f l'.
Proof. apply List.filter_app. Qed.

Lemma elem_of_concat {A} (x : A) (ls : list (list A)) :
  x ∈ concat ls ↔ ∃ l, l ∈ ls ∧ x ∈ l.
Proof.
  induction ls as [|l ls IH].
  - cbn. rewrite elem_of_nil. split; [done|].
    intros (l & Hl & _). by apply elem_of_nil in Hl.
  - rewrite concat_cons, elem_of_app, IH. split.
    + intros [H|(l' & Hl' & H)]; [exists l | exists l']; split; try done.
      * by left.
      * by right.
    + intros (l' & [->|Hl']%elem_of_cons & H); [by left|].
      right. by exists l'.
Qed.

Lemma gather_from cbs :
  ∀ sel,
    fold_left push_selection cbs sel
    = Selections
        (sel_modules sel ++ (cb_id <$> List.filter (wanted Modules) cbs))
        (sel_syllabus sel ++ (cb_id <$> List.filter (wanted Syllabus) cbs))
        (sel_pages sel ++ (cb_id <$> List.filter (wanted Pages) cbs))
        (sel_submissions sel
           ++ (cb_id <$> List.filter (wanted Submissions) cbs)).
Proof.
  induction cbs as [|cb cbs IH]; intros sel.
  - cbn. rewrite !app_nil_r. by destruct sel.
  - cbn [fold_left]. rewrite IH. destruct cb as [k x b].
    destruct b, k;
      cbn [push_selection List.filter wanted cb_checked cb_type cb_id
           same_category andb sel_modules sel_syllabus sel_pages
           sel_submissions];
      rewrite ?fmap_cons, <- ?app_assoc; done.
Qed.

Lemma wanted_partition cbs :
  (length (List.filter (wanted Modules) cbs)
   + length (List.filter (wanted Syllabus) cbs)
   + length (List.filter (wanted Pages) cbs)
   + length (List.filter (wanted Submissions) cbs))%nat
  = length (List.filter cb_checked cbs).
Proof.
  induction cbs as [|[k x b] cbs IH]; [done|].
  destruct b, k;
    cbn [List.filter wanted cb_checked cb_type same_category andb length];
    lia.
Qed.

(** X17. The selections that the download button gathers hold, for each
    category, the ids of the checked boxes of that category in the order
    of the table, so that the total of the request is the number of
    checked boxes; the request is sent unless no box is checked, in which
    case the user is alerted instead. *)
Theorem gather_collects_the_checked_boxes (i : string) (cbs : list checkbox) :
  gather cbs
  = Selections (cb_id <$> List.filter (wanted Modules) cbs)
      (cb_id <$> List.filter (wanted Syllabus) cbs)
      (cb_id <$> List.filter (wanted Pages) cbs)
      (cb_id <$> List.filter (wanted Submissions) cbs)
  ∧ total_of (gather cbs) = length (List.filter cb_checked cbs)
  ∧ downloadBtn_onclick i (gather cbs)
    = if forallb (λ cb, negb (cb_checked cb)) cbs
      then Alert "Select at least one checkbox."
      else Post i (gather cbs).
Proof.
  assert (Hg : gather cbs
    = Selections (cb_id <$> List.filter (wanted Modules) cbs)
        (cb_id <$> List.filter (wanted Syllabus) cbs)
        (cb_id <$> List.filter (wanted Pages) cbs)
        (cb_id <$> List.filter (wanted Submissions) cbs)).
  { unfold gather. by rewrite gather_from. }
  assert (Ht : total_of (gather cbs) = length (List.filter cb_checked cbs)).
  { rewrite Hg. unfold total_of. cbn [sel_modules sel_syllabus sel_pages
      sel_submissions]. rewrite !length_fmap. apply wanted_partition. }
  split_and!; [done|done|].
  assert (Hnone : forallb (λ cb, negb (cb_checked cb)) cbs
                  = Nat.eqb (length (List.filter cb_checked cbs)) 0).
  { clear. induction cbs as [|cb cbs IH]; [done|]. cbn.
    destruct (cb_checked cb); [done | exact IH]. }
  rewrite Hnone, <- Ht. generalize (gather cbs). clear.
  intros [ms ss ps bs]. unfold downloadBtn_onclick, total_of. cbn.
  destruct ms, ss, ps, bs; try done; cbn; rewrite ?andb_false_r; try done.
  all: by destruct (length _ + _ + _)%nat eqn:E; [lia|].
Qed.

Section ViewFacts.

Variable parse_date : string → option Z.

Lemma is_current_dates now c :
  is_current parse_date now c = true
  ↔ ∃ s e a b,
      start_at (course_term c) = Some s ∧ s ≠ EmptyString
      ∧ end_at (course_term c) = Some e ∧ e ≠ EmptyString
      ∧ parse_date s = Some a ∧ parse_date e = Some b
      ∧ (a ≤ now ≤ b)%Z.
Proof.
  unfold is_current.
  destruct (start_at (course_term c)) as [[|x s]|] eqn:Es; cbn.
  - split; [done|]. by intros (s & e & a & b & [= <-] & ? & _).
  - destruct (end_at (course_term c)) as [[|y e]|] eqn:Ee; cbn.
    + split; [done|]. by intros (s' & e' & a & b & _ & _ & [= <-] & ? & _).
    + destruct (parse_date (String x s)) as [a|] eqn:Ea.
      * destruct (parse_date (String y e)) as [b|] eqn:Eb.
        -- rewrite andb_true_iff, !Z.leb_le. split.
           ++ intros H. by exists (String x s), (String y e), a, b.
           ++ intros (s' & e' & a' & b' & [= <-] & _ & [= <-] & _ & Ha & Hb & H).
              congruence.
        -- split; [done|].
           intros (s' & e' & a' & b' & [= <-] & _ & [= <-] & _ & _ & Hb & _).
           congruence.
      * split; [done|].
        intros (s' & e' & a' & b' & [= <-] & _ & _ & _ & Ha & _). congruence.
    + split; [done|]. by intros (s' & e' & a & b & _ & _ & [=] & _).
  - split; [done|]. by intros (s & e & a & b & [=] & _).
Qed.

Lemma row_boxes c boxes r :
  row c = Some boxes → r ∈ boxes → cb_id r = pretty (id c).
Proof.
  unfold row. destruct (_ && _); [|done]. intros [= <-] Hr.
  repeat (apply elem_of_cons in Hr as [->|Hr]; [done|]).
  by apply elem_of_nil in Hr.
Qed.

Lemma rows_boxes cs boxes r :
  rows cs = Some boxes → r ∈ boxes →
  ∃ c, c ∈ cs ∧ cb_id r = pretty (id c).
Proof.
  revert boxes. induction cs as [|c cs IH]; intros boxes; cbn [rows].
  - intros [= <-] Hr. by apply elem_of_nil in Hr.
  - destruct (row c) as [first|] eqn:Hrow; [|done].
    destruct (rows cs) as [later|]; [|done].
    intros [= <-] [Hr|Hr]%elem_of_app.
    + exists c. split; [by left|]. by eapply row_boxes.
    + destruct (IH later eq_refl Hr) as (c' & Hc' & Hid).
      exists c'. split; [by right | done].
Qed.

Lemma rows_plain cs boxes c :
  rows cs = Some boxes → c ∈ cs →
  plain_text (name c) = true ∧ plain_text (course_code c) = true
  ∧ plain_text (Js.to_string (term_name (course_term c))) = true.
Proof.
  revert boxes. induction cs as [|c0 cs IH]; intros boxes; cbn [rows].
  - intros _ Hc. by apply elem_of_nil in Hc.
  - destruct (row c0) as [first|] eqn:Hrow; [|done].
    destruct (rows cs) as [later|]; [|done].
    intros _ [->|Hc]%elem_of_cons; [|by eapply IH].
    unfold row in Hrow.
    destruct (plain_text (name c0)), (plain_text (course_code c0)),
      (plain_text (Js.to_string (term_name (course_term c0)))); done.
Qed.

End ViewFacts.

(** X18. The course table shows courses of the catalog only, in the order
    of the catalog. Under the filter [current] it shows exactly the
    courses whose term has a start and an end, both readable as dates,
    with the present time between them; under the filter [specific]
    exactly the courses whose term name is among the chosen ones. *)
Theorem course_table_shows_a_filtered_catalog (parse_date : string → option Z)
    (filter_value : string) (now : Z) (chosen : list string)
    (allCourses : list course) (c : course) :
  shown parse_date filter_value now chosen allCourses `sublist_of` allCourses
  ∧ (c ∈ shown parse_date "current" now chosen allCourses
     ↔ c ∈ allCourses
       ∧ ∃ s e a b,
           start_at (course_term c) = Some s ∧ s ≠ EmptyString
           ∧ end_at (course_term c) = Some e ∧ e ≠ EmptyString
           ∧ parse_date s = Some a ∧ parse_date e = Some b
           ∧ (a ≤ now ≤ b)%Z)
  ∧ (c ∈ shown parse_date "specific" now chosen allCourses
     ↔ c ∈ allCourses
       ∧ ∃ n, term_name (course_term c) = Some n ∧ n ∈ chosen).
Proof.
  split_and!.
  - unfold shown. destruct (String.eqb filter_value "current");
      [apply filter_bool_sublist|].
    destruct (String.eqb filter_value "specific");
      [apply filter_bool_sublist | done].
  - change (shown parse_date "current" now chosen allCourses)
      with (List.filter (is_current parse_date now) allCourses).
    by rewrite filter_bool_elem, is_current_dates.
  - change (shown parse_date "specific" now chosen allCourses)
      with (List.filter (in_chosen chosen) allCourses).
    rewrite filter_bool_elem. unfold in_chosen.
    destruct (term_name (course_term c)) as [n|].
    + rewrite bool_decide_eq_true. split.
      * intros [Hc Hn]. split; [done|]. by exists n.
      * intros [Hc (n' & [= <-] & Hn)]. done.
    + split; [by intros [_ ?]|]. by intros [_ (n & [=] & _)].
Qed.

(** X19. The rows of the course table are parsed from markup into which
    the name, the course code and the term name of a course are put
    unescaped. When the table is built from the template alone, which
    requires that none of these texts of a course shown holds a [<],
    then, whatever boxes the user checks, every course id of the
    selections gathered from the table is the id, as a decimal numeral, of
    a course that the table shows, hence of a course of the catalog. *)
Theorem selected_ids_are_shown_courses (parse_date : string → option Z)
    (filter_value : string) (now : Z)
    (chosen : list string) (allCourses : list course)
    (boxes cbs : list checkbox) (k : category) (x : string) :
  renderCourses parse_date filter_value now chosen allCourses = Some boxes →
  toggled boxes cbs →
  (k, x) ∈ units (gather cbs) →
  (∀ c, c ∈ shown parse_date filter_value now chosen allCourses →
        plain_text (name c) = true ∧ plain_text (course_code c) = true
        ∧ plain_text (Js.to_string (term_name (course_term c))) = true)
  ∧ ∃ c, c ∈ shown parse_date filter_value now chosen allCourses
         ∧ c ∈ allCourses ∧ x = pretty (id c).
Proof.
  intros Hrender Htog Hx. split.
  { intros c Hc. by eapply rows_plain. }
  assert (Hcb : ∃ cb, cb ∈ cbs ∧ cb_id cb = x).
  { unfold gather in Hx. rewrite gather_from in Hx. unfold units in Hx.
    cbn [sel_modules sel_syllabus sel_pages sel_submissions app] in Hx.
    rewrite !elem_of_app, !list_elem_of_fmap in Hx.
    destruct Hx as [(y & [= _ ->] & Hy)|[(y & [= _ ->] & Hy)|
                   [(y & [= _ ->] & Hy)|(y & [= _ ->] & Hy)]]];
      apply list_elem_of_fmap in Hy as (cb & -> & Hcb);
      apply filter_bool_elem in Hcb as [Hcb _]; by exists cb. }
  destruct Hcb as (cb & Hcb & <-).
  unfold toggled in Htog.
  apply list_elem_of_lookup in Hcb as [n Hn].
  destruct (Forall2_lookup_r _ _ _ _ _ Htog Hn) as (r & Hr & _ & Hid).
  apply list_elem_of_lookup_2 in Hr.
  destruct (rows_boxes _ _ r Hrender Hr) as (c & Hc & Hshow).
  exists c. split_and!; [done| |congruence].
  eapply elem_of_sublist; [exact Hc|].
  unfold shown. destruct (String.eqb filter_value "current");
    [apply filter_bool_sublist|].
  destruct (String.eqb filter_value "specific");
    [apply filter_bool_sublist | done].
Qed.

(** The modules box of the one course shown is checked. *)
Lemma selected_ids_are_shown_courses_witness :
  ∃ c, c ∈ shown View.parse_date "current" 20500 [] [View.algebra; View.logic]
       ∧ c ∈ [View.algebra; View.logic] ∧ "2" = pretty (id c).
Proof.
  assert (Hrender :
    renderCourses View.parse_date "current" 20500 [] [View.algebra; View.logic]
    = Some [Checkbox Modules "2" false; Checkbox Syllabus "2" false;
            Checkbox Pages "2" false; Checkbox Submissions "2" false])
    by (vm_compute; reflexivity).
  assert (Htog : toggled
            [Checkbox Modules "2" false; Checkbox Syllabus "2" false;
             Checkbox Pages "2" false; Checkbox Submissions "2" false]
            [Checkbox Modules "2" true; Checkbox Syllabus "2" false;
             Checkbox Pages "2" false; Checkbox Submissions "2" false]).
  { repeat constructor. }
  assert (Hx : (Modules, "2")
               ∈ units (gather [Checkbox Modules "2" true;
                                Checkbox Syllabus "2" false;
                                Checkbox Pages "2" false;
                                Checkbox Submissions "2" false])).
  { vm_compute. left. }
  exact (proj2
    (selected_ids_are_shown_courses View.parse_date "current"
       20500 [] [View.algebra; View.logic] _ _ Modules "2" Hrender Htog Hx)).
Defined.

(** ** The term selector and the load button *)

Lemma set_add_string_elem seen x i :
  i ∈ set_add_string seen x ↔ i ∈ seen ∨ i = x.
Proof.
  unfold set_add_string. case_bool_decide as Hx.
  - split; [by left|]. intros [?| ->]; done.
  - rewrite elem_of_app, list_elem_of_singleton. done.
Qed.

Lemma set_add_string_NoDup seen x : NoDup seen → NoDup (set_add_string seen x).
Proof.
  intros Hnd. unfold set_add_string. case_bool_decide as Hx; [done|].
  apply NoDup_app. split_and!; [done| |apply NoDup_singleton].
  intros i Hi ->%list_elem_of_singleton. done.
Qed.

Lemma fold_set_add_string l :
  ∀ seen, NoDup seen →
          NoDup (fold_left set_add_string l seen)
          ∧ ∀ i, i ∈ fold_left set_add_string l seen ↔ i ∈ seen ∨ i ∈ l.
Proof.
  induction l as [|x l IH]; intros seen Hnd; cbn [fold_left].
  - split; [done|]. intros i. rewrite elem_of_nil. tauto.
  - destruct (IH (set_add_string seen x)) as [H1 H2];
      [by apply set_add_string_NoDup|].
    split; [done|]. intros i.
    rewrite H2, set_add_string_elem, elem_of_cons. tauto.
Qed.

(** X20. The options of the term selector are the term names of the
    courses of the catalog, each once, without the courses that have no
    term name or an empty one, in ascending order. *)
Theorem term_options_are_sorted_and_distinct (allCourses : list course)
    (n : string) :
  StronglySorted String.le (term_options allCourses)
  ∧ NoDup (term_options allCourses)
  ∧ (n ∈ term_options allCourses
     ↔ n ≠ EmptyString
       ∧ ∃ c, c ∈ allCourses ∧ term_name (course_term c) = Some n).
Proof.
  unfold term_options.
  set (names := List.filter (λ n, Js.truthy (Some n))
                  (omap (λ c, term_name (course_term c)) allCourses)).
  destruct (fold_set_add_string names [] (NoDup_nil_2)) as [Hnd Hin].
  split_and!.
  - apply StronglySorted_merge_sort; apply _.
  - by rewrite merge_sort_Permutation.
  - rewrite merge_sort_Permutation, Hin, elem_of_nil. unfold names.
    rewrite filter_bool_elem, list_elem_of_omap. split.
    + intros [[]|[(c & Hc & Hn) Ht]]. split; [|by exists c].
      intros ->. discriminate Ht.
    + intros [Hne (c & Hc & Hn)]. right. split; [by exists c|].
      by destruct n.
Qed.

Lemma trimStart_all_blank (s : string) :
  blank s = true → Js.trimStart s = EmptyString.
Proof.
  induction s as [|a s IH]; [done|]. cbn [blank Js.trimStart].
  intros [Ha Hs]%andb_true_iff. rewrite Ha. by apply IH.
Qed.

Lemma trimEnd_empty_blank (s : string) :
  Js.trimEnd s = EmptyString → blank s = true.
Proof.
  induction s as [|a s IH]; [done|]. cbn [blank Js.trimEnd].
  destruct (Js.trimEnd s) as [|b t]; [|done].
  destruct (Js.is_space a); [|done]. intros _. by rewrite IH.
Qed.

Lemma blank_trimStart (s : string) :
  blank (Js.trimStart s) = true → blank s = true.
Proof.
  induction s as [|a s IH]; [done|]. cbn [blank Js.trimStart].
  destruct (Js.is_space a) eqn:Ha; [by intros ?%IH|].
  cbn [blank]. by rewrite Ha.
Qed.

Lemma trim_truthy (s : string) : Js.truthy (Some (Js.trim s)) = negb (blank s).
Proof.
  destruct (blank s) eqn:Hb.
  - unfold Js.trim. by rewrite trimStart_all_blank.
  - destruct (Js.trim s) as [|a t] eqn:Et; [|done].
    unfold Js.trim in Et. apply trimEnd_empty_blank, blank_trimStart in Et.
    congruence.
Qed.

(** X21. The load button asks for the catalog only when both inputs hold
    more than white space. If the URL or the token is empty or holds ASCII
    white space only, the user is alerted and no request is made. If both
    are made of ASCII characters and neither is blank, the request is made
    and carries the two inputs with the white space around them removed. *)
Theorem load_needs_both_inputs (url_input token_input : string) :
  (blank url_input || blank token_input = true →
   loadBtn_onclick url_input token_input
   = LoadAlert "Please fill in both Canvas URL and API token.")
  ∧ (ascii_only url_input = true → ascii_only token_input = true →
     blank url_input = false → blank token_input = false →
     loadBtn_onclick url_input token_input
     = LoadRequest (Js.trim url_input) (Js.trim token_input)
     ∧ Js.truthy (Some (Js.trim url_input)) = true
     ∧ Js.truthy (Some (Js.trim token_input)) = true).
Proof.
  unfold loadBtn_onclick. rewrite !trim_truthy, !negb_involutive. split.
  - by intros ->.
  - by intros _ _ -> ->.
Qed.

(** A URL with a line feed after it and a token with a space before it. *)
Lemma load_needs_both_inputs_witness :
  loadBtn_onclick (String "010" EmptyString) "token"
  = LoadAlert "Please fill in both Canvas URL and API token."
  ∧ loadBtn_onclick ("https://canvas.test" +:+ String "010" EmptyString)
      " token"
    = LoadRequest "https://canvas.test" "token".
Proof.
  assert (Hb : blank (String "010" EmptyString) || blank "token" = true)
    by reflexivity.
  assert (Hu : ascii_only ("https://canvas.test" +:+ String "010" EmptyString)
               = true) by reflexivity.
  assert (Ht : ascii_only " token" = true) by reflexivity.
  assert (Hnu : blank ("https://canvas.test" +:+ String "010" EmptyString)
                = false) by reflexivity.
  assert (Hnt : blank " token" = false) by reflexivity.
  split.
  - exact (proj1 (load_needs_both_inputs (String "010" EmptyString) "token") Hb).
  - exact (proj1 (proj2 (load_needs_both_inputs
                           ("https://canvas.test" +:+ String "010" EmptyString)
                           " token") Hu Ht Hnu Hnt)).
Defined.

(** ** The syllabus of a course, attachment by attachment *)

Lemma client_obs_no_work t :
  Forall client_obs t → fetches t = [] ∧ entry_names t = [].
Proof.
  intros H. destruct (client_obs_readings t H) as (O & _).
  by rewrite <- (fetches_own t), <- (entry_names_own t), O.
Qed.

Lemma syllabus_attachments_loop cv c (atts : list attachment) :
  (∀ a, a ∈ atts → ∃ s, bytes_of cv (att_url a) = Return s) →
  ∀ w, ∃ new,
    fst (for_of atts (λ a,
           st ← fetch (GetBytes (att_url a)) (bytes_of cv (att_url a));
           append st (c +:+ "/Syllabus/" +:+ filename a)) w) = Return tt
    ∧ trace (snd (for_of atts (λ a,
           st ← fetch (GetBytes (att_url a)) (bytes_of cv (att_url a));
           append st (c +:+ "/Syllabus/" +:+ filename a)) w))
      = trace w ++ new
    ∧ fetches new = (λ a, GetBytes (att_url a)) <$> atts
    ∧ entry_names new = (λ a, c +:+ "/Syllabus/" +:+ filename a) <$> atts.
Proof.
  induction atts as [|a atts IH]; intros Hall w.
  - exists []. by rewrite app_nil_r.
  - destruct (Hall a) as [s Hs]; [by left|].
    cbn [for_of]. rewrite !bind_run. cbn [fetch]. rewrite Hs.
    cbn [append act].
    destruct (deliver_trace (log (Fetch (GetBytes (att_url a))) w))
      as (n1 & H1 & F1 & _).
    destruct (client_obs_no_work n1 F1) as [Hf He].
    set (w1 := log (Append (c +:+ "/Syllabus/" +:+ filename a) s)
                 (deliver (log (Fetch (GetBytes (att_url a))) w))).
    destruct (IH (λ b Hb, Hall b (list_elem_of_further _ _ _ Hb)) w1)
      as (n2 & R2 & H2 & F2 & E2).
    exists (Fetch (GetBytes (att_url a)) :: n1
            ++ Append (c +:+ "/Syllabus/" +:+ filename a) s :: n2).
    split_and!.
    + exact R2.
    + rewrite H2. unfold w1. cbn [log trace]. rewrite H1. cbn [log trace].
      rewrite <- !app_assoc. done.
    + change (fetches (Fetch (GetBytes (att_url a)) :: n1
                       ++ Append (c +:+ "/Syllabus/" +:+ filename a) s :: n2))
        with (GetBytes (att_url a)
              :: fetches (n1 ++ Append (c +:+ "/Syllabus/" +:+ filename a) s
                                :: n2)).
      rewrite fetches_app, Hf. cbn [app].
      change (fetches (Append (c +:+ "/Syllabus/" +:+ filename a) s :: n2))
        with (fetches n2).
      by rewrite F2, fmap_cons.
    + change (entry_names (Fetch (GetBytes (att_url a)) :: n1
                       ++ Append (c +:+ "/Syllabus/" +:+ filename a) s :: n2))
        with (entry_names (n1 ++ Append (c +:+ "/Syllabus/" +:+ filename a) s
                                :: n2)).
      rewrite entry_names_app, He. cbn [app].
      change (entry_names (Append (c +:+ "/Syllabus/" +:+ filename a) s :: n2))
        with ((c +:+ "/Syllabus/" +:+ filename a) :: entry_names n2).
      by rewrite E2, fmap_cons.
Qed.

(** X22. When the attachment listing of the syllabus page and the byte
    stream of each attachment can be fetched, the syllabus loop requests
    the listing and then each attachment in the order of the listing, and
    adds one archive entry per attachment, in that order, under the course
    id, the folder [Syllabus] and the attachment's file name; two
    attachments with the same file name give two entries with the same
    name. *)
Theorem syllabus_is_exported_attachment_by_attachment (cv : canvas)
    (c : string) (atts : list attachment) (w : world) :
  syllabus_of cv c = Return atts →
  (∀ a, a ∈ atts → ∃ s, bytes_of cv (att_url a) = Return s) →
  ∃ new,
    fst (syllabus_unit cv c w) = Return tt
    ∧ trace (snd (syllabus_unit cv c w)) = trace w ++ new
    ∧ fetches new
      = GetSyllabusAttachments c :: ((λ a, GetBytes (att_url a)) <$> atts)
    ∧ entry_names new = (λ a, c +:+ "/Syllabus/" +:+ filename a) <$> atts.
Proof.
  intros Hatts Hall. unfold syllabus_unit. rewrite Hatts, bind_run. cbn [fetch].
  destruct (deliver_trace (log (Fetch (GetSyllabusAttachments c)) w))
    as (n1 & H1 & F1 & _).
  destruct (client_obs_no_work n1 F1) as [Hf He].
  destruct (syllabus_attachments_loop cv c atts Hall
              (deliver (log (Fetch (GetSyllabusAttachments c)) w)))
    as (n2 & R2 & H2 & F2 & E2).
  exists (Fetch (GetSyllabusAttachments c) :: n1 ++ n2). split_and!.
  - exact R2.
  - rewrite H2, H1. cbn [log trace]. by rewrite <- !app_assoc.
  - change (fetches (Fetch (GetSyllabusAttachments c) :: n1 ++ n2))
      with (GetSyllabusAttachments c :: fetches (n1 ++ n2)).
    by rewrite fetches_app, Hf, F2.
  - change (entry_names (Fetch (GetSyllabusAttachments c) :: n1 ++ n2))
      with (entry_names (n1 ++ n2)).
    by rewrite entry_names_app, He, E2.
Qed.

(** Two attachments of the same file name. *)
Lemma syllabus_is_exported_attachment_by_attachment_witness :
  ∃ new,
    fst (syllabus_unit View.cv "101" Sample.opened) = Return tt
    ∧ trace (snd (syllabus_unit View.cv "101" Sample.opened))
      = trace Sample.opened ++ new
    ∧ fetches new
      = GetSyllabusAttachments "101"
        :: ((λ a, GetBytes (att_url a))
              <$> [Attachment "https://files.test/s1" "syllabus.pdf";
                   Attachment "https://files.test/s2" "syllabus.pdf"])
    ∧ entry_names new
      = (λ a, "101" +:+ "/Syllabus/" +:+ filename a)
          <$> [Attachment "https://files.test/s1" "syllabus.pdf";
               Attachment "https://files.test/s2" "syllabus.pdf"].
Proof.
  assert (Hatts : syllabus_of View.cv "101"
                  = Return [Attachment "https://files.test/s1" "syllabus.pdf";
                            Attachment "https://files.test/s2" "syllabus.pdf"])
    by reflexivity.
  assert (Hall : ∀ a,
            a ∈ [Attachment "https://files.test/s1" "syllabus.pdf";
                 Attachment "https://files.test/s2" "syllabus.pdf"] →
            ∃ s, bytes_of View.cv (att_url a) = Return s).
  { intros a _. exists "%PDF". reflexivity. }
  exact (syllabus_is_exported_attachment_by_attachment View.cv "101" _
           Sample.opened Hatts Hall).
Defined.

(** ** Channels that are replaced, and jobs that fail *)

(** X23. The close listener of an events connection removes the
    registration of its job id whichever connection holds it: when the
    client has opened a second connection for the same id before the
    first one closes, the close of the first unregisters the second, and
    progress for the job is dropped although the second is still open. *)
Theorem close_unregisters_a_newer_channel (i : string) (h1 h2 : handle)
    (d n : nat) (m : string) (w : world) :
  let w' := events_close i (events_open (Some i) h2
                              (events_open (Some i) h1 w)) in
  sseClients w' !! i = None
  ∧ sendProgress i d n m w' = w'
  ∧ ∀ cv sel, fst (download cv (Some i) sel w')
              = BadRequest 400 "Invalid downloadId".
Proof.
  cbv zeta.
  set (w' := events_close i (events_open (Some i) h2
                               (events_open (Some i) h1 w))).
  assert (Hnone : sseClients w' !! i = None) by apply lookup_delete_eq.
  split_and!; [done| |].
  - unfold sendProgress. by rewrite Hnone.
  - intros cv sel. unfold download. cbn [Js.to_string].
    rewrite bool_decide_eq_false_2; [|rewrite Hnone; by intros [? ?]].
    by rewrite orb_true_r.
Qed.

(** X24. A job that fails leaves its channel as it was: without client
    events the job id stays registered to the same channel, no terminal
    event and no end of stream is written to it, and a further download
    request with the same id is accepted. *)
Theorem failed_job_leaves_its_channel_open (cv : canvas) (i : string)
    (h : handle) (sel sel' : selections) (ends : bool) (w : world) (e : error) :
  Js.truthy (Some i) = true →
  sseClients w !! i = Some h →
  schedule w = [] →
  fst (job cv (Some i) sel ends w) = Crashed e →
  sseClients (snd (job cv (Some i) sel ends w)) !! i = Some h
  ∧ (∃ new, trace (snd (job cv (Some i) sel ends w)) = trace w ++ new
            ∧ terminals new = [] ∧ Forall (λ o, ∀ h', o ≠ End h') new)
  ∧ ∀ code message,
      fst (download cv (Some i) sel' (snd (job cv (Some i) sel ends w)))
      ≠ BadRequest code message.
Proof.
  intros Ht Hh Hs Hcrash.
  assert (Hopen : is_Some (sseClients w !! i)) by by eexists.
  destruct (job_actions cv i sel) as [Hacts _].
  destruct (script cv i (total_of sel) (units sel) 0) as [acts [d|e']] eqn:E;
    cbn [fst] in *.
  { rewrite (job_finishes cv i sel ends w acts d) in Hcrash by done.
    discriminate Hcrash. }
  rewrite (job_crashes cv i sel ends w acts e') by done. cbn [snd].
  destruct (run_idle i h (total_of sel) _ w Hacts Hs Hh) as (C & S & _).
  rewrite drain_idle by done.
  assert (Hstill : sseClients (run (Work Piped :: acts) w) !! i = Some h)
    by by rewrite C.
  split_and!; [done| |].
  - destruct (run_trace (Work Piped :: acts) w) as (new & H & _ & _ & T & En).
    { eapply Forall_impl; [exact Hacts|]. apply job_action_handler. }
    by exists new.
  - intros code message. rewrite download_open; [|done|by eexists].
    by destruct (script cv i (total_of sel') (units sel') 0) as [a [d|e0]].
Qed.

(** The module listing of course 102 fails; the channel of the sample job
    stays registered. *)
Lemma failed_job_leaves_its_channel_open_witness :
  sseClients (snd (job Sample.cv (Some "job") (Selections ["102"] [] [] [])
                     true Sample.opened)) !! "job"
  = Some 1%nat.
Proof.
  assert (Ht : Js.truthy (Some "job") = true) by reflexivity.
  assert (Hh : sseClients Sample.opened !! "job" = Some 1%nat)
    by (vm_compute; reflexivity).
  assert (Hs : schedule Sample.opened = []) by reflexivity.
  assert (Hc : fst (job Sample.cv (Some "job") (Selections ["102"] [] [] [])
                      true Sample.opened)
               = Crashed (UpstreamFailure "module listing"))
    by (vm_compute; reflexivity).
  exact (proj1 (failed_job_leaves_its_channel_open Sample.cv "job" 1
    (Selections ["102"] [] [] []) Sample.five true Sample.opened _
    Ht Hh Hs Hc)).
Defined.
